(** * The MIG agent actuator of nebulnetes, embedded in Rocq

    The development follows [pkg/controllers/migagent/actuator.go]: the
    actuator walks a MIG configuration plan, calls the MIG driver once per
    partition to delete or create, restarts the NVIDIA device plugin and
    returns an error to the controller framework.

    The two collaborators of the actuator are Go interfaces ([mig.Client] and
    the controller-runtime [client.Client]); they are type classes over an
    abstract world here.  Every call on a collaborator, every log line and
    every [time.Sleep] is recorded as an event, so that ordering and counting
    properties are statements about the event list of a run. *)

From Stdlib Require Import ZArith Lia Ascii DecimalString DecimalNat.
From stdpp Require Import base tactics option list strings gmultiset.

Local Open Scope Z_scope.

(** ** Machine integers *)

(** [uint8] values are integers in [0, 256); [wrap8] is the wrap-around of
    the Go increment on them. *)
Definition wrap8 (z : Z) : Z := z mod 256.

Definition is_uint8 (z : Z) : Prop := 0 <= z < 256.

(** ** Data of the plan *)

Module resource.

(** [resource.Status].  The actuator only ever compares a status with
    [StatusFree]; [StatusOther] stands for any further value of the type. *)
Inductive Status : Type :=
| StatusFree
| StatusUsed
| StatusOther (name : string).

#[global] Instance Status_eq_dec : EqDecision Status.
Proof. solve_decision. Defined.

End resource.

Module migtypes.

(** [mig.ProfileName]: the hardware profile token, for instance 3g.20gb. *)
Definition ProfileName : Type := string.

(** A profile on a given GPU, the argument of a create call. *)
Record MigProfile : Type := mkMigProfile {
  GpuIndex : Z;
  Name : ProfileName
}.

#[global] Instance MigProfile_eq_dec : EqDecision MigProfile.
Proof. solve_decision. Defined.

(** One partition as the driver lists it. *)
Record MigDeviceResource : Type := mkMigDeviceResource {
  DeviceId : string;
  Profile : MigProfile;
  Status : resource.Status
}.

#[global] Instance MigDeviceResource_eq_dec : EqDecision MigDeviceResource.
Proof. solve_decision. Defined.

End migtypes.

Module plan.

Module DeleteOperation.
Record t : Type := mk {
  MigProfile : migtypes.MigProfile;
  Resources : list migtypes.MigDeviceResource;
  Quantity : Z (* uint8 *)
}.
End DeleteOperation.

Module CreateOperation.
Record t : Type := mk {
  MigProfile : migtypes.MigProfile;
  Quantity : Z (* uint8 *)
}.
End CreateOperation.

Record MigConfigPlan : Type := mkMigConfigPlan {
  DeleteOperations : list DeleteOperation.t;
  CreateOperations : list CreateOperation.t
}.

(** The zero value [plan.MigConfigPlan{}]. *)
Definition empty : MigConfigPlan := mkMigConfigPlan [] [].

End plan.

(** ** Kubernetes objects, as far as the actuator looks at them *)

Module v1.

Inductive PodPhase : Type :=
| PodPending | PodRunning | PodSucceeded | PodFailed | PodUnknown.

#[global] Instance PodPhase_eq_dec : EqDecision PodPhase.
Proof. solve_decision. Defined.

Record Pod : Type := mkPod {
  PodName : string;
  DeletionTimestamp : option Z;
  Phase : PodPhase
}.

#[global] Instance Pod_eq_dec : EqDecision Pod.
Proof. solve_decision. Defined.

(** A node carries the annotations the agent reads. *)
Record Node : Type := mkNode {
  NodeName : string;
  Annotations : list (string * string)
}.

#[global] Instance Node_eq_dec : EqDecision Node.
Proof. solve_decision. Defined.

End v1.

(** ** Errors *)

(** Go's [error] is [option Error], [None] being [nil]. *)
Inductive Error : Type :=
| ErrMigClient (msg : string)       (* returned by a mig.Client call *)
| ErrClient (msg : string)          (* returned by a client.Client call *)
| ErrCouldDeleteOnly (n q : Z)      (* could delete only n out of q MIG resources *)
| ErrCouldCreateOnly (n q : Z)      (* could create only n out of q MIG resources *)
| ErrPodCount (n : nat)             (* expected exactly 1 but got n *)
| ErrDeletingPod (cause : Error)    (* error deleting nvidia device plugin pod *)
| ErrWaitTimeout (node : string).   (* error waiting for ... Pod on node: timeout *)

#[global] Instance Error_eq_dec : EqDecision Error.
Proof. solve_decision. Defined.

(** ** Contexts and the logical clock *)

(** Time is counted in seconds on a logical clock that only [time.Sleep]
    advances.  A [context.Context] is its deadline, if it has one. *)
Definition Ctx : Type := option Z.

(** The deadline of [context.WithTimeout(ctx, timeout)] made at [now]: the
    earlier of the parent's deadline and [now + timeout]. *)
Definition deadline (ctx : Ctx) (now timeout : Z) : Z :=
  match ctx with
  | Some d => Z.min d (now + timeout)
  | None => now + timeout
  end.

Definition WithTimeout (ctx : Ctx) (now timeout : Z) : Ctx :=
  Some (deadline ctx now timeout).

(** [ctx.Err() != nil]. *)
Definition ctxErr (ctx : Ctx) (now : Z) : bool :=
  match ctx with
  | Some d => d <=? now
  | None => false
  end.

(** ** The collaborators *)

(** [mig.Client], the driver.  Each call sees the context and the time and
    moves the world. *)
Class MigClient (W : Type) : Type := {
  GetMigDeviceResources :
    Ctx → Z → W → W * (list migtypes.MigDeviceResource + Error);
  DeleteMigResource :
    Ctx → Z → migtypes.MigDeviceResource → W → W * option Error;
  CreateMigResource :
    Ctx → Z → migtypes.MigProfile → W → W * option Error
}.

(** [client.Client], the cluster store.  [ListPods] is the one [List] call
    the actuator makes: pods labelled app=nvidia-device-plugin-daemonset
    whose spec.nodeName is the given node. *)
Class K8sClient (W : Type) : Type := {
  GetNode : Ctx → Z → string → W → W * (v1.Node + Error);
  ListPods : Ctx → Z → string → W → W * (list v1.Pod + Error);
  DeletePod : Ctx → Z → v1.Pod → W → W * option Error;
  UpdateNode : Ctx → Z → v1.Node → W → W * option Error
}.

(** ** Events *)

Inductive Event : Type :=
| EvLock
| EvUnlock
| EvLog (msg : string)
| EvGetMigDeviceResources
| EvDeleteMigResource (r : migtypes.MigDeviceResource) (err : option Error)
| EvCreateMigResource (p : migtypes.MigProfile) (err : option Error)
| EvGetNode (name : string)
| EvListPods (res : list v1.Pod + Error)
| EvDeletePod (p : v1.Pod) (err : option Error)
| EvUpdateNode (n : v1.Node)
| EvSleep (seconds : Z).

#[global] Instance Event_eq_dec : EqDecision Event.
Proof. solve_decision. Defined.

(** ** The monad of the actuator *)

Record St (W : Type) : Type := mkSt { world : W; now : Z }.
Arguments mkSt {W} _ _.
Arguments world {W} _.
Arguments now {W} _.

(** A computation moves the state and emits events; [None] is a loop that
    ran out of fuel. *)
Definition M (W A : Type) : Type := St W → option (A * St W * list Event).

Definition ret {W A} (a : A) : M W A := λ st, Some (a, st, []).

Definition bind {W A B} (c : M W A) (k : A → M W B) : M W B :=
  λ st,
    match c st with
    | None => None
    | Some (a, st1, t1) =>
        match k a st1 with
        | None => None
        | Some (b, st2, t2) => Some (b, st2, t1 ++ t2)
        end
    end.

Notation "'let*' x ':=' c 'in' k" := (bind c (λ x, k))
  (at level 10, x pattern, c at level 100, k at level 200, only parsing).

Definition emit {W} (e : Event) : M W unit := λ st, Some (tt, st, [e]).

(** Every logger call, whatever its level. *)
Definition log {W} (msg : string) : M W unit := emit (EvLog msg).

(** A call on a collaborator: run it on the world, record what [ev] says. *)
Definition call {W R} (f : Z → W → W * R) (ev : R → Event) : M W R :=
  λ st,
    let '(w, r) := f (now st) (world st) in
    Some (r, mkSt w (now st), [ev r]).

(** [time.Sleep d]. *)
Definition sleep {W} (d : Z) : M W unit :=
  λ st, Some (tt, mkSt (world st) (now st + d), [EvSleep d]).

Definition getNow {W} : M W Z := λ st, Some (now st, st, []).

(** A loop whose fuel is spent. *)
Definition diverge {W A} : M W A := λ _, None.

(** What is left of a run once its first step is known. *)
Definition after {W B} (t1 : list Event) (r : option (B * St W * list Event))
  : option (B * St W * list Event) :=
  match r with
  | None => None
  | Some (b, st2, t2) => Some (b, st2, t1 ++ t2)
  end.

(** Every event of every run of [c] satisfies [P]. *)
Definition emits {W A} (P : Event → Prop) (c : M W A) : Prop :=
  ∀ st a st' t, c st = Some (a, st', t) → Forall P t.

(** Every run of [c] returns. *)
Definition total {W A} (c : M W A) : Prop := ∀ st, is_Some (c st).

(** ** The actuator *)

Module migagent.
Section MigActuator.

Context {W : Type} `{!MigClient W} `{!K8sClient W}.

(** The [nodeName] field of [MigActuator]. *)
Variable nodeName : string.

(** The two driver calls and the cluster calls, as the actuator makes
    them. *)
Definition deleteMigResource (ctx : Ctx) (r : migtypes.MigDeviceResource)
  : M W (option Error) :=
  call (λ t, DeleteMigResource ctx t r) (EvDeleteMigResource r).

Definition createMigResource (ctx : Ctx) (p : migtypes.MigProfile)
  : M W (option Error) :=
  call (λ t, CreateMigResource ctx t p) (EvCreateMigResource p).

Definition listPods (ctx : Ctx) : M W (list v1.Pod + Error) :=
  call (λ t, ListPods ctx t nodeName) EvListPods.

Definition deletePod (ctx : Ctx) (p : v1.Pod) : M W (option Error) :=
  call (λ t, DeletePod ctx t p) (EvDeletePod p).

(** *** applyDeleteOp *)

(** The first loop of [applyDeleteOp]: the resources of the operation
    whose status is free, in order, with one log line per resource. *)
Fixpoint candidateResources (rs : list migtypes.MigDeviceResource)
    (acc : list migtypes.MigDeviceResource)
  : M W (list migtypes.MigDeviceResource) :=
  match rs with
  | [] => ret acc
  | r :: rs =>
      let* acc :=
        (if decide (migtypes.Status r = resource.StatusFree)
         then let* _ := log "resource added to delete candidates" in
              ret (acc ++ [r])
         else ret acc) in
      let* _ :=
        (if decide (migtypes.Status r ≠ resource.StatusFree)
         then log "cannot add resource to delete candidates because status is not 'free'"
         else ret tt) in
      candidateResources rs acc
  end.

(** The second loop: delete candidates until [nDeleted >= quantity]; the
    test comes after the increment, as in the source. *)
Fixpoint deleteCandidates (ctx : Ctx) (cands : list migtypes.MigDeviceResource)
    (nDeleted quantity : Z) : M W Z :=
  match cands with
  | [] => ret nDeleted
  | r :: cands =>
      let* err := deleteMigResource ctx r in
      match err with
      | Some _ =>
          let* _ := log "unable to delete MIG resource" in
          deleteCandidates ctx cands nDeleted quantity
      | None =>
          let* _ := log "deleted MIG resource" in
          let nDeleted := wrap8 (nDeleted + 1) in
          if quantity <=? nDeleted
          then ret nDeleted
          else deleteCandidates ctx cands nDeleted quantity
      end
  end.

Definition applyDeleteOp (ctx : Ctx) (op : plan.DeleteOperation.t)
  : M W (bool * option Error) :=
  let* _ := log "applying delete operation for MigProfile" in
  let* cands := candidateResources (plan.DeleteOperation.Resources op) [] in
  let* nDeleted :=
    deleteCandidates ctx cands 0 (plan.DeleteOperation.Quantity op) in
  let atLeastOneDelete := 0 <? nDeleted in
  if nDeleted <? plan.DeleteOperation.Quantity op
  then ret (atLeastOneDelete,
            Some (ErrCouldDeleteOnly nDeleted (plan.DeleteOperation.Quantity op)))
  else ret (atLeastOneDelete, None).

(** *** applyCreateOp *)

(** The loop [for i = 0; i < op.Quantity; i++]. *)
Fixpoint createLoop (fuel : nat) (ctx : Ctx) (p : migtypes.MigProfile)
    (i nCreated quantity : Z) : M W Z :=
  if i <? quantity then
    match fuel with
    | O => diverge
    | S fuel =>
        let* err := createMigResource ctx p in
        match err with
        | Some _ =>
            let* _ := log "unable to create MIG resource" in
            createLoop fuel ctx p (wrap8 (i + 1)) nCreated quantity
        | None =>
            let* _ := log "created MIG resource" in
            createLoop fuel ctx p (wrap8 (i + 1)) (wrap8 (nCreated + 1)) quantity
        end
    end
  else ret nCreated.

Definition applyCreateOp (fuel : nat) (ctx : Ctx) (op : plan.CreateOperation.t)
  : M W (bool * option Error) :=
  let* _ := log "applying create operation for MigProfile" in
  let* nCreated :=
    createLoop fuel ctx (plan.CreateOperation.MigProfile op) 0 0
      (plan.CreateOperation.Quantity op) in
  let atLeastOneCreate := 0 <? nCreated in
  if nCreated <? plan.CreateOperation.Quantity op
  then ret (atLeastOneCreate,
            Some (ErrCouldCreateOnly nCreated (plan.CreateOperation.Quantity op)))
  else ret (atLeastOneCreate, None).

(** *** The device plugin restart *)

(** The closure [checkPodRecreated] of [waitNvidiaDevicePluginPodRestart]. *)
Definition checkPodRecreated (ctx : Ctx) : M W (bool * option Error) :=
  let* res := listPods ctx in
  match res with
  | inr e => ret (false, Some e)
  | inl items =>
      if decide (length items ≠ 1%nat) then ret (false, None)
      else
        match items with
        | [] => ret (false, None)
        | pod :: _ =>
            if decide (v1.DeletionTimestamp pod ≠ None) then ret (false, None)
            else if decide (v1.Phase pod ≠ v1.PodRunning) then ret (false, None)
            else ret (true, None)
        end
  end.

(** The [for] loop of [waitNvidiaDevicePluginPodRestart]. *)
Fixpoint waitLoop (fuel : nat) (ctx : Ctx) : M W (option Error) :=
  match fuel with
  | O => diverge
  | S fuel =>
      let* _ := log "waiting for nvidia device plugin Pod to be recreated" in
      let* (recreated, err) := checkPodRecreated ctx in
      match err with
      | Some e => ret (Some e)
      | None =>
          if recreated : bool
          then let* _ := log "nvidia device plugin Pod recreated" in
               ret None
          else
            let* t := getNow in
            if ctxErr ctx t then ret (Some (ErrWaitTimeout nodeName))
            else let* _ := sleep 5 in
                 waitLoop fuel ctx
      end
  end.

Definition waitNvidiaDevicePluginPodRestart (fuel : nat) (ctx : Ctx)
    (timeout : Z) : M W (option Error) :=
  let* t := getNow in
  let ctx := WithTimeout ctx t timeout in
  waitLoop fuel ctx.

Definition restartNvidiaDevicePlugin (fuel : nat) (ctx : Ctx)
  : M W (option Error) :=
  let* _ := log "restarting nvidia device plugin" in
  let* res := listPods ctx in
  match res with
  | inr e => ret (Some e)
  | inl items =>
      if decide (length items ≠ 1%nat) then ret (Some (ErrPodCount (length items)))
      else
        match items with
        | [] => ret (Some (ErrPodCount 0))
        | pod :: _ =>
            let* err := deletePod ctx pod in
            match err with
            | Some e => ret (Some (ErrDeletingPod e))
            | None =>
                let* _ := log "deleted nvidia device plugin pod" in
                let* err := waitNvidiaDevicePluginPodRestart fuel ctx 60 in
                match err with
                | Some e => ret (Some e)
                | None =>
                    let* _ := log "nvidia device plugin restarted" in
                    ret None
                end
            end
        end
  end.

(** *** apply *)

(** The loop over [plan.DeleteOperations]: each turn assigns both
    [atLeastOneDelete] and [err]. *)
Fixpoint applyDeleteOps (ctx : Ctx) (ops : list plan.DeleteOperation.t)
    (atLeastOneDelete : bool) (err : option Error)
  : M W (bool * option Error) :=
  match ops with
  | [] => ret (atLeastOneDelete, err)
  | op :: ops =>
      let* (atLeastOneDelete, err) := applyDeleteOp ctx op in
      let* _ :=
        (if decide (err ≠ None)
         then log "unable to fulfill delete operation" else ret tt) in
      applyDeleteOps ctx ops atLeastOneDelete err
  end.

(** The loop over [plan.CreateOperations]. *)
Fixpoint applyCreateOps (fuel : nat) (ctx : Ctx)
    (ops : list plan.CreateOperation.t)
    (atLeastOneCreate : bool) (err : option Error)
  : M W (bool * option Error) :=
  match ops with
  | [] => ret (atLeastOneCreate, err)
  | op :: ops =>
      let* (atLeastOneCreate, err) := applyCreateOp fuel ctx op in
      let* _ :=
        (if decide (err ≠ None)
         then log "unable to fulfill create operation" else ret tt) in
      applyCreateOps fuel ctx ops atLeastOneCreate err
  end.

(** [apply]; the [ctrl.Result] it returns is always the zero value and is
    left out. *)
Definition apply (fuel : nat) (ctx : Ctx) (p : plan.MigConfigPlan)
  : M W (option Error) :=
  let* _ := log "applying MIG config plan" in
  let* (atLeastOneDelete, err) :=
    applyDeleteOps ctx (plan.DeleteOperations p) false None in
  let* (atLeastOneCreate, err) :=
    applyCreateOps fuel ctx (plan.CreateOperations p) false err in
  if atLeastOneCreate || atLeastOneDelete then
    let* err := restartNvidiaDevicePlugin fuel ctx in
    match err with
    | Some e =>
        let* _ := log "unable to restart nvidia device plugin" in
        ret (Some e)
    | None => ret None
    end
  else ret err.

(** *** plan and Reconcile *)

(** The packages [annotation] and [plan] are used through these
    functions only. *)
Context {SpecAnnotations StatusAnnotations MigState : Type}.
Variable GetGPUAnnotationsFromNode :
  v1.Node → StatusAnnotations * SpecAnnotations.
Variable SpecMatchesStatus : SpecAnnotations → StatusAnnotations → bool.
Variable NewMigState : list migtypes.MigDeviceResource → MigState.
Variable Matches : MigState → SpecAnnotations → bool.
Variable NewMigConfigPlan : MigState → SpecAnnotations → plan.MigConfigPlan.
Variable IsEmpty : plan.MigConfigPlan → bool.

Definition plan (ctx : Ctx) (specAnnotations : SpecAnnotations)
  : M W (plan.MigConfigPlan + Error) :=
  let* res :=
    call (λ t, GetMigDeviceResources ctx t) (λ _, EvGetMigDeviceResources) in
  match res with
  | inr e =>
      let* _ := log "unable to get MIG device resources" in
      ret (inr e)
  | inl migDeviceResources =>
      let state := NewMigState migDeviceResources in
      if Matches state specAnnotations
      then let* _ := log "actual state matches desired MIG config" in
           ret (inl plan.empty)
      else ret (inl (NewMigConfigPlan state specAnnotations))
  end.

(** The body of [Reconcile] between [Lock] and the deferred [Unlock]. *)
Definition reconcileLocked (fuel : nat) (ctx : Ctx) (reqName : string)
  : M W (option Error) :=
  let* res := call (λ t, GetNode ctx t reqName) (λ _, EvGetNode reqName) in
  match res with
  | inr e => ret (Some e)
  | inl instance =>
      let '(statusAnnotations, specAnnotations) :=
        GetGPUAnnotationsFromNode instance in
      if SpecMatchesStatus specAnnotations statusAnnotations
      then let* _ := log "reported status matches desired MIG config, nothing to do" in
           ret None
      else
        let* res := plan ctx specAnnotations in
        match res with
        | inr e => ret (Some e)
        | inl configPlan =>
            if IsEmpty configPlan
            then let* _ := log "MIG config plan is empty, nothing to do" in
                 ret None
            else apply fuel ctx configPlan
        end
  end.

Definition Reconcile (fuel : nat) (ctx : Ctx) (reqName : string)
  : M W (option Error) :=
  let* _ := emit EvLock in
  let* res := reconcileLocked fuel ctx reqName in
  let* _ := emit EvUnlock in
  ret res.

End MigActuator.
End migagent.

(** ** Reading event lists *)

(** The create calls of a run, with their outcomes. *)
Definition createCalls (t : list Event)
  : list (migtypes.MigProfile * option Error) :=
  omap (λ e, match e with
             | EvCreateMigResource p err => Some (p, err)
             | _ => None
             end) t.

(** The delete calls of a run, with their outcomes. *)
Definition deleteCalls (t : list Event)
  : list (migtypes.MigDeviceResource * option Error) :=
  omap (λ e, match e with
             | EvDeleteMigResource r err => Some (r, err)
             | _ => None
             end) t.

(** The calls of a list that returned no error. *)
Definition succeeded {A} (calls : list (A * option Error)) : list A :=
  omap (λ c, match snd c with None => Some (fst c) | Some _ => None end) calls.

(** How often [restartNvidiaDevicePlugin] was entered: once per occurrence
    of its opening log line. *)
Definition restarts (t : list Event) : nat :=
  length (filter (λ e, e = EvLog "restarting nvidia device plugin") t).

(** The condition the wait loop polls for: exactly one pod, no deletion
    timestamp, phase running. *)
Definition recreated (res : list v1.Pod + Error) : bool :=
  match res with
  | inl [pod] =>
      bool_decide (v1.DeletionTimestamp pod = None)
      && bool_decide (v1.Phase pod = v1.PodRunning)
  | _ => false
  end.

Definition isError {A} (res : A + Error) : bool :=
  match res with inr _ => true | inl _ => false end.

(** One turn of the wait loop that polls, finds the pod not yet recreated
    and sleeps five seconds. *)
Definition pollRound (res : list v1.Pod + Error) : list Event :=
  [EvLog "waiting for nvidia device plugin Pod to be recreated";
   EvListPods res; EvSleep 5].

(** The turn of the wait loop that leaves it. *)
Definition lastRound (res : list v1.Pod + Error) : list Event :=
  [EvLog "waiting for nvidia device plugin Pod to be recreated";
   EvListPods res]
  ++ (if recreated res then [EvLog "nvidia device plugin Pod recreated"] else []).

(** What a run of the wait loop looks like: it started at [start] with the
    deadline [deadline], emitted [t], returned [r] at time [finish]. *)
Definition waitOutcome (node : string) (deadline start : Z)
    (r : option Error) (finish : Z) (t : list Event) : Prop :=
  ∃ (earlier : list (list v1.Pod + Error)) (last : list v1.Pod + Error),
    t = flat_map pollRound earlier ++ lastRound last
    ∧ Forall (λ res, recreated res = false ∧ isError res = false) earlier
    ∧ finish = start + 5 * Z.of_nat (length earlier)
    ∧ (earlier ≠ [] → start + 5 * (Z.of_nat (length earlier) - 1) < deadline)
    ∧ r = match last with
          | inr e => Some e
          | inl _ => if recreated last then None else Some (ErrWaitTimeout node)
          end
    ∧ (recreated last = false → isError last = false → deadline <= finish).

Definition isLog (e : Event) : Prop :=
  match e with EvLog _ => True | _ => False end.

(** What [applyDeleteOp] emits: driver deletions and log lines, none of
    them the opening line of the restart. *)
Definition deleteOpEvent (e : Event) : Prop :=
  match e with
  | EvLog msg => msg ≠ "restarting nvidia device plugin"
  | EvDeleteMigResource _ _ => True
  | _ => False
  end.

(** What [applyCreateOp] emits: driver creations and log lines, none of
    them the opening line of the restart. *)
Definition createOpEvent (e : Event) : Prop :=
  match e with
  | EvLog msg => msg ≠ "restarting nvidia device plugin"
  | EvCreateMigResource _ _ => True
  | _ => False
  end.

(** What [restartNvidiaDevicePlugin] emits after its opening log line:
    other log lines, pod listings, the pod deletion, sleeps. *)
Definition restartEvent (e : Event) : Prop :=
  match e with
  | EvLog msg => msg ≠ "restarting nvidia device plugin"
  | EvListPods _ | EvDeletePod _ _ | EvSleep _ => True
  | _ => False
  end.

(** The events [apply] can emit: log lines, driver deletions and creations,
    pod listing and deletion, sleeps. *)
Definition applyEvent (e : Event) : Prop :=
  match e with
  | EvLog _ | EvDeleteMigResource _ _ | EvCreateMigResource _ _
  | EvListPods _ | EvDeletePod _ _ | EvSleep _ => True
  | EvLock | EvUnlock | EvGetMigDeviceResources | EvGetNode _
  | EvUpdateNode _ => False
  end.

(** The events of [Reconcile] before it applies the plan: log lines, the
    read of the node, the read of the driver state. *)
Definition planEvent (e : Event) : Prop :=
  match e with
  | EvLog _ | EvGetNode _ | EvGetMigDeviceResources => True
  | _ => False
  end.

(** The quantities of the create operations are [uint8] values. *)
Definition uint8_quantities (ops : list plan.CreateOperation.t) : Prop :=
  Forall (λ op, is_uint8 (plan.CreateOperation.Quantity op)) ops.

Definition uint8_delete_quantities (ops : list plan.DeleteOperation.t) : Prop :=
  Forall (λ op, is_uint8 (plan.DeleteOperation.Quantity op)) ops.

(** ** Runs told from the collaborators

    What the driver and the cluster store answer when they are called in a
    row, each call on the world the call before left: the yardstick for the
    runs of the actuator. *)

(** The answers of the driver to [n] create calls for [p] in a row, the
    first one on [w], and the world after the last. *)
Fixpoint createAnswers {W} `{!MigClient W} (ctx : Ctx) (now : Z)
    (p : migtypes.MigProfile) (n : nat) (w : W) : list (option Error) * W :=
  match n with
  | O => ([], w)
  | S n =>
      let '(w1, e) := CreateMigResource ctx now p w in
      let '(es, w2) := createAnswers ctx now p n w1 in
      (e :: es, w2)
  end.

(** The world in which poll number [k] of a wait is made, counting from 0:
    the wait starts at time [start] in the world [w], a poll is one listing
    of the pods, and two polls are five seconds apart. *)
Fixpoint pollWorld {W} `{!K8sClient W} (ctx : Ctx) (node : string)
    (start : Z) (k : nat) (w : W) : W :=
  match k with
  | O => w
  | S k => pollWorld ctx node (start + 5) k (ListPods ctx start node w).1
  end.

(** Poll number [k]: the listing made at time [start + 5 k]. *)
Definition poll {W} `{!K8sClient W} (ctx : Ctx) (node : string)
    (start : Z) (k : nat) (w : W) : W * (list v1.Pod + Error) :=
  ListPods ctx (start + 5 * Z.of_nat k) node (pollWorld ctx node start k w).

(** The run of a loop of [apply] over the operations [ops], from [st] to
    [st'] with the events [t]: one run of [run] per operation, in the order
    of the list, each from the state the one before left, followed by the
    log line [failure] when it returned an error. *)
Fixpoint opRuns {W Op} (run : Op → M W (bool * option Error))
    (failure : string) (ops : list Op) (st st' : St W) (t : list Event)
  : Prop :=
  match ops with
  | [] => st' = st ∧ t = []
  | op :: ops =>
      ∃ res st1 t1 t2,
        run op st = Some (res, st1, t1)
        ∧ opRuns run failure ops st1 st' t2
        ∧ t = t1 ++ (if decide (res.2 ≠ None) then [EvLog failure] else [])
              ++ t2
  end.

(** A status writeback in a run: the driver state is read again and the node
    object is written afterwards. *)
Definition writesBackStatus (t : list Event) : Prop :=
  ∃ t1 t2 t3 n, t = t1 ++ EvGetMigDeviceResources :: t2 ++ EvUpdateNode n :: t3.

(** ** A scripted world

    A world whose collaborators answer from a script; it serves to run the
    actuator on concrete plans. *)

Module fake.

Record World : Type := mk {
  refuseDelete : list string;
    (* ids of the devices the driver refuses to delete *)
  createOutcomes : list (option Error);
    (* outcomes of the coming create calls; success once exhausted *)
  podLists : list (list v1.Pod + Error);
    (* answers of the coming pod listings; the last one repeats *)
  podDeleteErr : option Error;
    (* outcome of a pod deletion *)
  devices : list migtypes.MigDeviceResource;
    (* what the driver lists *)
  node : v1.Node
    (* the node object *)
}.

Definition driverError : Error := ErrMigClient "driver failure".

#[global] Instance migClient : MigClient World := {
  GetMigDeviceResources _ _ w := (w, inl (devices w));
  DeleteMigResource _ _ r w :=
    if decide (migtypes.DeviceId r ∈ refuseDelete w)
    then (w, Some driverError)
    else (mk (refuseDelete w) (createOutcomes w) (podLists w) (podDeleteErr w)
            (filter (λ d, migtypes.DeviceId d ≠ migtypes.DeviceId r) (devices w))
            (node w),
          None);
  CreateMigResource _ _ p w :=
    match createOutcomes w with
    | [] => (w, None)
    | o :: rest =>
        (mk (refuseDelete w) rest (podLists w) (podDeleteErr w) (devices w)
           (node w), o)
    end
}.

#[global] Instance k8sClient : K8sClient World := {
  GetNode _ _ _ w := (w, inl (node w));
  ListPods _ _ _ w :=
    match podLists w with
    | [] => (w, inl [])
    | [res] => (w, res)
    | res :: rest =>
        (mk (refuseDelete w) (createOutcomes w) rest (podDeleteErr w)
           (devices w) (node w), res)
    end;
  DeletePod _ _ _ w := (w, podDeleteErr w);
  UpdateNode _ _ n w :=
    (mk (refuseDelete w) (createOutcomes w) (podLists w) (podDeleteErr w)
       (devices w) n, None)
}.

(** The device plugin pod, before and after its restart. *)
Definition pluginPod : v1.Pod := v1.mkPod "nvidia-device-plugin-abcde" None v1.PodRunning.
Definition newPluginPod : v1.Pod := v1.mkPod "nvidia-device-plugin-fghij" None v1.PodRunning.
Definition pendingPod : v1.Pod := v1.mkPod "nvidia-device-plugin-fghij" None v1.PodPending.

(** A node on which the device plugin restarts at the second poll. *)
Definition healthy (refuse : list string) (creates : list (option Error))
  : World :=
  mk refuse creates [inl [pluginPod]; inl [pendingPod]; inl [newPluginPod]]
    None [] (v1.mkNode "node-1" []).

Definition start (w : World) : St World := mkSt w 0.

Definition profile (name : string) : migtypes.MigProfile :=
  migtypes.mkMigProfile 0 name.

Definition device (id name : string) (s : resource.Status)
  : migtypes.MigDeviceResource :=
  migtypes.mkMigDeviceResource id (profile name) s.

End fake.

(** No run of [c] moves the clock. *)
Definition timeless {W A} (c : M W A) : Prop :=
  ∀ st a st' t, c st = Some (a, st', t) → now st' = now st.

(** The lock and unlock events of a run. *)
Definition lockEvents (t : list Event) : list Event :=
  filter (λ e, e = EvLock ∨ e = EvUnlock) t.

(** ** A scripted world whose reads can fail

    The scripted world above, with a node read and a driver read that
    return an error when the script says so. *)

Module failing.

Record World : Type := mk {
  base : fake.World;
  nodeErr : option Error;
    (* the error of reading the node, if any *)
  driverReadErr : option Error
    (* the error of listing the MIG devices, if any *)
}.

Definition lift {R} (f : fake.World → fake.World * R) (w : World) : World * R :=
  let '(b, r) := f (base w) in (mk b (nodeErr w) (driverReadErr w), r).

#[global] Instance migClient : MigClient World := {
  GetMigDeviceResources ctx t w :=
    match driverReadErr w with
    | Some e => (w, inr e)
    | None => lift (GetMigDeviceResources ctx t) w
    end;
  DeleteMigResource ctx t r := lift (DeleteMigResource ctx t r);
  CreateMigResource ctx t p := lift (CreateMigResource ctx t p)
}.

#[global] Instance k8sClient : K8sClient World := {
  GetNode ctx t name w :=
    match nodeErr w with
    | Some e => (w, inr e)
    | None => lift (GetNode ctx t name) w
    end;
  ListPods ctx t name := lift (ListPods ctx t name);
  DeletePod ctx t p := lift (DeletePod ctx t p);
  UpdateNode ctx t n := lift (UpdateNode ctx t n)
}.

Definition start (w : World) : St World := mkSt w 0.

End failing.

(** Stand-ins for the functions of the packages [annotation] and [plan],
    to run [Reconcile] on the scripted worlds: the annotations of a node are
    taken as they are, status matches spec when [reported] says so, the
    actual state matches when [actual] says so, the plan is [p]. *)
Module standin.

Definition GetGPUAnnotationsFromNode (n : v1.Node)
  : list (string * string) * list (string * string) :=
  (v1.Annotations n, v1.Annotations n).

Definition SpecMatchesStatus (reported : bool)
    (spec status : list (string * string)) : bool := reported.

Definition NewMigState (devices : list migtypes.MigDeviceResource)
  : list migtypes.MigDeviceResource := devices.

Definition Matches (actual : bool) (state : list migtypes.MigDeviceResource)
    (spec : list (string * string)) : bool := actual.

Definition NewMigConfigPlan (p : plan.MigConfigPlan)
    (state : list migtypes.MigDeviceResource) (spec : list (string * string))
  : plan.MigConfigPlan := p.

Definition IsEmpty (p : plan.MigConfigPlan) : bool :=
  match plan.DeleteOperations p, plan.CreateOperations p with
  | [], [] => true
  | _, _ => false
  end.

(** [Reconcile] with the stand-ins. *)
Definition Reconcile {W : Type} `{!MigClient W} `{!K8sClient W}
    (reported actual : bool) (p : plan.MigConfigPlan)
  : nat → Ctx → string → M W (option Error) :=
  migagent.Reconcile "node-1" GetGPUAnnotationsFromNode
    (SpecMatchesStatus reported) NewMigState (Matches actual)
    (NewMigConfigPlan p) IsEmpty.

End standin.

(** ** The NVML client

    The client of [pkg/gpu/mig/nvml] (build tag nvml): [GetGpuIndex],
    [DeleteMigDevice] and [visitComputeInstances].  The NVML library and the
    device library built on it are outside the repository; they are a type
    class over a world of their own, and every call on them is an event. *)

Module nvml.

(** [nvml.Return]: the codes the client tells apart, and all the others. *)
Inductive Return : Type :=
| SUCCESS
| ERROR_NOT_SUPPORTED
| ERROR_INVALID_ARGUMENT
| ERROR_OTHER (code : Z).

#[global] Instance Return_eq_dec : EqDecision Return.
Proof. solve_decision. Defined.

(** Handles of the library; the client only passes them on. *)
Inductive Device : Type := device (handle : Z).
Inductive MigDevice : Type := migDevice (handle : Z).
Inductive GpuInstance : Type := gpuInstance (handle : Z).
Inductive ComputeInstance : Type := computeInstance (handle : Z).
Inductive ComputeInstanceProfileInfo : Type := profileInfo (id : Z).

#[global] Instance Device_eq_dec : EqDecision Device.
Proof. solve_decision. Defined.
#[global] Instance MigDevice_eq_dec : EqDecision MigDevice.
Proof. solve_decision. Defined.
#[global] Instance GpuInstance_eq_dec : EqDecision GpuInstance.
Proof. solve_decision. Defined.
#[global] Instance ComputeInstance_eq_dec : EqDecision ComputeInstance.
Proof. solve_decision. Defined.
#[global] Instance ComputeInstanceProfileInfo_eq_dec :
  EqDecision ComputeInstanceProfileInfo.
Proof. solve_decision. Defined.

(** The errors the client returns. *)
Inductive Error : Type :=
| ErrInit (ret : Return)                 (* unable to initialize NVML *)
| ErrGetUUID (migIndex gpuIndex : Z) (ret : Return)
| ErrLibrary (msg : string)              (* returned by the device library *)
| ErrNotFound (id : string)              (* error getting GPU index ...: not found *)
| ErrGetHandle (id : string) (ret : Return)
| ErrIsMig (id : string) (ret : Return)
| ErrNotMig (id : string)                (* device with UUID ... is not a MIG device *)
| ErrGpuInstanceId (ret : Return)
| ErrReturn (ret : Return)               (* a Return handed back as an error *)
| ErrGetGpuInstance (giId : Z) (ret : Return)
| ErrDestroyingComputeInstances (cause : Error)
| ErrNoComputeInstance (id : string)
| ErrComputeInstanceProfileInfo (j k : Z) (ret : Return)
| ErrComputeInstances (j k : Z) (ret : Return).

#[global] Instance Error_eq_dec : EqDecision Error.
Proof. solve_decision. Defined.

(** What the device library visits: a MIG device with the index of its GPU
    and its own index, or a failure of the enumeration at that point. *)
Inductive VisitItem : Type :=
| Visit (gpuIndex migIndex : Z) (m : MigDevice)
| VisitFailure (msg : string).

(** [nvml.Interface] and [nvlib.Interface], as far as the client calls
    them.  [MigDevices] stands for [VisitMigDevices]: the library hands the
    MIG devices to the visitor in order and stops at the first error, its
    own or the visitor's. *)
Class Interface (W : Type) : Type := {
  Init : W → W * Return;
  Shutdown : W → W * Return;
  MigDevices : W → list VisitItem;
  GetUUID : MigDevice → W → W * (string * Return);
  DeviceGetHandleByUUID : string → W → W * (Device * Return);
  IsMigDeviceHandle : Device → W → W * (bool * Return);
  GetGpuInstanceId : Device → W → W * (Z * Return);
  GetDeviceHandleFromMigDeviceHandle : Device → W → W * (Device * Return);
  GetGpuInstanceById : Device → Z → W → W * (GpuInstance * Return);
  GetComputeInstanceProfileInfo :
    GpuInstance → Z → Z → W → W * (ComputeInstanceProfileInfo * Return);
  GetComputeInstances :
    GpuInstance → ComputeInstanceProfileInfo → W
    → W * (list ComputeInstance * Return);
  Destroy : GpuInstance → W → W * Return
}.

Inductive Event : Type :=
| EvInit (ret : Return)
| EvShutdown (ret : Return)
| EvKlog (msg : string)
| EvGetUUID (m : MigDevice) (res : string * Return)
| EvDeviceGetHandleByUUID (id : string) (res : Device * Return)
| EvIsMigDeviceHandle (d : Device) (res : bool * Return)
| EvGetGpuInstanceId (d : Device) (res : Z * Return)
| EvGetDeviceHandleFromMigDeviceHandle (d : Device) (res : Device * Return)
| EvGetGpuInstanceById (parent : Device) (giId : Z) (res : GpuInstance * Return)
| EvGetComputeInstanceProfileInfo (gi : GpuInstance) (j k : Z)
    (res : ComputeInstanceProfileInfo * Return)
| EvGetComputeInstances (gi : GpuInstance) (info : ComputeInstanceProfileInfo)
    (res : list ComputeInstance * Return)
| EvDestroy (gi : GpuInstance) (ret : Return).

#[global] Instance Event_eq_dec : EqDecision Event.
Proof. solve_decision. Defined.

(** A computation of the client moves the world and emits events; all its
    loops are bounded, it always returns. *)
Definition C (W A : Type) : Type := W → A * W * list Event.

Definition ret {W A} (a : A) : C W A := λ w, (a, w, []).

Definition bind {W A B} (c : C W A) (k : A → C W B) : C W B :=
  λ w, let '(a, w1, t1) := c w in
       let '(b, w2, t2) := k a w1 in
       (b, w2, t1 ++ t2).

Notation "'let+' x ':=' c 'in' k" := (bind c (λ x, k))
  (at level 10, x pattern, c at level 100, k at level 200, only parsing).

Definition call {W R} (f : W → W * R) (ev : R → Event) : C W R :=
  λ w, let '(w1, r) := f w in (r, w1, [ev r]).

Definition klog {W} (msg : string) : C W unit := λ w, (tt, w, [EvKlog msg]).

Definition getWorld {W} : C W W := λ w, (w, w, []).

Section Client.

Context {W : Type} `{!Interface W}.

(** How a [Return] that a function hands back as its [error] reads as an
    error; the declaration of [Return] is outside the repository. *)
Variable asError : Return → option Error.

(** The constants [nvml.COMPUTE_INSTANCE_PROFILE_COUNT] and
    [nvml.COMPUTE_INSTANCE_ENGINE_PROFILE_COUNT]. *)
Variable COMPUTE_INSTANCE_PROFILE_COUNT : nat.
Variable COMPUTE_INSTANCE_ENGINE_PROFILE_COUNT : nat.

Definition init : C W (option Error) :=
  let+ r := call Init EvInit in
  if decide (r ≠ SUCCESS) then ret (Some (ErrInit r)) else ret None.

Definition shutdown : C W unit :=
  let+ r := call Shutdown EvShutdown in
  if decide (r ≠ SUCCESS) then klog "unable to shut down NVML" else ret tt.

(** The visitor of [GetGpuIndex]; [result] and [found] are the variables it
    captures. *)
Definition visitForIndex (migDeviceId : string) (gpuIndex migIndex : Z)
    (m : MigDevice) (result : Z) (found : bool)
  : C W (Z * bool * option Error) :=
  if found then ret (result, found, None)
  else
    let+ (uuid, r) := call (GetUUID m) (EvGetUUID m) in
    if decide (r ≠ SUCCESS)
    then ret (result, found, Some (ErrGetUUID migIndex gpuIndex r))
    else
      let+ _ := klog "visiting MIG device" in
      if decide (uuid = migDeviceId)
      then ret (gpuIndex, true, None)
      else ret (result, found, None).

(** [VisitMigDevices] with that visitor. *)
Fixpoint visitMigDevices (migDeviceId : string) (items : list VisitItem)
    (result : Z) (found : bool) : C W (Z * bool * option Error) :=
  match items with
  | [] => ret (result, found, None)
  | VisitFailure msg :: _ => ret (result, found, Some (ErrLibrary msg))
  | Visit gpuIndex migIndex m :: items =>
      let+ (result, found, err) :=
        visitForIndex migDeviceId gpuIndex migIndex m result found in
      match err with
      | Some e => ret (result, found, Some e)
      | None => visitMigDevices migDeviceId items result found
      end
  end.

(** [GetGpuIndex], between [init] and the deferred [shutdown]. *)
Definition getGpuIndexBody (migDeviceId : string) : C W (Z * option Error) :=
  let+ _ := klog "retrieving GPU index of MIG device" in
  let+ w := getWorld in
  let+ (result, found, err) := visitMigDevices migDeviceId (MigDevices w) 0 false in
  match err with
  | Some e => ret (0, Some e)
  | None =>
      if negb found then ret (0, Some (ErrNotFound migDeviceId))
      else ret (result, None)
  end.

Definition GetGpuIndex (migDeviceId : string) : C W (Z * option Error) :=
  let+ err := init in
  match err with
  | Some e => ret (0, Some e)
  | None =>
      let+ res := getGpuIndexBody migDeviceId in
      let+ _ := shutdown in
      ret res
  end.

(** The innermost loop of [visitComputeInstances], over the compute
    instances of one profile; [s] is what the visitor [f] captures. *)
Fixpoint visitInstances {S : Type}
    (f : ComputeInstance → Z → Z → ComputeInstanceProfileInfo → S
         → C W (S * option Error))
    (cis : list ComputeInstance) (j k : Z) (info : ComputeInstanceProfileInfo)
    (s : S) : C W (S * option Error) :=
  match cis with
  | [] => ret (s, None)
  | ci :: cis =>
      let+ (s, err) := f ci j k info s in
      match err with
      | Some e => ret (s, Some e)
      | None => visitInstances f cis j k info s
      end
  end.

(** The loop over the engine profiles [k]. *)
Fixpoint visitEngineProfiles {S : Type}
    (f : ComputeInstance → Z → Z → ComputeInstanceProfileInfo → S
         → C W (S * option Error))
    (gi : GpuInstance) (j : Z) (ks : list Z) (s : S)
  : C W (S * option Error) :=
  match ks with
  | [] => ret (s, None)
  | k :: ks =>
      let+ (info, r) :=
        call (GetComputeInstanceProfileInfo gi j k)
          (EvGetComputeInstanceProfileInfo gi j k) in
      if decide (r = ERROR_NOT_SUPPORTED) then visitEngineProfiles f gi j ks s
      else if decide (r = ERROR_INVALID_ARGUMENT)
      then visitEngineProfiles f gi j ks s
      else if decide (r ≠ SUCCESS)
      then ret (s, Some (ErrComputeInstanceProfileInfo j k r))
      else
        let+ (cis, r) :=
          call (GetComputeInstances gi info) (EvGetComputeInstances gi info) in
        if decide (r ≠ SUCCESS) then ret (s, Some (ErrComputeInstances j k r))
        else
          let+ (s, err) := visitInstances f cis j k info s in
          match err with
          | Some e => ret (s, Some e)
          | None => visitEngineProfiles f gi j ks s
          end
  end.

(** The loop over the profiles [j]. *)
Fixpoint visitProfiles {S : Type}
    (f : ComputeInstance → Z → Z → ComputeInstanceProfileInfo → S
         → C W (S * option Error))
    (gi : GpuInstance) (js ks : list Z) (s : S) : C W (S * option Error) :=
  match js with
  | [] => ret (s, None)
  | j :: js =>
      let+ (s, err) := visitEngineProfiles f gi j ks s in
      match err with
      | Some e => ret (s, Some e)
      | None => visitProfiles f gi js ks s
      end
  end.

(** The indices [0 .. n-1] of a counting [for] loop. *)
Definition upTo (n : nat) : list Z := Z.of_nat <$> seq 0 n.

Definition visitComputeInstances {S : Type} (gpuInstance : GpuInstance)
    (f : ComputeInstance → Z → Z → ComputeInstanceProfileInfo → S
         → C W (S * option Error))
    (s : S) : C W (S * option Error) :=
  visitProfiles f gpuInstance (upTo COMPUTE_INSTANCE_PROFILE_COUNT)
    (upTo COMPUTE_INSTANCE_ENGINE_PROFILE_COUNT) s.

(** The visitor of [DeleteMigDevice]: it counts the compute instance in
    [numVisitedCi], a [uint8], and destroys the GPU instance [gi]. *)
Definition destroyVisitor (gi : GpuInstance) (ci : ComputeInstance) (j k : Z)
    (info : ComputeInstanceProfileInfo) (numVisitedCi : Z)
  : C W (Z * option Error) :=
  let numVisitedCi := wrap8 (numVisitedCi + 1) in
  let+ _ := klog "deleting compute instance" in
  let+ r := call (Destroy gi) (EvDestroy gi) in
  ret (numVisitedCi, asError r).

(** [DeleteMigDevice], between [init] and the deferred [shutdown]. *)
Definition deleteMigDeviceBody (id : string) : C W (option Error) :=
  let+ (d, r) := call (DeviceGetHandleByUUID id) (EvDeviceGetHandleByUUID id) in
  if decide (r ≠ SUCCESS) then ret (Some (ErrGetHandle id r)) else
  let+ (isMig, r) := call (IsMigDeviceHandle d) (EvIsMigDeviceHandle d) in
  if decide (r ≠ SUCCESS) then ret (Some (ErrIsMig id r)) else
  if negb isMig then ret (Some (ErrNotMig id)) else
  let+ (giId, r) := call (GetGpuInstanceId d) (EvGetGpuInstanceId d) in
  if decide (r ≠ SUCCESS) then ret (Some (ErrGpuInstanceId r)) else
  let+ (parentGpu, r) :=
    call (GetDeviceHandleFromMigDeviceHandle d)
      (EvGetDeviceHandleFromMigDeviceHandle d) in
  if decide (r ≠ SUCCESS) then ret (asError r) else
  let+ (gi, r) :=
    call (GetGpuInstanceById parentGpu giId)
      (EvGetGpuInstanceById parentGpu giId) in
  if decide (r ≠ SUCCESS) then ret (Some (ErrGetGpuInstance giId r)) else
  let+ (numVisitedCi, err) := visitComputeInstances gi (destroyVisitor gi) 0 in
  match err with
  | Some e => ret (Some (ErrDestroyingComputeInstances e))
  | None =>
      if decide (numVisitedCi = 0) then ret (Some (ErrNoComputeInstance id))
      else
        let+ _ := klog "deleting GPU instance" in
        let+ r := call (Destroy gi) (EvDestroy gi) in
        ret (asError r)
  end.

Definition DeleteMigDevice (id : string) : C W (option Error) :=
  let+ err := init in
  match err with
  | Some e => ret (Some e)
  | None =>
      let+ res := deleteMigDeviceBody id in
      let+ _ := shutdown in
      ret res
  end.

End Client.

(** Every event of every run of [c] satisfies [P]. *)
Definition emits {W A} (P : Event → Prop) (c : C W A) : Prop :=
  ∀ w a w' t, c w = (a, w', t) → Forall P t.

(** The destructions of a run, with their outcomes. *)
Definition destroys (t : list Event) : list (GpuInstance * Return) :=
  omap (λ e, match e with EvDestroy gi r => Some (gi, r) | _ => None end) t.

(** The UUID queries of a run, with their answers. *)
Definition uuidQueries (t : list Event) : list (MigDevice * (string * Return)) :=
  omap (λ e, match e with EvGetUUID m res => Some (m, res) | _ => None end) t.

(** A UUID query that answered, with another UUID than [id]. *)
Definition miss (id : string) (q : MigDevice * (string * Return)) : Prop :=
  q.2.2 = SUCCESS ∧ q.2.1 ≠ id.

(** The devices among the visit items. *)
Definition visited (items : list VisitItem) : list (Z * Z * MigDevice) :=
  omap (λ i, match i with
             | Visit g mi m => Some (g, mi, m)
             | VisitFailure _ => None
             end) items.

(** An event that destroys nothing but [gi]. *)
Definition targets (gi : GpuInstance) (e : Event) : Prop :=
  match e with
  | EvDestroy g _ => g = gi
  | _ => True
  end.

(** The profiles [(j, k)] whose info a run asked for, in the order of the
    calls. *)
Definition profileQueries (t : list Event) : list (Z * Z) :=
  omap (λ e, match e with
             | EvGetComputeInstanceProfileInfo _ j k _ => Some (j, k)
             | _ => None
             end) t.

(** Any event but a query of a profile info. *)
Definition notProfileQuery (e : Event) : Prop :=
  match e with
  | EvGetComputeInstanceProfileInfo _ _ _ _ => False
  | _ => True
  end.

(** The pairs [(j, k)] with [j < nProfiles] and [k < nEngineProfiles], [k]
    moving first. *)
Definition allProfiles (nProfiles nEngineProfiles : nat) : list (Z * Z) :=
  flat_map (λ j, (λ k, (j, k)) <$> upTo nEngineProfiles) (upTo nProfiles).

(** Neither [Init] nor [Shutdown], nor the log line of a failed shutdown. *)
Definition bodyEvent (e : Event) : Prop :=
  match e with
  | EvInit _ | EvShutdown _ => False
  | EvKlog msg => msg ≠ "unable to shut down NVML"
  | _ => True
  end.

(** The events that close a call after a successful [Init]. *)
Definition shutdownEvents (r : Return) : list Event :=
  EvShutdown r
  :: (if decide (r ≠ SUCCESS) then [EvKlog "unable to shut down NVML"] else []).

Section Outcomes.

Context {W : Type} `{!Interface W}.
Variable asError : Return → option Error.
Variable nProfiles nEngineProfiles : nat.

(** A [Destroy] whose [Return], handed back as an [error], is [nil]. *)
Definition destroyedOk (x : GpuInstance * Return) : Prop := asError x.2 = None.

(** What a visit with the visitor of [DeleteMigDevice] returns, from the
    destructions [ds] it made: every one but the last read as [nil], and one
    that did not is the last and its error is the error of the visit. *)
Definition destroyOutcome (err : option Error)
    (ds : list (GpuInstance * Return)) : Prop :=
  (err = None → Forall destroyedOk ds)
  ∧ (∀ pre x, ds = pre ++ [x] →
       Forall destroyedOk pre ∧ (¬ destroyedOk x → err = asError x.2)).

(** And the counter moves only when something is destroyed. *)
Definition visitOutcome (n n' : Z) (err : option Error)
    (t : list Event) : Prop :=
  (destroys t = [] → n' = n) ∧ destroyOutcome err (destroys t).

(** A run of the body of [DeleteMigDevice] that got as far as the visit of
    the compute instances. *)
Definition reachedVisit (id : string) (w : W) (res : option Error)
    (w' : W) (t : list Event) : Prop :=
  ∃ d giId parent gi w5 n err w6 tv rest,
    t = [EvDeviceGetHandleByUUID id (d, SUCCESS);
         EvIsMigDeviceHandle d (true, SUCCESS);
         EvGetGpuInstanceId d (giId, SUCCESS);
         EvGetDeviceHandleFromMigDeviceHandle d (parent, SUCCESS);
         EvGetGpuInstanceById parent giId (gi, SUCCESS)]
        ++ tv ++ rest
    ∧ visitComputeInstances nProfiles nEngineProfiles gi
        (destroyVisitor asError gi) 0 w5 = ((n, err), w6, tv)
    ∧ match err with
      | Some e =>
          res = Some (ErrDestroyingComputeInstances e) ∧ rest = []
      | None =>
          if decide (n = 0)
          then res = Some (ErrNoComputeInstance id) ∧ rest = []
          else ∃ r, rest = [EvKlog "deleting GPU instance";
                            EvDestroy gi r]
                    ∧ res = asError r
      end.

End Outcomes.

(** A scripted library: one GPU instance behind one MIG device. *)
Module script.

Record World : Type := mk {
  initRet : Return;
  shutdownRet : Return;
  items : list VisitItem;
  uuids : list (Z * string);
    (* the UUID of each MIG device handle *)
  isMig : bool;
  instances : list (Z * list ComputeInstance);
    (* the compute instances of each profile j (engine profile 0) *)
  destroyRet : Return
}.

Definition uuidOf (w : World) (m : MigDevice) : string * Return :=
  match m with
  | migDevice h =>
      match list_find (λ p, p.1 = h) (uuids w) with
      | Some (_, (_, u)) => (u, SUCCESS)
      | None => (EmptyString, ERROR_OTHER 999)
      end
  end.

#[global] Instance interface : Interface World := {
  Init w := (w, initRet w);
  Shutdown w := (w, shutdownRet w);
  MigDevices w := items w;
  GetUUID m w := (w, uuidOf w m);
  DeviceGetHandleByUUID id w :=
    match list_find (λ p, p.2 = id) (uuids w) with
    | Some (_, (h, _)) => (w, (device h, SUCCESS))
    | None => (w, (device 0, ERROR_OTHER 6))
    end;
  IsMigDeviceHandle d w := (w, (isMig w, SUCCESS));
  GetGpuInstanceId d w := (w, (match d with device h => h end, SUCCESS));
  GetDeviceHandleFromMigDeviceHandle d w := (w, (device 0, SUCCESS));
  GetGpuInstanceById parent giId w := (w, (gpuInstance giId, SUCCESS));
  GetComputeInstanceProfileInfo gi j k w :=
    if decide (k = 0) then
      match list_find (λ p, p.1 = j) (instances w) with
      | Some _ => (w, (profileInfo j, SUCCESS))
      | None => (w, (profileInfo j, ERROR_NOT_SUPPORTED))
      end
    else (w, (profileInfo j, ERROR_INVALID_ARGUMENT));
  GetComputeInstances gi info w :=
    match info with
    | profileInfo j =>
        match list_find (λ p, p.1 = j) (instances w) with
        | Some (_, (_, cis)) => (w, (cis, SUCCESS))
        | None => (w, ([], SUCCESS))
        end
    end;
  Destroy gi w := (w, destroyRet w)
}.

(** Two GPUs with one MIG device each; the second has one compute
    instance. *)
Definition twoGpus : World :=
  mk SUCCESS SUCCESS
    [Visit 0 0 (migDevice 11); Visit 1 0 (migDevice 12)]
    [(11, "MIG-aaa"); (12, "MIG-bbb")]
    true [(0, [computeInstance 1])] SUCCESS.

(** A [Return] handed back as an [error] is that value, an error that is
    not [nil] whatever the code. *)
Definition returnAsError (r : Return) : option Error := Some (ErrReturn r).

(** The reading under which [SUCCESS] handed back as an [error] is [nil]. *)
Definition successIsNil (r : Return) : option Error :=
  if decide (r = SUCCESS) then None else Some (ErrReturn r).

End script.

End nvml.

(** ** The GPU state and the profile catalog

    The package [pkg/gpu/mig] is known through its tests only
    ([TestGPU_ApplyGeometry], [TestProfileName__getMemorySlices],
    [TestProfileName__getGiSlices]); what follows is written from the design
    document and checked against those tests. *)

Module mig.

(** Modelled from the spec: the values of the constants [mig.Profile1g5gb]
    and the like, which the tests name, are missing from the sources; each
    is taken to be the token its identifier spells, as 3g.20gb in the
    design. *)
Definition Profile1g5gb : migtypes.ProfileName := "1g.5gb".
Definition Profile1g6gb : migtypes.ProfileName := "1g.6gb".
Definition Profile1g10gb : migtypes.ProfileName := "1g.10gb".
Definition Profile2g12gb : migtypes.ProfileName := "2g.12gb".
Definition Profile3g20gb : migtypes.ProfileName := "3g.20gb".
Definition Profile4g24gb : migtypes.ProfileName := "4g.24gb".
Definition Profile7g40gb : migtypes.ProfileName := "7g.40gb".

(** *** Slice costs *)

Definition isDigit (c : Ascii.ascii) : bool :=
  let n := Ascii.nat_of_ascii c in (48 <=? n)%nat && (n <=? 57)%nat.

Definition digitValue (c : Ascii.ascii) : Z :=
  Z.of_nat (Ascii.nat_of_ascii c) - 48.

(** The decimal number a string starts with, and what follows it. *)
Fixpoint leadingNumber (s : string) (acc : Z) : Z * string :=
  match s with
  | EmptyString => (acc, s)
  | String c rest =>
      if isDigit c then leadingNumber rest (10 * acc + digitValue c)
      else (acc, s)
  end.


(** What follows the first dot of a string. *)
Fixpoint afterDot (s : string) : string :=
  match s with
  | EmptyString => EmptyString
  | String c rest => if Ascii.eqb c "."%char then rest else afterDot rest
  end.

(** Modelled from the spec: [getGiSlices] is missing from the sources; the
    design calls the slice costs a pure derivation from the profile name,
    which embeds the compute-slice count before the letter g. *)
Definition getGiSlices (p : migtypes.ProfileName) : Z :=
  (leadingNumber p 0).1.

(** Modelled from the spec: [getMemorySlices] is missing from the sources;
    the memory count of a profile name is the number between the dot and
    the letters gb. *)
Definition getMemorySlices (p : migtypes.ProfileName) : Z :=
  (leadingNumber (afterDot p) 0).1.


(** The decimal numeral of [n]. *)
Definition decimal (n : nat) : string :=
  NilEmpty.string_of_uint (Nat.to_uint n).

(** The profile name that embeds the compute-slice count [c] and the memory
    count [m], as the design describes the names: 3g.20gb for 3 and 20. *)
Definition profileName (c m : nat) : migtypes.ProfileName :=
  decimal c +:+ "g." +:+ decimal m +:+ "gb".

(** *** Geometries and the catalog *)

Inductive GPUModel : Type :=
| GPUModel_A30
| GPUModel_A100_SMX4_40GB
| GPUModel_A100_PCIe_80GB
| GPUModel_Unknown (name : string).

#[global] Instance GPUModel_eq_dec : EqDecision GPUModel.
Proof. solve_decision. Defined.

(** A geometry is a multiset of profiles; the Go type is a map from profile
    to count. *)
Abbreviation Geometry := (gmultiset migtypes.ProfileName).

(** [n] copies of each listed profile, as the map literals of the tests. *)
Definition geometryOf (l : list (migtypes.ProfileName * nat)) : Geometry :=
  foldr (λ '(p, n) acc, n *: {[+ p +]} ⊎ acc) ∅ l.

(** The tables of the catalog are not part of the sources; they are a
    parameter. *)
Record Catalog : Type := mkCatalog {
  profilesFor : GPUModel → list migtypes.ProfileName;
  capacity : GPUModel → Z * Z;
  allowedGeometries : GPUModel → list Geometry
}.

Definition totalCost (cost : migtypes.ProfileName → Z) (g : Geometry) : Z :=
  foldr (λ p acc, cost p + acc) 0 (elements g).

(** Modelled from the spec: [geometryIsLegal] is missing from the sources.
    It checks that every profile is legal for the model, that the slice
    totals stay within the capacity of the model and that the multiset is in
    the allowed-geometries table of the model. *)
Definition geometryIsLegal (c : Catalog) (model : GPUModel) (g : Geometry)
  : bool :=
  forallb (λ p, bool_decide (p ∈ profilesFor c model)) (elements g)
  && (totalCost getGiSlices g <=? (capacity c model).1)
  && (totalCost getMemorySlices g <=? (capacity c model).2)
  && bool_decide (g ∈ allowedGeometries c model).

(** *** One GPU *)

Record GPU : Type := mkGPU {
  model : GPUModel;
  index : Z;
  usedMigDevices : Geometry;
  freeMigDevices : Geometry
}.

#[global] Instance GPU_eq_dec : EqDecision GPU.
Proof. solve_decision. Defined.

(** Modelled from the spec: [GetGeometry] is missing from the sources; the
    geometry of a GPU is its free partitions together with its used ones. *)
Definition GetGeometry (g : GPU) : Geometry :=
  freeMigDevices g ⊎ usedMigDevices g.

Inductive GeometryError : Type :=
| WouldEvictUsed
| IllegalGeometry.

#[global] Instance GeometryError_eq_dec : EqDecision GeometryError.
Proof. solve_decision. Defined.

(** Modelled from the spec: the failures of [ApplyGeometry], which is
    missing from the sources.  The design gives the operation two ways to
    fail, [WouldEvictUsed] when a used profile is not in [target] with its
    multiplicity and [IllegalGeometry] when the catalog rejects [target]; it
    does not say which of the two is reported when both apply, so every
    failure that applies is listed and no order of the checks is chosen. *)
Definition failures (c : Catalog) (g : GPU) (target : Geometry)
  : list GeometryError :=
  (if decide (usedMigDevices g ⊆ target) then [] else [WouldEvictUsed])
  ++ (if geometryIsLegal c (model g) target then [] else [IllegalGeometry]).

(** Modelled from the spec: [ApplyGeometry] is missing from the sources.
    When no failure applies it replaces the free partitions so that the
    geometry becomes [target], and returns the GPU after the call.  When
    one applies it fails with the failures that apply; the design does not
    say what a failed call leaves of the GPU, and a failed call returns
    none. *)
Definition ApplyGeometry (c : Catalog) (g : GPU) (target : Geometry)
  : GPU + list GeometryError :=
  match failures c g target with
  | [] =>
      inl (mkGPU (model g) (index g) (usedMigDevices g)
             (target ∖ usedMigDevices g))
  | fs => inr fs
  end.


(** A catalog with the geometries the tests rely on. *)
Definition testCatalog : Catalog :=
  mkCatalog
    (λ m, match m with
          | GPUModel_A30 => [Profile1g6gb; Profile2g12gb; Profile4g24gb]
          | GPUModel_A100_SMX4_40GB =>
              [Profile1g5gb; Profile1g10gb; Profile3g20gb; Profile7g40gb]
          | _ => []
          end)
    (λ m, match m with
          | GPUModel_A30 => (4, 24)
          | GPUModel_A100_SMX4_40GB => (7, 40)
          | _ => (0, 0)
          end)
    (λ m, match m with
          | GPUModel_A30 =>
              [geometryOf []; geometryOf [(Profile1g6gb, 4%nat)];
               geometryOf [(Profile1g6gb, 2%nat); (Profile2g12gb, 1%nat)];
               geometryOf [(Profile4g24gb, 1%nat)]]
          | GPUModel_A100_SMX4_40GB =>
              [geometryOf []; geometryOf [(Profile7g40gb, 1%nat)]]
          | _ => []
          end).

(** [NewGPU] of the tests, on maps that are legal. *)
Definition newGpu (m : GPUModel) (i : Z)
    (used free : list (migtypes.ProfileName * nat)) : GPU :=
  mkGPU m i (geometryOf used) (geometryOf free).

End mig.

(** ** The ModelDeployment resource *)
Module v1alpha1.

(** [ModelLibrary]: the cloud storage used as model library. *)
Record ModelLibrary : Type := mkModelLibrary {
  Uri : string;
  Kind : string;
  SecretName : string
}.

(** The fields of [ModelDeployment] that [GetModelLibraryPath] reads: the
    namespace and the name of its metadata, and the model library of its
    spec (the field [Spec.ModelLibrary]). *)
Record ModelDeployment : Type := mkModelDeployment {
  Namespace : string;
  Name : string;
  SpecModelLibrary : ModelLibrary
}.

(** [fmt.Sprintf("%s/%s/%s", m.Spec.ModelLibrary.Uri, m.Namespace, m.Name)] *)
Definition GetModelLibraryPath (m : ModelDeployment) : string :=
  Uri (SpecModelLibrary m) +:+ "/" +:+ Namespace m +:+ "/" +:+ Name m.

(** A string without a slash, as the names and namespaces of Kubernetes
    objects are. *)
Fixpoint slashFree (s : string) : bool :=
  match s with
  | EmptyString => true
  | String c s => negb (Ascii.eqb c "/") && slashFree s
  end.

End v1alpha1.

(** * Properties *)

(** ** General facts on the monad *)

Section MonadFacts.

Context {W : Type}.

Lemma bind_Some {A B} (c : M W A) (k : A → M W B) st b st2 t :
  bind c k st = Some (b, st2, t) ↔
  ∃ a st1 t1 t2,
    c st = Some (a, st1, t1) ∧ k a st1 = Some (b, st2, t2) ∧ t = t1 ++ t2.
Proof.
  unfold bind. split.
  - destruct (c st) as [[[a st1] t1]|]; [|done].
    destruct (k a st1) as [[[b' st2'] t2]|] eqn:Hk; [|done].
    intros [= -> -> <-]. by exists a, st1, t1, t2.
  - intros (a & st1 & t1 & t2 & -> & -> & ->). done.
Qed.

Lemma bind_run {A B} (c : M W A) (k : A → M W B) st a st1 t1 :
  c st = Some (a, st1, t1) →
  bind c k st =
    match k a st1 with
    | None => None
    | Some (b, st2, t2) => Some (b, st2, t1 ++ t2)
    end.
Proof. unfold bind. by intros ->. Qed.

Lemma after_nil {B} (r : option (B * St W * list Event)) : after [] r = r.
Proof. by destruct r as [[[b st2] t2]|]. Qed.

Lemma after_Some {B} t1 (b : B) (st2 : St W) t2 :
  after t1 (Some (b, st2, t2)) = Some (b, st2, t1 ++ t2).
Proof. done. Qed.

Lemma after_after {B} t1 t2 (r : option (B * St W * list Event)) :
  after t1 (after t2 r) = after (t1 ++ t2) r.
Proof. destruct r as [[[b st2] t]|]; [|done]. cbn. by rewrite app_assoc. Qed.

Lemma bind_ret {A B} (a : A) (k : A → M W B) st : bind (ret a) k st = k a st.
Proof. unfold bind, ret. by destruct (k a st) as [[[b st2] t2]|]. Qed.

Lemma bind_emit {B} e (k : unit → M W B) st :
  bind (emit e) k st = after [e] (k tt st).
Proof. done. Qed.

Lemma bind_log {B} msg (k : unit → M W B) st :
  bind (log msg) k st = after [EvLog msg] (k tt st).
Proof. done. Qed.

Lemma bind_sleep {B} d (k : unit → M W B) st :
  bind (sleep d) k st = after [EvSleep d] (k tt (mkSt (world st) (now st + d))).
Proof. done. Qed.

Lemma bind_getNow {B} (k : Z → M W B) st :
  bind getNow k st = k (now st) st.
Proof. unfold bind, getNow. by destruct (k (now st) st) as [[[b st2] t2]|]. Qed.

Lemma bind_call {R B} (f : Z → W → W * R) ev (k : R → M W B) st :
  bind (call f ev) k st =
    after [ev (f (now st) (world st)).2]
      (k (f (now st) (world st)).2 (mkSt (f (now st) (world st)).1 (now st))).
Proof. unfold bind, call. by destruct (f (now st) (world st)) as [w r]. Qed.

Lemma bind_bind {A B C} (c : M W A) (k : A → M W B) (k' : B → M W C) st :
  bind (bind c k) k' st = bind c (λ a, bind (k a) k') st.
Proof.
  unfold bind. destruct (c st) as [[[a st1] t1]|]; [|done].
  destruct (k a st1) as [[[b st2] t2]|]; [|done].
  destruct (k' b st2) as [[[c' st3] t3]|]; [|done].
  by rewrite app_assoc.
Qed.

End MonadFacts.

Lemma after_Some_inv {W B} t1 (r : option (B * St W * list Event)) b st2 t :
  after t1 r = Some (b, st2, t) →
  ∃ t2, r = Some (b, st2, t2) ∧ t = t1 ++ t2.
Proof.
  destruct r as [[[b' st'] t2]|]; [|done]. cbn. intros [= -> -> <-]. by eexists.
Qed.

(** One step of a run: expose the first action under a [bind]. *)
Ltac step :=
  first
    [ rewrite bind_bind
    | rewrite bind_ret
    | rewrite bind_log
    | rewrite bind_emit
    | rewrite bind_sleep
    | rewrite bind_getNow
    | rewrite bind_call ].

Lemma createCalls_app t1 t2 :
  createCalls (t1 ++ t2) = createCalls t1 ++ createCalls t2.
Proof. apply omap_app. Qed.

Lemma deleteCalls_app t1 t2 :
  deleteCalls (t1 ++ t2) = deleteCalls t1 ++ deleteCalls t2.
Proof. apply omap_app. Qed.

Lemma succeeded_app {A} (c1 c2 : list (A * option Error)) :
  succeeded (c1 ++ c2) = succeeded c1 ++ succeeded c2.
Proof. apply omap_app. Qed.

Lemma restarts_app t1 t2 : restarts (t1 ++ t2) = (restarts t1 + restarts t2)%nat.
Proof. unfold restarts. by rewrite list.filter_app, length_app. Qed.

Lemma createCalls_cons e t :
  createCalls (e :: t) =
    match e with
    | EvCreateMigResource p err => (p, err) :: createCalls t
    | _ => createCalls t
    end.
Proof. by destruct e. Qed.

Lemma deleteCalls_cons e t :
  deleteCalls (e :: t) =
    match e with
    | EvDeleteMigResource r err => (r, err) :: deleteCalls t
    | _ => deleteCalls t
    end.
Proof. by destruct e. Qed.

Lemma succeeded_cons {A} (a : A) err calls :
  succeeded ((a, err) :: calls) =
    match err with
    | None => a :: succeeded calls
    | Some _ => succeeded calls
    end.
Proof. by destruct err. Qed.

Lemma restarts_cons e t :
  restarts (e :: t) =
    if decide (e = EvLog "restarting nvidia device plugin")
    then S (restarts t) else restarts t.
Proof. unfold restarts. rewrite filter_cons. by case_decide. Qed.

Lemma createCalls_nil : createCalls [] = [].
Proof. done. Qed.

Lemma deleteCalls_nil : deleteCalls [] = [].
Proof. done. Qed.

Lemma succeeded_nil {A} : succeeded (A := A) [] = [].
Proof. done. Qed.

Lemma restarts_nil : restarts [] = 0%nat.
Proof. done. Qed.

#[global] Arguments createCalls : simpl never.
#[global] Arguments deleteCalls : simpl never.
#[global] Arguments succeeded : simpl never.
#[global] Arguments restarts : simpl never.

(** Normalise the readers on an event list that starts with known events. *)
Ltac readers :=
  cbn [app];
  repeat first
    [ rewrite createCalls_app | rewrite deleteCalls_app
    | rewrite succeeded_app | rewrite restarts_app
    | rewrite createCalls_cons | rewrite deleteCalls_cons
    | rewrite succeeded_cons | rewrite restarts_cons
    | rewrite createCalls_nil | rewrite deleteCalls_nil
    | rewrite succeeded_nil | rewrite restarts_nil ];
  cbn [app length fst snd].

(** ** applyCreateOp *)

Section CreateFacts.

Context {W : Type} `{!MigClient W} `{!K8sClient W}.

Lemma createLoop_spec fuel ctx p i n q st :
  0 <= i <= q → q < 256 → 0 <= n <= i → (Z.to_nat (q - i) ≤ fuel)%nat →
  ∃ n' st' t,
    migagent.createLoop fuel ctx p i n q st = Some (n', st', t)
    ∧ n' = n + Z.of_nat (length (succeeded (createCalls t)))
    ∧ length (createCalls t) = Z.to_nat (q - i)
    ∧ (∀ c, c ∈ createCalls t → c.1 = p)
    ∧ deleteCalls t = [] ∧ restarts t = 0%nat ∧ now st' = now st.
Proof.
  revert i n st. induction fuel as [|fuel IH]; intros i n st Hi Hq Hn Hfuel.
  - assert (i = q) as -> by lia.
    exists n, st, []. cbn. rewrite Z.ltb_irrefl. cbn.
    rewrite Z.sub_diag, Z.add_0_r. repeat split; try done.
    intros c Hc. by apply elem_of_nil in Hc.
  - cbn [migagent.createLoop]. destruct (i <? q) eqn:Hlt.
    2:{ apply Z.ltb_ge in Hlt. assert (i = q) as -> by lia.
        exists n, st, []. cbn. rewrite Z.sub_diag, Z.add_0_r.
        repeat split; try done. intros c Hc. by apply elem_of_nil in Hc. }
    apply Z.ltb_lt in Hlt.
    assert (wrap8 (i + 1) = i + 1) as Hwi
      by (unfold wrap8; apply Z.mod_small; lia).
    assert (wrap8 (n + 1) = n + 1) as Hwn
      by (unfold wrap8; apply Z.mod_small; lia).
    rewrite Hwi, Hwn.
    unfold migagent.createMigResource. step.
    destruct (CreateMigResource ctx (now st) p (world st)) as [w' [e|]]; cbn [fst snd].
    + destruct (IH (i + 1) n (mkSt w' (now st)))
        as (n' & st' & t & Hrun & Hn' & Hlen & Hp & Hd & Hr & Hnow);
        [lia | lia | lia | lia |].
      step. rewrite Hrun, !after_Some.
      eexists _, st', _. split; [reflexivity|].
      split; [|split; [|split; [|split; [|split]]]].
      * readers. exact Hn'.
      * readers. rewrite Hlen. lia.
      * readers. intros c [->|Hc]%elem_of_cons; [done|by apply Hp].
      * readers. exact Hd.
      * readers. exact Hr.
      * exact Hnow.
    + destruct (IH (i + 1) (n + 1) (mkSt w' (now st)))
        as (n' & st' & t & Hrun & Hn' & Hlen & Hp & Hd & Hr & Hnow);
        [lia | lia | lia | lia |].
      step. rewrite Hrun, !after_Some.
      eexists _, st', _. split; [reflexivity|].
      split; [|split; [|split; [|split; [|split]]]].
      * readers. rewrite Hn'. lia.
      * readers. rewrite Hlen. lia.
      * readers. intros c [->|Hc]%elem_of_cons; [done|by apply Hp].
      * readers. exact Hd.
      * readers. exact Hr.
      * exact Hnow.
Qed.

End CreateFacts.

(** ** Which events a computation can emit *)

Section Emits.

Context {W : Type}.

Variable P : Event → Prop.

Lemma emits_ret {A} (a : A) : emits P (ret (W := W) a).
Proof. intros st a' st' t [= <- <- <-]. constructor. Qed.

Lemma emits_bind {A B} (c : M W A) (k : A → M W B) :
  emits P c → (∀ a, emits P (k a)) → emits P (bind c k).
Proof.
  intros Hc Hk st b st' t (a & st1 & t1 & t2 & H1 & H2 & ->)%bind_Some.
  apply Forall_app; split; [by eapply Hc | by eapply Hk].
Qed.

Lemma emits_emit e : P e → emits P (emit (W := W) e).
Proof. intros He st a st' t [= <- <- <-]. by repeat constructor. Qed.

Lemma emits_log msg : P (EvLog msg) → emits P (log (W := W) msg).
Proof. apply emits_emit. Qed.

Lemma emits_sleep d : P (EvSleep d) → emits P (sleep (W := W) d).
Proof. intros He st a st' t [= <- <- <-]. by repeat constructor. Qed.

Lemma emits_getNow : emits P (getNow (W := W)).
Proof. intros st a st' t [= <- <- <-]. constructor. Qed.

Lemma emits_diverge {A} : emits P (diverge (W := W) (A := A)).
Proof. intros st a st' t [=]. Qed.

Lemma emits_call {R} (f : Z → W → W * R) ev :
  (∀ r, P (ev r)) → emits P (call f ev).
Proof.
  intros He st a st' t. unfold call.
  destruct (f (now st) (world st)) as [w r]. intros [= <- <- <-].
  by repeat constructor.
Qed.

Lemma total_ret {A} (a : A) : total (ret (W := W) a).
Proof. intros st. by eexists. Qed.

Lemma total_bind {A B} (c : M W A) (k : A → M W B) :
  total c → (∀ a, total (k a)) → total (bind c k).
Proof.
  intros Hc Hk st. unfold bind.
  destruct (Hc st) as [[[a st1] t1] ->].
  destruct (Hk a st1) as [[[b st2] t2] ->]. by eexists.
Qed.

Lemma total_emit e : total (emit (W := W) e).
Proof. intros st. by eexists. Qed.

Lemma total_log msg : total (log (W := W) msg).
Proof. apply total_emit. Qed.

Lemma total_call {R} (f : Z → W → W * R) ev : total (call f ev).
Proof.
  intros st. unfold call. destruct (f (now st) (world st)). by eexists.
Qed.

End Emits.

(** Walk through a computation built from [bind], [if] and [match], and
    leave what is not one of those. *)
Ltac walk_emits_with leaf :=
  repeat first
    [ leaf
    | progress cbn zeta
    | apply emits_bind; [|intros ?]
    | apply emits_ret
    | apply emits_getNow
    | apply emits_diverge
    | apply emits_log; by cbn
    | apply emits_emit; by cbn
    | apply emits_sleep; by cbn
    | apply emits_call; intros ?; by cbn
    | assumption
    | match goal with
      | |- emits _ (if ?b then _ else _) => destruct b
      | |- emits _ (match ?x with _ => _ end) => destruct x
      end ].

Ltac walk_emits := walk_emits_with fail.

Ltac walk_total_with leaf :=
  repeat first
    [ leaf
    | progress cbn zeta
    | apply total_bind; [|intros ?]
    | apply total_ret
    | apply total_log
    | apply total_emit
    | apply total_call
    | assumption
    | match goal with
      | |- total (if ?b then _ else _) => destruct b
      | |- total (match ?x with _ => _ end) => destruct x
      end ].

Ltac walk_total := walk_total_with fail.

(** ** applyDeleteOp *)

Section DeleteFacts.

Context {W : Type} `{!MigClient W} `{!K8sClient W}.

Lemma candidateResources_spec rs acc (st : St W) :
  ∃ t, migagent.candidateResources rs acc st
       = Some (acc ++ filter (λ r, migtypes.Status r = resource.StatusFree) rs, st, t)
       ∧ Forall isLog t ∧ Forall deleteOpEvent t.
Proof.
  revert acc. induction rs as [|r rs IH]; intros acc.
  - exists []. cbn. by rewrite app_nil_r.
  - cbn [migagent.candidateResources]. rewrite filter_cons.
    destruct (decide (migtypes.Status r = resource.StatusFree)) as [Hfree|Hfree].
    + destruct (IH (acc ++ [r])) as (t & Hrun & Ht & Ht').
      do 3 step. rewrite decide_False by (intros Hne; by apply Hne). step.
      rewrite Hrun, after_Some, <- app_assoc. eexists; split; [reflexivity|].
      split; by constructor.
    + destruct (IH acc) as (t & Hrun & Ht & Ht').
      step. rewrite decide_True by done. step.
      rewrite Hrun, after_Some. eexists; split; [reflexivity|].
      split; by constructor.
Qed.

Lemma deleteCandidates_spec ctx cands n q (st : St W) :
  0 <= n <= 254 → q < 256 →
  ∃ n' st' t,
    migagent.deleteCandidates ctx cands n q st = Some (n', st', t)
    ∧ (deleteCalls t).*1 `prefix_of` cands
    ∧ n' = n + Z.of_nat (length (succeeded (deleteCalls t)))
    ∧ n' <= Z.max q (n + 1)
    ∧ Forall deleteOpEvent t
    ∧ now st' = now st.
Proof.
  revert n st. induction cands as [|r cands IH]; intros n st Hn Hq.
  - exists n, st, []. split; [done|]. readers.
    repeat split; try done; try lia.
  - cbn [migagent.deleteCandidates]. unfold migagent.deleteMigResource. step.
    destruct (DeleteMigResource ctx (now st) r (world st)) as [w' [e|]];
      cbn [fst snd].
    + destruct (IH n (mkSt w' (now st)))
        as (n' & st' & t & Hrun & Hpre & Hn' & Hle & Hev & Hnow); [done..|].
      step. rewrite Hrun, !after_Some.
      eexists _, st', _. split; [reflexivity|]. readers.
      repeat split; try done.
      * rewrite fmap_cons. by apply prefix_cons.
      * by repeat constructor.
    + step.
      assert (wrap8 (n + 1) = n + 1) as ->
        by (unfold wrap8; apply Z.mod_small; lia).
      destruct (q <=? n + 1) eqn:Hbreak.
      * apply Z.leb_le in Hbreak. cbn.
        eexists _, _, _. split; [reflexivity|]. readers.
        repeat split; try done; try lia.
        -- rewrite fmap_cons. apply prefix_cons, prefix_nil.
        -- by repeat constructor.
      * apply Z.leb_gt in Hbreak.
        destruct (IH (n + 1) (mkSt w' (now st)))
          as (n' & st' & t & Hrun & Hpre & Hn' & Hle & Hev & Hnow); [lia|done|].
        rewrite Hrun, !after_Some.
        eexists _, st', _. split; [reflexivity|]. readers.
        repeat split; try done; try lia.
        -- rewrite fmap_cons. by apply prefix_cons.
        -- by repeat constructor.
Qed.

(** What [applyDeleteOp] does on any operation: it returns, the driver is
    asked to delete free resources of the operation only, and what it
    returns follows from the number of deletions that succeeded. *)
Lemma applyDeleteOp_spec ctx op (st : St W) :
  is_uint8 (plan.DeleteOperation.Quantity op) →
  ∃ atLeastOneDelete err st' t,
    migagent.applyDeleteOp ctx op st = Some ((atLeastOneDelete, err), st', t)
    ∧ let q := plan.DeleteOperation.Quantity op in
      let n := Z.of_nat (length (succeeded (deleteCalls t))) in
      (∀ c, c ∈ deleteCalls t →
            c.1 ∈ plan.DeleteOperation.Resources op
            ∧ migtypes.Status c.1 = resource.StatusFree)
      ∧ n <= Z.max q 1
      ∧ atLeastOneDelete = (0 <? n)
      ∧ err = (if n <? q then Some (ErrCouldDeleteOnly n q) else None)
      ∧ Forall deleteOpEvent t
      ∧ now st' = now st.
Proof.
  intros Hq. unfold migagent.applyDeleteOp. step.
  destruct (candidateResources_spec (plan.DeleteOperation.Resources op) [] st)
    as (t1 & Hrun1 & Hlog1 & Hev1).
  rewrite (bind_run _ _ _ _ _ _ Hrun1). cbn [app].
  destruct (deleteCandidates_spec ctx
              (filter (λ r, migtypes.Status r = resource.StatusFree)
                 (plan.DeleteOperation.Resources op))
              0 (plan.DeleteOperation.Quantity op) st)
    as (n' & st' & t2 & Hrun2 & Hpre & Hn' & Hle & Hev & Hnow);
    [lia | unfold is_uint8 in Hq; lia |].
  rewrite (bind_run _ _ _ _ _ _ Hrun2).
  assert (deleteCalls t1 = []) as Hd1.
  { clear -Hlog1. induction Hlog1 as [|e t He Ht IH]; [done|].
    rewrite deleteCalls_cons. by destruct e. }
  assert (n' = Z.of_nat (length (succeeded (deleteCalls t2)))) as Hn'' by lia.
  exists (0 <? n'),
    (if n' <? plan.DeleteOperation.Quantity op
     then Some (ErrCouldDeleteOnly n' (plan.DeleteOperation.Quantity op))
     else None), st', (EvLog "applying delete operation for MigProfile" :: t1 ++ t2).
  split.
  { destruct (n' <? plan.DeleteOperation.Quantity op); cbn;
      by rewrite app_nil_r. }
  cbn zeta. readers. rewrite Hd1. readers. rewrite <- Hn''.
  assert (∀ c, c ∈ deleteCalls t2 →
            c.1 ∈ filter (λ r, migtypes.Status r = resource.StatusFree)
                    (plan.DeleteOperation.Resources op)) as Hin.
  { intros c Hc. destruct Hpre as [rest ->]. apply elem_of_app. left.
    by apply list_elem_of_fmap_2. }
  split; [|split; [|split; [|split; [|split]]]]; try done; try lia.
  - intros c Hc. apply Hin, list_elem_of_filter in Hc as [? ?]. done.
  - constructor; [done|]. by apply Forall_app.
Qed.

End DeleteFacts.

(** ** The create operation *)

Section CreateOp.

Context {W : Type} `{!MigClient W} `{!K8sClient W}.

(** What [applyCreateOp] does on any operation with enough fuel. *)
Lemma applyCreateOp_spec fuel ctx op (st : St W) :
  is_uint8 (plan.CreateOperation.Quantity op) →
  (Z.to_nat (plan.CreateOperation.Quantity op) ≤ fuel)%nat →
  ∃ atLeastOneCreate err st' t,
    migagent.applyCreateOp fuel ctx op st = Some ((atLeastOneCreate, err), st', t)
    ∧ let q := plan.CreateOperation.Quantity op in
      let n := Z.of_nat (length (succeeded (createCalls t))) in
      Z.of_nat (length (createCalls t)) = q
      ∧ (∀ c, c ∈ createCalls t → c.1 = plan.CreateOperation.MigProfile op)
      ∧ (∀ k c, createCalls t !! k = Some c → is_Some c.2 →
                Z.of_nat (S k) < q → is_Some (createCalls t !! S k))
      ∧ err = (if n <? q then Some (ErrCouldCreateOnly n q) else None)
      ∧ (is_Some err ↔ n < q)
      ∧ atLeastOneCreate = (0 <? n).
Proof.
  intros Hq Hfuel. unfold migagent.applyCreateOp. step.
  destruct (createLoop_spec fuel ctx (plan.CreateOperation.MigProfile op) 0 0
              (plan.CreateOperation.Quantity op) st)
    as (n' & st' & t & Hrun & Hn' & Hlen & Hp & Hd & Hr & Hnow);
    [unfold is_uint8 in Hq; lia.. | by rewrite Z.sub_0_r |].
  rewrite (bind_run _ _ _ _ _ _ Hrun).
  assert (n' = Z.of_nat (length (succeeded (createCalls t)))) as Hn'' by lia.
  exists (0 <? n'),
    (if n' <? plan.CreateOperation.Quantity op
     then Some (ErrCouldCreateOnly n' (plan.CreateOperation.Quantity op))
     else None), st', (EvLog "applying create operation for MigProfile" :: t).
  split.
  { destruct (n' <? plan.CreateOperation.Quantity op); cbn;
      by rewrite app_nil_r. }
  cbn zeta. readers. rewrite <- Hn''.
  split; [|split; [|split; [|split; [|split]]]]; try done.
  - rewrite Hlen. unfold is_uint8 in Hq. lia.
  - intros k c _ _ Hk. apply lookup_lt_is_Some. lia.
  - destruct (n' <? plan.CreateOperation.Quantity op) eqn:Hlt.
    + apply Z.ltb_lt in Hlt. split; [done|by eexists].
    + apply Z.ltb_ge in Hlt. split; [by intros [? [=]]|lia].
Qed.

Lemma createLoop_answers fuel ctx p i n q (st : St W) n' st' t :
  0 <= i <= q → q < 256 →
  migagent.createLoop fuel ctx p i n q st = Some (n', st', t) →
  let answers := createAnswers ctx (now st) p (Z.to_nat (q - i)) (world st) in
  createCalls t = (λ e, (p, e)) <$> answers.1
  ∧ st' = mkSt answers.2 (now st).
Proof.
  cbn zeta. revert i n st t.
  assert (∀ i n (st : St W) t,
            0 <= i <= q → (i <? q) = false →
            (Some (n, st, []) : option (Z * St W * list Event))
              = Some (n', st', t) →
            createCalls t
            = (λ e, (p, e))
                <$> (createAnswers ctx (now st) p (Z.to_nat (q - i)) (world st)).1
            ∧ st' = mkSt (createAnswers ctx (now st) p (Z.to_nat (q - i))
                            (world st)).2 (now st)) as Hdone.
  { intros i n st t Hi Hlt [= <- <- <-]. apply Z.ltb_ge in Hlt.
    replace (q - i) with 0 by lia. by destruct st. }
  induction fuel as [|fuel IH]; intros i n st t Hi Hq Hrun;
    cbn [migagent.createLoop] in Hrun; destruct (i <? q) eqn:Hlt;
    [done|by eapply Hdone| |by eapply Hdone].
  apply Z.ltb_lt in Hlt.
  assert (wrap8 (i + 1) = i + 1) as Hwi
    by (unfold wrap8; apply Z.mod_small; lia).
  rewrite Hwi in Hrun. unfold migagent.createMigResource in Hrun.
  rewrite bind_call in Hrun. apply after_Some_inv in Hrun as (t2 & Hrun & ->).
  replace (Z.to_nat (q - i)) with (S (Z.to_nat (q - (i + 1)))) by lia.
  cbn [createAnswers].
  destruct (CreateMigResource ctx (now st) p (world st)) as [w1 e].
  cbn [fst snd] in Hrun.
  assert (∃ m t3, migagent.createLoop fuel ctx p (i + 1) m q (mkSt w1 (now st))
                  = Some (n', st', t3)
                  ∧ createCalls t2 = createCalls t3) as (m & t3 & Hloop & Ht3).
  { destruct e as [e|]; rewrite bind_log in Hrun;
      apply after_Some_inv in Hrun as (t3 & Hrun & ->); by eexists _, t3. }
  apply IH in Hloop as [Hcalls ->]; [|lia|lia]. cbn [world now] in *.
  destruct (createAnswers ctx (now st) p (Z.to_nat (q - (i + 1))) w1)
    as [es w2].
  cbn [fst snd] in *. readers. by rewrite Ht3, Hcalls.
Qed.

Lemma applyCreateOp_answers fuel ctx op (st : St W) res st' t :
  is_uint8 (plan.CreateOperation.Quantity op) →
  migagent.applyCreateOp fuel ctx op st = Some (res, st', t) →
  let p := plan.CreateOperation.MigProfile op in
  let answers :=
    createAnswers ctx (now st) p
      (Z.to_nat (plan.CreateOperation.Quantity op)) (world st) in
  createCalls t = (λ e, (p, e)) <$> answers.1
  ∧ st' = mkSt answers.2 (now st).
Proof.
  intros Hq Hrun. cbn zeta. unfold migagent.applyCreateOp in Hrun.
  rewrite bind_log in Hrun. apply after_Some_inv in Hrun as (t1 & Hrun & ->).
  apply bind_Some in Hrun as (n' & st1 & t2 & t3 & Hloop & Hret & ->).
  apply createLoop_answers in Hloop as [Hcalls ->];
    [|unfold is_uint8 in Hq; lia..].
  rewrite Z.sub_0_r in Hcalls, Hret.
  destruct (n' <? plan.CreateOperation.Quantity op);
    injection Hret as <- <- <-; readers; by rewrite app_nil_r.
Qed.

(** C9.  A create operation of quantity [q] calls the driver's create
    exactly [q] times, each time for the profile of the operation and each
    call on the world the call before left: the create calls of the run are
    the answers of the driver to [q] calls in a row, and the run ends in the
    world after the last of them; a call that fails is followed by the next
    one all the same; the operation returns the error "could create only n
    out of q" exactly when the number [n] of calls that succeeded is below
    [q], and no error otherwise. *)
Theorem applyCreateOp_attempts_every_unit fuel ctx op (st : St W) :
  is_uint8 (plan.CreateOperation.Quantity op) →
  (Z.to_nat (plan.CreateOperation.Quantity op) ≤ fuel)%nat →
  ∃ atLeastOneCreate err st' t,
    migagent.applyCreateOp fuel ctx op st = Some ((atLeastOneCreate, err), st', t)
    ∧ let q := plan.CreateOperation.Quantity op in
      let p := plan.CreateOperation.MigProfile op in
      let answers := createAnswers ctx (now st) p (Z.to_nat q) (world st) in
      let n := Z.of_nat (length (succeeded (createCalls t))) in
      createCalls t = (λ e, (p, e)) <$> answers.1
      ∧ st' = mkSt answers.2 (now st)
      ∧ Z.of_nat (length (createCalls t)) = q
      ∧ (∀ c, c ∈ createCalls t → c.1 = p)
      ∧ (∀ k c, createCalls t !! k = Some c → is_Some c.2 →
                Z.of_nat (S k) < q → is_Some (createCalls t !! S k))
      ∧ err = (if n <? q then Some (ErrCouldCreateOnly n q) else None)
      ∧ (is_Some err ↔ n < q)
      ∧ atLeastOneCreate = (0 <? n).
Proof.
  intros Hq Hfuel.
  destruct (applyCreateOp_spec fuel ctx op st Hq Hfuel)
    as (b & err & st' & t & Hrun & Hspec).
  destruct (applyCreateOp_answers _ _ _ _ _ _ _ Hq Hrun) as [Hcalls Hst].
  exists b, err, st', t. split; [exact Hrun|]. cbn zeta in *.
  split; [exact Hcalls|]. split; [exact Hst|]. exact Hspec.
Qed.

End CreateOp.

(** A create operation for three units whose second unit the driver
    refuses. *)
Lemma applyCreateOp_attempts_every_unit_witness :
  let op := plan.CreateOperation.mk (fake.profile "1g.5gb") 3 in
  let st := fake.start (fake.healthy [] [None; Some fake.driverError; None]) in
  ∃ atLeastOneCreate err st' t,
    migagent.applyCreateOp 3 None op st = Some ((atLeastOneCreate, err), st', t)
    ∧ let q := plan.CreateOperation.Quantity op in
      let p := plan.CreateOperation.MigProfile op in
      let answers := createAnswers None (now st) p (Z.to_nat q) (world st) in
      let n := Z.of_nat (length (succeeded (createCalls t))) in
      createCalls t = (λ e, (p, e)) <$> answers.1
      ∧ st' = mkSt answers.2 (now st)
      ∧ Z.of_nat (length (createCalls t)) = q
      ∧ (∀ c, c ∈ createCalls t → c.1 = p)
      ∧ (∀ k c, createCalls t !! k = Some c → is_Some c.2 →
                Z.of_nat (S k) < q → is_Some (createCalls t !! S k))
      ∧ err = (if n <? q then Some (ErrCouldCreateOnly n q) else None)
      ∧ (is_Some err ↔ n < q)
      ∧ atLeastOneCreate = (0 <? n).
Proof.
  intros op st.
  apply (applyCreateOp_attempts_every_unit 3 None op st).
  - unfold is_uint8. cbn. lia.
  - cbn. lia.
Defined.

(** Scenario S6 of the design on the scripted world: three units, the driver
    fails on the second, the third is attempted, two are created and the
    operation reports two out of three. *)
Example applyCreateOp_S6 :
  let op := plan.CreateOperation.mk (fake.profile "1g.5gb") 3 in
  let st := fake.start (fake.healthy [] [None; Some fake.driverError; None]) in
  ∃ st' t,
    migagent.applyCreateOp 3 None op st
      = Some ((true, Some (ErrCouldCreateOnly 2 3)), st', t)
    ∧ createCalls t
      = [(fake.profile "1g.5gb", None);
         (fake.profile "1g.5gb", Some fake.driverError);
         (fake.profile "1g.5gb", None)].
Proof. eexists _, _. split; reflexivity. Qed.

(** ** The device plugin restart *)

Section RestartFacts.

Context {W : Type} `{!MigClient W} `{!K8sClient W}.
Variable nodeName : string.

Lemma checkPodRecreated_run ctx (st : St W) :
  let res := (ListPods ctx (now st) nodeName (world st)).2 in
  migagent.checkPodRecreated nodeName ctx st
  = Some ((recreated res, match res with inr e => Some e | inl _ => None end),
          mkSt (ListPods ctx (now st) nodeName (world st)).1 (now st),
          [EvListPods res]).
Proof.
  unfold migagent.checkPodRecreated, migagent.listPods. cbn zeta. step.
  destruct (ListPods ctx (now st) nodeName (world st)) as [w1 [items|e]];
    cbn [fst snd]; [|done].
  destruct items as [|pod [|pod' items]]; [done| |done].
  cbn [length recreated]. rewrite decide_False by (intros Hne; by apply Hne).
  destruct (v1.DeletionTimestamp pod) as [ts|]; [done|].
  rewrite decide_False by (intros Hne; by apply Hne).
  rewrite bool_decide_eq_true_2 by done.
  destruct (decide (v1.Phase pod ≠ v1.PodRunning)) as [Hne|Heq].
  - by rewrite bool_decide_eq_false_2.
  - apply dec_stable in Heq. by rewrite bool_decide_eq_true_2.
Qed.

Lemma waitLoop_spec fuel d (st : St W) :
  (Z.to_nat ((d - now st + 4) / 5) < fuel)%nat →
  ∃ r st' t,
    migagent.waitLoop nodeName fuel (Some d) st = Some (r, st', t)
    ∧ waitOutcome nodeName d (now st) r (now st') t.
Proof.
  revert st. induction fuel as [|fuel IH]; intros st Hfuel; [lia|].
  cbn [migagent.waitLoop]. step.
  rewrite (bind_run _ _ _ _ _ _ (checkPodRecreated_run (Some d) st)).
  set (res := (ListPods (Some d) (now st) nodeName (world st)).2).
  set (w1 := (ListPods (Some d) (now st) nodeName (world st)).1).
  destruct res as [items|e] eqn:Hres.
  2:{ cbn. eexists _, _, _. split; [reflexivity|].
      exists [], (inr e). cbn. repeat split; try done. lia. }
  destruct (recreated (inl items)) eqn:Hrec.
  { step. cbn. eexists _, _, _. split; [reflexivity|].
    exists [], (inl items). cbn [flat_map app lastRound length].
    rewrite Hrec. repeat split; try done. cbn. lia. }
  step. cbn [now ctxErr].
  destruct (d <=? now st) eqn:Hd.
  { apply Z.leb_le in Hd. cbn. eexists _, _, _. split; [reflexivity|].
    exists [], (inl items). cbn [flat_map app lastRound length].
    rewrite Hrec. repeat split; try done; cbn; lia. }
  apply Z.leb_gt in Hd. step.
  destruct (IH (mkSt w1 (now st + 5))) as (r & st' & t & Hrun & Hout).
  { cbn [now]. replace (d - (now st + 5) + 4) with ((d - now st + 4) + (-1) * 5) by lia.
    rewrite Z.div_add by lia.
    assert (1 <= (d - now st + 4) / 5) by (apply Z.div_le_lower_bound; lia).
    lia. }
  cbn [world now]. rewrite Hrun. cbn [after app].
  eexists _, _, _. split; [reflexivity|].
  destruct Hout as (earlier & last & -> & Hearlier & Hfin & Hdl & Hr & Htimeout).
  exists (inl items :: earlier), last.
  cbn [flat_map pollRound app length now] in *.
  split; [done|]. split; [by constructor|].
  split; [lia|]. split; [|split; [done|]].
  - intros _. destruct earlier as [|e0 earlier]; [cbn; lia|].
    specialize (Hdl ltac:(done)). cbn [length] in *. lia.
  - intros H1 H2. specialize (Htimeout H1 H2). lia.
Qed.

End RestartFacts.

Section RestartSpec.

Context {W : Type} `{!MigClient W} `{!K8sClient W}.
Variable nodeName : string.

Lemma waitOutcome_restartEvent d start r finish t :
  waitOutcome nodeName d start r finish t → Forall restartEvent t.
Proof.
  intros (earlier & last & -> & _). apply Forall_app. split.
  - induction earlier as [|res earlier IH]; [constructor|].
    cbn [flat_map pollRound app]. by repeat constructor.
  - unfold lastRound. destruct (recreated last); by repeat constructor.
Qed.

Lemma waitOutcome_finish d start r finish t :
  d <= start + 60 → waitOutcome nodeName d start r finish t →
  start <= finish <= start + 60.
Proof.
  intros Hd (earlier & last & _ & _ & -> & Hdl & _).
  destruct earlier as [|e0 earlier]; [cbn; lia|].
  specialize (Hdl ltac:(done)). cbn [length] in *. lia.
Qed.

Lemma deadline_le ctx t timeout : deadline ctx t timeout <= t + timeout.
Proof. unfold deadline. destruct ctx; lia. Qed.

(** The restart on any world: what it returns and the events it emits,
    read off the answers of the cluster store. *)
Lemma restart_spec fuel ctx (st : St W) :
  (13 ≤ fuel)%nat →
  let listed := ListPods ctx (now st) nodeName (world st) in
  ∃ r st' t,
    migagent.restartNvidiaDevicePlugin nodeName fuel ctx st = Some (r, st', t)
    ∧ match listed.2 with
      | inr e =>
          r = Some e
          ∧ t = [EvLog "restarting nvidia device plugin"; EvListPods (inr e)]
          ∧ now st' = now st
      | inl [pod] =>
          match (DeletePod ctx (now st) pod listed.1).2 with
          | Some e =>
              r = Some (ErrDeletingPod e)
              ∧ t = [EvLog "restarting nvidia device plugin";
                     EvListPods (inl [pod]); EvDeletePod pod (Some e)]
              ∧ now st' = now st
          | None =>
              ∃ tw,
                t = [EvLog "restarting nvidia device plugin";
                     EvListPods (inl [pod]); EvDeletePod pod None;
                     EvLog "deleted nvidia device plugin pod"]
                    ++ tw
                    ++ match r with
                       | Some _ => []
                       | None => [EvLog "nvidia device plugin restarted"]
                       end
                ∧ waitOutcome nodeName (deadline ctx (now st) 60) (now st)
                    r (now st') tw
                ∧ now st <= now st' <= now st + 60
          end
      | inl items =>
          r = Some (ErrPodCount (length items))
          ∧ t = [EvLog "restarting nvidia device plugin"; EvListPods (inl items)]
          ∧ now st' = now st
      end.
Proof.
  intros Hfuel. cbn zeta.
  unfold migagent.restartNvidiaDevicePlugin, migagent.listPods. do 2 step.
  destruct (ListPods ctx (now st) nodeName (world st)) as [w1 [items|e]];
    cbn [fst snd].
  2:{ cbn. by eexists _, _, _. }
  destruct items as [|pod [|pod' items]].
  - cbn. by eexists _, _, _.
  - cbn [length]. rewrite decide_False by (intros Hne; by apply Hne).
    unfold migagent.deletePod. step. cbn [world now].
    destruct (DeletePod ctx (now st) pod w1) as [w2 [e|]]; cbn [fst snd].
    { cbn. by eexists _, _, _. }
    step. unfold migagent.waitNvidiaDevicePluginPodRestart.
    rewrite bind_bind, bind_getNow. cbn [now].
    destruct (waitLoop_spec nodeName fuel (deadline ctx (now st) 60)
                (mkSt w2 (now st)))
      as (r & st' & tw & Hrun & Hout).
    { cbn [now]. pose proof (deadline_le ctx (now st) 60).
      assert ((deadline ctx (now st) 60 - now st + 4) / 5 < 13)
        by (apply Z.div_lt_upper_bound; lia).
      lia. }
    unfold WithTimeout. rewrite (bind_run _ _ _ _ _ _ Hrun).
    pose proof (waitOutcome_finish _ _ _ _ _ (deadline_le ctx (now st) 60) Hout)
      as Hfin.
    cbn [now] in Hout, Hfin.
    destruct r as [e|].
    + cbn. eexists _, _, _. split; [reflexivity|]. exists tw.
      by rewrite !app_nil_r.
    + cbn. eexists _, _, _. split; [reflexivity|]. by exists tw.
  - cbn. by eexists _, _, _.
Qed.

(** A restart opens with its log line, and that line occurs only there. *)
Lemma restart_shape fuel ctx (st : St W) r st' t :
  (13 ≤ fuel)%nat →
  migagent.restartNvidiaDevicePlugin nodeName fuel ctx st = Some (r, st', t) →
  ∃ t', t = EvLog "restarting nvidia device plugin" :: t'
        ∧ Forall restartEvent t'.
Proof.
  intros Hfuel Hrun.
  destruct (restart_spec fuel ctx st Hfuel) as (r0 & st0 & t0 & Hrun0 & Hspec).
  rewrite Hrun in Hrun0. injection Hrun0 as <- <- <-.
  destruct (ListPods ctx (now st) nodeName (world st)) as [w1 [items|e]];
    cbn [fst snd] in Hspec.
  2:{ destruct Hspec as (_ & -> & _). eexists; split; [done|].
      by repeat constructor. }
  destruct items as [|pod [|pod' items]].
  - destruct Hspec as (_ & -> & _). eexists; split; [done|].
    by repeat constructor.
  - destruct (DeletePod ctx (now st) pod w1) as [w2 [e|]]; cbn [fst snd] in Hspec.
    + destruct Hspec as (_ & -> & _). eexists; split; [done|].
      by repeat constructor.
    + destruct Hspec as (tw & -> & Hout & _). eexists; split; [done|].
      repeat (constructor; [done|]). apply Forall_app. split.
      * by eapply waitOutcome_restartEvent.
      * destruct r; by repeat constructor.
  - destruct Hspec as (_ & -> & _). eexists; split; [done|].
    by repeat constructor.
Qed.

End RestartSpec.

(** ** The two loops of apply *)

Section ApplyLoops.

Context {W : Type} `{!MigClient W} `{!K8sClient W}.

Lemma candidateResources_total rs acc :
  total (W := W) (migagent.candidateResources rs acc).
Proof.
  revert acc. induction rs as [|r rs IH]; intros acc;
    cbn [migagent.candidateResources]; walk_total_with ltac:(apply IH).
Qed.

Lemma deleteCandidates_total ctx cands n q :
  total (W := W) (migagent.deleteCandidates ctx cands n q).
Proof.
  revert n. induction cands as [|r cands IH]; intros n;
    cbn [migagent.deleteCandidates]; unfold migagent.deleteMigResource;
    walk_total_with ltac:(apply IH).
Qed.

Lemma applyDeleteOp_total ctx op : total (W := W) (migagent.applyDeleteOp ctx op).
Proof.
  unfold migagent.applyDeleteOp.
  walk_total_with
    ltac:(first [apply candidateResources_total | apply deleteCandidates_total]).
Qed.

Lemma applyDeleteOps_total ctx ops b e :
  total (W := W) (migagent.applyDeleteOps ctx ops b e).
Proof.
  revert b e. induction ops as [|op ops IH]; intros b e;
    cbn [migagent.applyDeleteOps];
    walk_total_with ltac:(first [apply applyDeleteOp_total | apply IH]).
Qed.

Lemma candidateResources_emits rs acc :
  emits (W := W) deleteOpEvent (migagent.candidateResources rs acc).
Proof.
  revert acc. induction rs as [|r rs IH]; intros acc;
    cbn [migagent.candidateResources]; walk_emits_with ltac:(apply IH).
Qed.

Lemma deleteCandidates_emits ctx cands n q :
  emits (W := W) deleteOpEvent (migagent.deleteCandidates ctx cands n q).
Proof.
  revert n. induction cands as [|r cands IH]; intros n;
    cbn [migagent.deleteCandidates]; unfold migagent.deleteMigResource;
    walk_emits_with ltac:(apply IH).
Qed.

Lemma applyDeleteOp_emits ctx op :
  emits (W := W) deleteOpEvent (migagent.applyDeleteOp ctx op).
Proof.
  unfold migagent.applyDeleteOp.
  walk_emits_with
    ltac:(first [apply candidateResources_emits | apply deleteCandidates_emits]).
Qed.

Lemma applyDeleteOps_emits ctx ops b e :
  emits (W := W) deleteOpEvent (migagent.applyDeleteOps ctx ops b e).
Proof.
  revert b e. induction ops as [|op ops IH]; intros b e;
    cbn [migagent.applyDeleteOps];
    walk_emits_with ltac:(first [apply applyDeleteOp_emits | apply IH]).
Qed.

Lemma createLoop_emits fuel ctx p i n q :
  emits (W := W) createOpEvent (migagent.createLoop fuel ctx p i n q).
Proof.
  revert i n. induction fuel as [|fuel IH]; intros i n;
    cbn [migagent.createLoop]; unfold migagent.createMigResource;
    walk_emits_with ltac:(apply IH).
Qed.

Lemma applyCreateOp_emits fuel ctx op :
  emits (W := W) createOpEvent (migagent.applyCreateOp fuel ctx op).
Proof.
  unfold migagent.applyCreateOp.
  walk_emits_with ltac:(apply createLoop_emits).
Qed.

Lemma applyCreateOps_emits fuel ctx ops b e :
  emits (W := W) createOpEvent (migagent.applyCreateOps fuel ctx ops b e).
Proof.
  revert b e. induction ops as [|op ops IH]; intros b e;
    cbn [migagent.applyCreateOps];
    walk_emits_with ltac:(first [apply applyCreateOp_emits | apply IH]).
Qed.

Lemma applyCreateOps_run fuel ctx ops b e (st : St W) :
  uint8_quantities ops → (255 ≤ fuel)%nat →
  is_Some (migagent.applyCreateOps fuel ctx ops b e st).
Proof.
  intros Hops Hfuel. revert b e st.
  induction Hops as [|op ops Hop Hops IH]; intros b e st; [by eexists|].
  cbn [migagent.applyCreateOps].
  destruct (applyCreateOp_spec fuel ctx op st Hop)
    as (b' & e' & st1 & t1 & Hrun & _).
  { unfold is_uint8 in Hop. lia. }
  rewrite (bind_run _ _ _ _ _ _ Hrun).
  destruct (decide (e' ≠ None)).
  - step. destruct (IH b' e' st1) as [[[r st2] t2] ->]. by eexists.
  - step. destruct (IH b' e' st1) as [[[r st2] t2] ->]. by eexists.
Qed.

End ApplyLoops.

(** ** apply *)

Section ApplyFacts.

Context {W : Type} `{!MigClient W} `{!K8sClient W}.
Variable nodeName : string.

(** The anatomy of a run of [apply]: the delete loop, then the create loop
    started where the delete loop stopped, then the restart if one of the
    two flags is up. *)
Lemma apply_spec fuel ctx p (st : St W) :
  uint8_quantities (plan.CreateOperations p) → (255 ≤ fuel)%nat →
  ∃ flagD errD st1 tdel flagC errC st2 tcre r st' tres,
    migagent.applyDeleteOps ctx (plan.DeleteOperations p) false None st
      = Some ((flagD, errD), st1, tdel)
    ∧ migagent.applyCreateOps fuel ctx (plan.CreateOperations p) false errD st1
      = Some ((flagC, errC), st2, tcre)
    ∧ migagent.apply nodeName fuel ctx p st
      = Some (r, st', EvLog "applying MIG config plan" :: tdel ++ tcre ++ tres)
    ∧ Forall deleteOpEvent tdel
    ∧ Forall createOpEvent tcre
    ∧ (if flagC || flagD
       then ∃ tr,
           migagent.restartNvidiaDevicePlugin nodeName fuel ctx st2
             = Some (r, st', tr)
           ∧ tres = tr ++ match r with
                          | Some _ => [EvLog "unable to restart nvidia device plugin"]
                          | None => []
                          end
       else tres = [] ∧ r = errC ∧ st' = st2).
Proof.
  intros Hops Hfuel.
  destruct (applyDeleteOps_total ctx (plan.DeleteOperations p) false None st)
    as [[[[flagD errD] st1] tdel] Hdel].
  destruct (applyCreateOps_run fuel ctx (plan.CreateOperations p) false errD st1
              Hops Hfuel) as [[[[flagC errC] st2] tcre] Hcre].
  exists flagD, errD, st1, tdel, flagC, errC, st2, tcre.
  pose proof (applyDeleteOps_emits _ _ _ _ _ _ _ _ Hdel) as Hevd.
  pose proof (applyCreateOps_emits _ _ _ _ _ _ _ _ _ Hcre) as Hevc.
  unfold migagent.apply. step.
  rewrite (bind_run _ _ _ _ _ _ Hdel), (bind_run _ _ _ _ _ _ Hcre).
  destruct (flagC || flagD) eqn:Hflag.
  - destruct (restart_spec nodeName fuel ctx st2) as (r & st' & tr & Hrun & _);
      [lia|].
    rewrite (bind_run _ _ _ _ _ _ Hrun).
    exists r, st', (tr ++ match r with
                          | Some _ => [EvLog "unable to restart nvidia device plugin"]
                          | None => []
                          end).
    split; [done|]. split; [done|]. split; [|by eauto].
    destruct r; cbn; by rewrite ?app_nil_r.
  - exists errC, st2, []. cbn. by rewrite !app_nil_r.
Qed.

(** The restart is entered once when a flag is up and not at all
    otherwise. *)
Lemma apply_restarts fuel ctx p (st : St W) :
  uint8_quantities (plan.CreateOperations p) → (255 ≤ fuel)%nat →
  ∃ flagD errD st1 tdel flagC errC st2 tcre r st' t,
    migagent.applyDeleteOps ctx (plan.DeleteOperations p) false None st
      = Some ((flagD, errD), st1, tdel)
    ∧ migagent.applyCreateOps fuel ctx (plan.CreateOperations p) false errD st1
      = Some ((flagC, errC), st2, tcre)
    ∧ migagent.apply nodeName fuel ctx p st = Some (r, st', t)
    ∧ restarts t = (if flagC || flagD then 1 else 0)%nat.
Proof.
  intros Hops Hfuel.
  destruct (apply_spec fuel ctx p st Hops Hfuel)
    as (flagD & errD & st1 & tdel & flagC & errC & st2 & tcre & r & st' & tres
        & Hdel & Hcre & Hrun & Hevd & Hevc & Hres).
  exists flagD, errD, st1, tdel, flagC, errC, st2, tcre, r, st'.
  eexists. split; [done|]. split; [done|]. split; [done|].
  assert (restarts tdel = 0%nat) as Hd.
  { clear -Hevd. induction Hevd as [|e t He Ht IH]; [done|].
    rewrite restarts_cons. destruct e; try done.
    rewrite decide_False; [done|]. intros [= ->]. by apply He. }
  assert (restarts tcre = 0%nat) as Hc.
  { clear -Hevc. induction Hevc as [|e t He Ht IH]; [done|].
    rewrite restarts_cons. destruct e; try done.
    rewrite decide_False; [done|]. intros [= ->]. by apply He. }
  readers. rewrite Hd, Hc. rewrite decide_False by done.
  destruct (flagC || flagD).
  - destruct Hres as (tr & Hrestart & ->).
    destruct (restart_shape nodeName fuel ctx st2 r st' tr) as (t' & -> & Ht');
      [lia|done|].
    readers. rewrite decide_True by done.
    assert (restarts t' = 0%nat) as ->.
    { clear -Ht'. induction Ht' as [|e t He Ht IH]; [done|].
      rewrite restarts_cons. destruct e; try done.
      rewrite decide_False; [done|]. intros [= ->]. by apply He. }
    by destruct r.
  - by destruct Hres as (-> & _).
Qed.

End ApplyFacts.

(** ** Order of the driver calls *)

Lemma deleteOpEvent_no_create t : Forall deleteOpEvent t → createCalls t = [].
Proof.
  induction 1 as [|e t He Ht IH]; [done|].
  rewrite createCalls_cons. by destruct e.
Qed.

Lemma createOpEvent_no_delete t : Forall createOpEvent t → deleteCalls t = [].
Proof.
  induction 1 as [|e t He Ht IH]; [done|].
  rewrite deleteCalls_cons. by destruct e.
Qed.

Lemma restartEvent_no_create t : Forall restartEvent t → createCalls t = [].
Proof.
  induction 1 as [|e t He Ht IH]; [done|].
  rewrite createCalls_cons. by destruct e.
Qed.

Lemma restartEvent_no_delete t : Forall restartEvent t → deleteCalls t = [].
Proof.
  induction 1 as [|e t He Ht IH]; [done|].
  rewrite deleteCalls_cons. by destruct e.
Qed.

Lemma createCalls_nil_lookup t j p e :
  createCalls t = [] → t !! j = Some (EvCreateMigResource p e) → False.
Proof.
  revert j. induction t as [|e0 t IH]; intros j Hnil Hj; [done|].
  rewrite createCalls_cons in Hnil. destruct j as [|j].
  - cbn in Hj. injection Hj as ->. done.
  - cbn in Hj. destruct e0; try done; by eapply IH.
Qed.

Lemma deleteCalls_nil_lookup t i r e :
  deleteCalls t = [] → t !! i = Some (EvDeleteMigResource r e) → False.
Proof.
  revert i. induction t as [|e0 t IH]; intros i Hnil Hi; [done|].
  rewrite deleteCalls_cons in Hnil. destruct i as [|i].
  - cbn in Hi. injection Hi as ->. done.
  - cbn in Hi. destruct e0; try done; by eapply IH.
Qed.

(** In a run split in two, with no create call in the first part and no
    delete call in the second, every delete call comes before every create
    call. *)
Lemma deletes_then_creates (t1 t2 : list Event) i j r e p e' :
  createCalls t1 = [] → deleteCalls t2 = [] →
  (t1 ++ t2) !! i = Some (EvDeleteMigResource r e) →
  (t1 ++ t2) !! j = Some (EvCreateMigResource p e') →
  (i < j)%nat.
Proof.
  intros H1 H2 Hi Hj.
  apply lookup_app_Some in Hi as [Hi|[Hi Hi']];
    [|by destruct (deleteCalls_nil_lookup _ _ _ _ H2 Hi')].
  apply lookup_app_Some in Hj as [Hj|[Hj Hj']];
    [by destruct (createCalls_nil_lookup _ _ _ _ H1 Hj)|].
  apply lookup_lt_Some in Hi. lia.
Qed.

Section ApplyOrder.

Context {W : Type} `{!MigClient W} `{!K8sClient W}.
Variable nodeName : string.

Lemma applyDeleteOps_runs ctx ops b e (st : St W) res st' t :
  migagent.applyDeleteOps ctx ops b e st = Some (res, st', t) →
  opRuns (migagent.applyDeleteOp ctx) "unable to fulfill delete operation"
    ops st st' t.
Proof.
  revert b e st t. induction ops as [|op ops IH]; intros b e st t Hrun.
  { cbn in Hrun. by injection Hrun as <- <- <-. }
  cbn [migagent.applyDeleteOps opRuns] in Hrun |- *.
  apply bind_Some in Hrun as ([b1 e1] & st1 & t1 & t2 & Hop & Hrest & ->).
  apply bind_Some in Hrest as (u & st2 & tl & t3 & Hlog & Hrest & ->).
  exists (b1, e1), st1, t1, t3. split; [exact Hop|]. cbn [snd].
  destruct (decide (e1 ≠ None)); injection Hlog as _ <- <-;
    (split; [by eapply IH|done]).
Qed.

Lemma applyCreateOps_runs fuel ctx ops b e (st : St W) res st' t :
  migagent.applyCreateOps fuel ctx ops b e st = Some (res, st', t) →
  opRuns (migagent.applyCreateOp fuel ctx) "unable to fulfill create operation"
    ops st st' t.
Proof.
  revert b e st t. induction ops as [|op ops IH]; intros b e st t Hrun.
  { cbn in Hrun. by injection Hrun as <- <- <-. }
  cbn [migagent.applyCreateOps opRuns] in Hrun |- *.
  apply bind_Some in Hrun as ([b1 e1] & st1 & t1 & t2 & Hop & Hrest & ->).
  apply bind_Some in Hrest as (u & st2 & tl & t3 & Hlog & Hrest & ->).
  exists (b1, e1), st1, t1, t3. split; [exact Hop|]. cbn [snd].
  destruct (decide (e1 ≠ None)); injection Hlog as _ <- <-;
    (split; [by eapply IH|done]).
Qed.

(** C7.  A run of [apply] is its opening log line, then one run of
    [applyDeleteOp] for every delete operation of the plan, in the order of
    the plan, then one run of [applyCreateOp] for every create operation,
    the first of them starting in the state the last delete operation left,
    then the rest.  The delete part holds no create call, the create part
    and the rest hold no delete call, so every driver delete call of the run
    comes before every driver create call. *)
Theorem apply_deletes_before_creates fuel ctx p (st : St W) :
  uint8_quantities (plan.CreateOperations p) → (255 ≤ fuel)%nat →
  ∃ r st' t resD st1 tdel trest st2 tcre tres,
    migagent.apply nodeName fuel ctx p st = Some (r, st', t)
    ∧ migagent.applyDeleteOps ctx (plan.DeleteOperations p) false None st
      = Some (resD, st1, tdel)
    ∧ t = EvLog "applying MIG config plan" :: tdel ++ trest
    ∧ createCalls tdel = []
    ∧ deleteCalls trest = []
    ∧ (∀ i j r e p' e',
         t !! i = Some (EvDeleteMigResource r e) →
         t !! j = Some (EvCreateMigResource p' e') →
         (i < j)%nat)
    ∧ trest = tcre ++ tres
    ∧ opRuns (migagent.applyDeleteOp ctx) "unable to fulfill delete operation"
        (plan.DeleteOperations p) st st1 tdel
    ∧ opRuns (migagent.applyCreateOp fuel ctx)
        "unable to fulfill create operation"
        (plan.CreateOperations p) st1 st2 tcre
    ∧ createCalls tres = [].
Proof.
  intros Hops Hfuel.
  destruct (apply_spec nodeName fuel ctx p st Hops Hfuel)
    as (flagD & errD & st1 & tdel & flagC & errC & st2 & tcre & r & st' & tres
        & Hdel & Hcre & Hrun & Hevd & Hevc & Hres).
  exists r, st', (EvLog "applying MIG config plan" :: tdel ++ tcre ++ tres),
    (flagD, errD), st1, tdel, (tcre ++ tres), st2, tcre, tres.
  assert (deleteCalls tres = [] ∧ createCalls tres = []) as [Htres Htres'].
  { destruct (flagC || flagD).
    - destruct Hres as (tr & Hrestart & ->).
      destruct (restart_shape nodeName fuel ctx st2 r st' tr) as (t' & -> & Ht');
        [lia|done|].
      readers.
      rewrite (restartEvent_no_delete _ Ht'), (restartEvent_no_create _ Ht').
      by destruct r.
    - by destruct Hres as (-> & _). }
  assert (deleteCalls (tcre ++ tres) = []) as Hrest.
  { readers. by rewrite (createOpEvent_no_delete _ Hevc), Htres. }
  pose proof (deleteOpEvent_no_create _ Hevd) as Hnocreate.
  split; [done|]. split; [done|]. split; [done|]. split; [done|].
  split; [done|]. split.
  { intros i j r0 e p' e' Hi Hj.
    apply (deletes_then_creates (EvLog "applying MIG config plan" :: tdel)
             (tcre ++ tres) i j r0 e p' e'); done. }
  split; [done|]. split; [by eapply applyDeleteOps_runs|].
  split; [by eapply applyCreateOps_runs|done].
Qed.

End ApplyOrder.

(** A plan with one delete operation and one create operation, on a node
    whose device plugin comes back. *)
Lemma apply_deletes_before_creates_witness :
  let p := plan.mkMigConfigPlan
             [plan.DeleteOperation.mk (fake.profile "4g.20gb")
                [fake.device "mig-1" "4g.20gb" resource.StatusFree] 1]
             [plan.CreateOperation.mk (fake.profile "7g.40gb") 1] in
  let st := fake.start (fake.healthy [] []) in
  ∃ r st' t resD st1 tdel trest st2 tcre tres,
    migagent.apply "node-1" 255 None p st = Some (r, st', t)
    ∧ migagent.applyDeleteOps None (plan.DeleteOperations p) false None st
      = Some (resD, st1, tdel)
    ∧ t = EvLog "applying MIG config plan" :: tdel ++ trest
    ∧ createCalls tdel = []
    ∧ deleteCalls trest = []
    ∧ (∀ i j r e p' e',
         t !! i = Some (EvDeleteMigResource r e) →
         t !! j = Some (EvCreateMigResource p' e') →
         (i < j)%nat)
    ∧ trest = tcre ++ tres
    ∧ opRuns (migagent.applyDeleteOp None) "unable to fulfill delete operation"
        (plan.DeleteOperations p) st st1 tdel
    ∧ opRuns (migagent.applyCreateOp 255 None)
        "unable to fulfill create operation"
        (plan.CreateOperations p) st1 st2 tcre
    ∧ createCalls tres = [].
Proof.
  intros p st.
  apply (apply_deletes_before_creates "node-1" 255 None p st).
  - repeat constructor; cbn; lia.
  - lia.
Defined.

(** ** What the restart does follow from *)

Section RestartCause.

Context {W : Type} `{!MigClient W} `{!K8sClient W}.
Variable nodeName : string.

Lemma succeeded_nonempty {A} (calls : list (A * option Error)) :
  0 < Z.of_nat (length (succeeded calls)) → succeeded calls ≠ [].
Proof. by destruct (succeeded calls). Qed.

(** The flag the delete loop ends with is up only if it was up before or a
    deletion of the run succeeded. *)
Lemma applyDeleteOps_flag ctx ops b e (st : St W) b' e' st' t :
  uint8_delete_quantities ops →
  migagent.applyDeleteOps ctx ops b e st = Some ((b', e'), st', t) →
  b' = true → b = true ∨ succeeded (deleteCalls t) ≠ [].
Proof.
  intros Hops. revert b e st t.
  induction Hops as [|op ops Hop Hops IH]; intros b e st t Hrun Hb'.
  - cbn in Hrun. injection Hrun as -> _ _ _. by left.
  - right. cbn [migagent.applyDeleteOps] in Hrun.
    destruct (applyDeleteOp_spec ctx op st Hop)
      as (b1 & e1 & st1 & t1 & Hrun1 & _ & _ & Hb1 & _).
    rewrite (bind_run _ _ _ _ _ _ Hrun1) in Hrun.
    destruct (bind (if decide (e1 ≠ None)
                    then log "unable to fulfill delete operation"
                    else ret ())
                (λ _, migagent.applyDeleteOps ctx ops b1 e1) st1)
      as [[[r2 st2] t2]|] eqn:Hrest; [|done].
    injection Hrun as -> -> <-.
    assert (∃ l t3, t2 = l ++ t3 ∧ deleteCalls l = []
                    ∧ migagent.applyDeleteOps ctx ops b1 e1 st1
                      = Some ((b', e'), st', t3)) as (l & t3 & -> & Hl & Hrun3).
    { destruct (decide (e1 ≠ None)).
      - rewrite bind_log in Hrest.
        destruct (migagent.applyDeleteOps ctx ops b1 e1 st1)
          as [[[r3 st3] t3]|]; [|done].
        injection Hrest as -> -> <-. by eexists [_], _.
      - rewrite bind_ret in Hrest. by exists [], t2. }
    readers. rewrite Hl. cbn [app].
    destruct (IH _ _ _ _ Hrun3 Hb') as [Hup|Hsome].
    + rewrite Hup in Hb1. symmetry in Hb1. apply Z.ltb_lt in Hb1.
      apply succeeded_nonempty in Hb1.
      destruct (succeeded (deleteCalls t1)); [done|by intros [=]].
    + destruct (succeeded (deleteCalls t1)); [done|by intros [=]].
Qed.

(** The same for the create loop. *)
Lemma applyCreateOps_flag fuel ctx ops b e (st : St W) b' e' st' t :
  uint8_quantities ops → (255 ≤ fuel)%nat →
  migagent.applyCreateOps fuel ctx ops b e st = Some ((b', e'), st', t) →
  b' = true → b = true ∨ succeeded (createCalls t) ≠ [].
Proof.
  intros Hops Hfuel. revert b e st t.
  induction Hops as [|op ops Hop Hops IH]; intros b e st t Hrun Hb'.
  - cbn in Hrun. injection Hrun as -> _ _ _. by left.
  - right. cbn [migagent.applyCreateOps] in Hrun.
    destruct (applyCreateOp_spec fuel ctx op st Hop)
      as (b1 & e1 & st1 & t1 & Hrun1 & _ & _ & _ & _ & _ & Hb1).
    { unfold is_uint8 in Hop. lia. }
    rewrite (bind_run _ _ _ _ _ _ Hrun1) in Hrun.
    destruct (bind (if decide (e1 ≠ None)
                    then log "unable to fulfill create operation"
                    else ret ())
                (λ _, migagent.applyCreateOps fuel ctx ops b1 e1) st1)
      as [[[r2 st2] t2]|] eqn:Hrest; [|done].
    injection Hrun as -> -> <-.
    assert (∃ l t3, t2 = l ++ t3 ∧ createCalls l = []
                    ∧ migagent.applyCreateOps fuel ctx ops b1 e1 st1
                      = Some ((b', e'), st', t3)) as (l & t3 & -> & Hl & Hrun3).
    { destruct (decide (e1 ≠ None)).
      - rewrite bind_log in Hrest.
        destruct (migagent.applyCreateOps fuel ctx ops b1 e1 st1)
          as [[[r3 st3] t3]|]; [|done].
        injection Hrest as -> -> <-. by eexists [_], _.
      - rewrite bind_ret in Hrest. by exists [], t2. }
    readers. rewrite Hl. cbn [app].
    destruct (IH _ _ _ _ Hrun3 Hb') as [Hup|Hsome].
    + rewrite Hup in Hb1. symmetry in Hb1. apply Z.ltb_lt in Hb1.
      apply succeeded_nonempty in Hb1.
      destruct (succeeded (createCalls t1)); [done|by intros [=]].
    + destruct (succeeded (createCalls t1)); [done|by intros [=]].
Qed.

(** The half of the restart rule that [apply] keeps: the restart is entered
    at most once, and only in a run in which a driver call succeeded. *)
Lemma apply_restart_only_after_success fuel ctx p (st : St W) :
  uint8_delete_quantities (plan.DeleteOperations p) →
  uint8_quantities (plan.CreateOperations p) → (255 ≤ fuel)%nat →
  ∃ r st' t,
    migagent.apply nodeName fuel ctx p st = Some (r, st', t)
    ∧ (restarts t ≤ 1)%nat
    ∧ (restarts t = 1%nat →
       succeeded (deleteCalls t) ≠ [] ∨ succeeded (createCalls t) ≠ []).
Proof.
  intros Hdels Hops Hfuel.
  destruct (apply_spec nodeName fuel ctx p st Hops Hfuel)
    as (flagD & errD & st1 & tdel & flagC & errC & st2 & tcre & r & st' & tres
        & Hdel & Hcre & Hrun & Hevd & Hevc & Hres).
  destruct (apply_restarts nodeName fuel ctx p st Hops Hfuel)
    as (flagD' & errD' & st1' & tdel' & flagC' & errC' & st2' & tcre' & r'
        & st'' & t & Hdel' & Hcre' & Hrun' & Hcount).
  rewrite Hdel in Hdel'. injection Hdel' as <- <- <- <-.
  rewrite Hcre in Hcre'. injection Hcre' as <- <- <- <-.
  rewrite Hrun in Hrun'. injection Hrun' as <- <- <-.
  eexists _, _, _. split; [exact Hrun|]. rewrite Hcount.
  split; [destruct (flagC || flagD); lia|].
  intros Hone. readers.
  destruct flagC eqn:HC.
  - right.
    destruct (applyCreateOps_flag _ _ _ _ _ _ _ _ _ _ Hops Hfuel Hcre eq_refl)
      as [?|Hs]; [done|].
    rewrite (deleteOpEvent_no_create _ Hevd). cbn [app]. readers.
    destruct (succeeded (createCalls tcre)); [done|by intros [=]].
  - destruct flagD eqn:HD; [|done]. left.
    destruct (applyDeleteOps_flag _ _ _ _ _ _ _ _ _ Hdels Hdel eq_refl)
      as [?|Hs]; [done|].
    destruct (succeeded (deleteCalls tdel)); [done|by intros [=]].
Qed.

End RestartCause.

(** ** Where apply departs from its contract *)

(** For an operation that asks for at least one deletion, the driver is
    asked to delete free resources of the operation only and at most
    [Quantity] deletions succeed. *)
Lemma applyDeleteOp_free_only_at_most_quantity
    {W : Type} `{!MigClient W} `{!K8sClient W} ctx op (st : St W) :
  is_uint8 (plan.DeleteOperation.Quantity op) →
  1 <= plan.DeleteOperation.Quantity op →
  ∃ res st' t,
    migagent.applyDeleteOp ctx op st = Some (res, st', t)
    ∧ (∀ c, c ∈ deleteCalls t →
            c.1 ∈ plan.DeleteOperation.Resources op
            ∧ migtypes.Status c.1 = resource.StatusFree)
    ∧ Z.of_nat (length (succeeded (deleteCalls t)))
      <= plan.DeleteOperation.Quantity op.
Proof.
  intros Hq H1.
  destruct (applyDeleteOp_spec ctx op st Hq)
    as (b & e & st' & t & Hrun & Hfree & Hle & _).
  exists (b, e), st', t. split; [done|]. split; [done|]. lia.
Qed.

(** C4, at the input where it fails.  A delete operation of quantity 0 with
    two free resources: the loop tests [nDeleted >= Quantity] only after the
    first deletion went through, so one resource is deleted although none
    was asked for, and the operation reports success. *)
Theorem applyDeleteOp_quantity_zero_deletes_one :
  let op := plan.DeleteOperation.mk (fake.profile "1g.5gb")
              [fake.device "mig-a" "1g.5gb" resource.StatusFree;
               fake.device "mig-b" "1g.5gb" resource.StatusFree] 0 in
  let st := fake.start (fake.healthy [] []) in
  ∃ st' t,
    migagent.applyDeleteOp None op st = Some ((true, None), st', t)
    ∧ succeeded (deleteCalls t)
      = [fake.device "mig-a" "1g.5gb" resource.StatusFree]
    ∧ plan.DeleteOperation.Quantity op
      < Z.of_nat (length (succeeded (deleteCalls t))).
Proof.
  intros op st. eexists _, _.
  split; [vm_compute; reflexivity|]. split; [vm_compute; reflexivity|].
  vm_compute. reflexivity.
Qed.

(** C1, at the input where it fails.  Two delete operations: the driver
    deletes the resource of the first and refuses the resource of the
    second.  The second turn of the loop overwrites [atLeastOneDelete], so
    the device plugin is not restarted although a deletion succeeded. *)
Theorem apply_skips_restart_after_successful_delete :
  let p := plan.mkMigConfigPlan
             [plan.DeleteOperation.mk (fake.profile "1g.5gb")
                [fake.device "mig-a" "1g.5gb" resource.StatusFree] 1;
              plan.DeleteOperation.mk (fake.profile "2g.10gb")
                [fake.device "mig-b" "2g.10gb" resource.StatusFree] 1]
             [] in
  let st := fake.start (fake.healthy ["mig-b"] []) in
  ∃ st' t,
    migagent.apply "node-1" 255 None p st
      = Some (Some (ErrCouldDeleteOnly 0 1), st', t)
    ∧ succeeded (deleteCalls t)
      = [fake.device "mig-a" "1g.5gb" resource.StatusFree]
    ∧ restarts t = 0%nat.
Proof.
  intros p st. eexists _, _.
  split; [vm_compute; reflexivity|]. split; vm_compute; reflexivity.
Qed.

(** C2, at the inputs where it fails.  First scenario S6 of the design: one
    create operation for three units, the driver fails on the second; the
    restart then succeeds and its [nil] replaces the error of the operation.
    Then a plan whose delete operation finds nothing to delete and whose
    create operation succeeds.  Both runs return no error although an
    operation failed. *)
Theorem apply_returns_nil_after_failed_operation :
  (let p := plan.mkMigConfigPlan []
              [plan.CreateOperation.mk (fake.profile "1g.5gb") 3] in
   let st := fake.start (fake.healthy [] [None; Some fake.driverError; None]) in
   ∃ st' t,
     migagent.apply "node-1" 255 None p st = Some (None, st', t)
     ∧ createCalls t
       = [(fake.profile "1g.5gb", None);
          (fake.profile "1g.5gb", Some fake.driverError);
          (fake.profile "1g.5gb", None)]
     ∧ EvLog "unable to fulfill create operation" ∈ t
     ∧ restarts t = 1%nat)
  ∧ (let p := plan.mkMigConfigPlan
                [plan.DeleteOperation.mk (fake.profile "4g.20gb") [] 1]
                [plan.CreateOperation.mk (fake.profile "7g.40gb") 1] in
     let st := fake.start (fake.healthy [] []) in
     ∃ st' t,
       migagent.apply "node-1" 255 None p st = Some (None, st', t)
       ∧ EvLog "unable to fulfill delete operation" ∈ t
       ∧ restarts t = 1%nat).
Proof.
  split.
  - intros p st. eexists _, _.
    split; [vm_compute; reflexivity|]. split; [vm_compute; reflexivity|].
    split; [|vm_compute; reflexivity].
    apply list_elem_of_In. vm_compute. tauto.
  - intros p st. eexists _, _.
    split; [vm_compute; reflexivity|].
    split; [|vm_compute; reflexivity].
    apply list_elem_of_In. vm_compute. tauto.
Qed.

(** ** The restart protocol *)

Section RestartProtocol.

Context {W : Type} `{!MigClient W} `{!K8sClient W}.
Variable nodeName : string.

Lemma poll_0 ctx (start : Z) (w : W) :
  poll ctx nodeName start 0 w = ListPods ctx start nodeName w.
Proof. unfold poll. cbn [pollWorld Z.of_nat]. by rewrite Z.mul_0_r, Z.add_0_r. Qed.

Lemma poll_S ctx (start : Z) k (w : W) :
  poll ctx nodeName start (S k) w
  = poll ctx nodeName (start + 5) k (ListPods ctx start nodeName w).1.
Proof. unfold poll. cbn [pollWorld]. f_equal. lia. Qed.

Lemma answers_S ctx (start : Z) n (w : W) :
  (λ k, (poll ctx nodeName start k w).2) <$> seq 0 (S n)
  = (ListPods ctx start nodeName w).2
    :: ((λ k, (poll ctx nodeName (start + 5) k
                 (ListPods ctx start nodeName w).1).2) <$> seq 0 n).
Proof.
  cbn [seq]. rewrite fmap_cons, poll_0. f_equal.
  rewrite <- fmap_S_seq, <- list_fmap_compose. apply list_fmap_ext.
  intros i k _. cbn. by rewrite poll_S.
Qed.

(** The wait loop, told from the polls: it leaves at the first poll that
    fails, or shows the pod recreated, or is made when the deadline has
    come. *)
Lemma waitLoop_polls fuel d (st : St W) :
  (Z.to_nat ((d - now st + 4) / 5) < fuel)%nat →
  ∃ n : nat,
    let answer k := (poll (Some d) nodeName (now st) k (world st)).2 in
    let last := answer n in
    migagent.waitLoop nodeName fuel (Some d) st
    = Some (match last with
            | inr e => Some e
            | inl _ =>
                if recreated last then None else Some (ErrWaitTimeout nodeName)
            end,
            mkSt (poll (Some d) nodeName (now st) n (world st)).1
              (now st + 5 * Z.of_nat n),
            flat_map pollRound (answer <$> seq 0 n) ++ lastRound last)
    ∧ (∀ k, (k < n)%nat →
            recreated (answer k) = false ∧ isError (answer k) = false
            ∧ now st + 5 * Z.of_nat k < d)
    ∧ (recreated last = false → isError last = false →
       d <= now st + 5 * Z.of_nat n).
Proof.
  revert st. induction fuel as [|fuel IH]; intros st Hfuel; [lia|].
  cbn [migagent.waitLoop]. step.
  rewrite (bind_run _ _ _ _ _ _ (checkPodRecreated_run nodeName (Some d) st)).
  destruct (ListPods (Some d) (now st) nodeName (world st)) as [w1 res] eqn:Hl.
  cbn [fst snd].
  destruct res as [items|e].
  2:{ exists 0%nat. cbn zeta. rewrite !poll_0, Hl.
      cbn [Z.of_nat fst snd seq fmap list_fmap flat_map app].
      rewrite Z.mul_0_r, Z.add_0_r. cbn.
      split; [done|]. split; [lia|done]. }
  destruct (recreated (inl items)) eqn:Hrec.
  { step. exists 0%nat. cbn zeta. cbn [after app]. rewrite !poll_0, Hl.
    cbn [Z.of_nat fst snd seq fmap list_fmap flat_map app lastRound].
    rewrite Z.mul_0_r, Z.add_0_r, Hrec.
    split; [done|]. split; [lia|done]. }
  step. cbn [now ctxErr].
  destruct (d <=? now st) eqn:Hd.
  { apply Z.leb_le in Hd. exists 0%nat. cbn zeta. cbn [after app].
    rewrite !poll_0, Hl.
    cbn [Z.of_nat fst snd seq fmap list_fmap flat_map app lastRound].
    rewrite Z.mul_0_r, Z.add_0_r, Hrec.
    split; [done|]. split; [lia|]. intros _ _. lia. }
  apply Z.leb_gt in Hd. step.
  destruct (IH (mkSt w1 (now st + 5))) as (n & Hrun & Hearlier & Hlast).
  { cbn [now]. replace (d - (now st + 5) + 4) with ((d - now st + 4) + (-1) * 5) by lia.
    rewrite Z.div_add by lia.
    assert (1 <= (d - now st + 4) / 5) by (apply Z.div_le_lower_bound; lia).
    lia. }
  cbn [world now] in *. cbn zeta in *. rewrite Hrun. cbn [after app].
  exists (S n). rewrite answers_S, !poll_S, Hl. cbn [fst snd flat_map pollRound app].
  replace (now st + 5 + 5 * Z.of_nat n) with (now st + 5 * Z.of_nat (S n)) by lia.
  split; [done|]. split.
  - intros [|k] Hk.
    + rewrite poll_0, Hl. cbn [snd]. split; [done|]. split; [done|]. lia.
    + rewrite poll_S, Hl. cbn [fst]. destruct (Hearlier k) as (? & ? & ?); [lia|].
      split; [done|]. split; [done|]. lia.
  - intros H1 H2. specialize (Hlast H1 H2). lia.
Qed.

(** C8.  The restart lists the device plugin pods of the node; an error of
    that listing is returned as it is.  When the list does not hold exactly
    one pod it fails with the pod-count error and deletes nothing.
    Otherwise it deletes that pod, and returns the error of the deletion
    when it fails.  After the deletion it polls: poll number [k] is the
    listing made five seconds after poll [k - 1], on the world that poll
    left, the first one right after the deletion.  The polls go on while
    the listing succeeds and does not show one pod without deletion
    timestamp in phase running.  The restart returns [nil] exactly when the
    last poll shows such a pod; it returns the error of the last poll when
    that poll failed; it returns the timeout error when the last poll shows
    neither, and the deadline, sixty seconds after the deletion at most, has
    then come.  The clock has advanced by five seconds per poll before the
    last, by sixty seconds at most. *)
Theorem restartNvidiaDevicePlugin_protocol fuel ctx (st : St W) :
  (13 ≤ fuel)%nat →
  let listed := ListPods ctx (now st) nodeName (world st) in
  ∃ r st' t,
    migagent.restartNvidiaDevicePlugin nodeName fuel ctx st = Some (r, st', t)
    ∧ match listed.2 with
      | inr e =>
          r = Some e ∧ st' = mkSt listed.1 (now st)
          ∧ t = [EvLog "restarting nvidia device plugin"; EvListPods (inr e)]
      | inl [pod] =>
          let deleted := DeletePod ctx (now st) pod listed.1 in
          match deleted.2 with
          | Some e =>
              r = Some (ErrDeletingPod e) ∧ st' = mkSt deleted.1 (now st)
              ∧ t = [EvLog "restarting nvidia device plugin";
                     EvListPods (inl [pod]); EvDeletePod pod (Some e)]
          | None =>
              let ctx' := WithTimeout ctx (now st) 60 in
              let answer k := (poll ctx' nodeName (now st) k deleted.1).2 in
              ∃ n : nat,
                let last := answer n in
                t = [EvLog "restarting nvidia device plugin";
                     EvListPods (inl [pod]); EvDeletePod pod None;
                     EvLog "deleted nvidia device plugin pod"]
                    ++ flat_map pollRound (answer <$> seq 0 n)
                    ++ lastRound last
                    ++ match r with
                       | Some _ => []
                       | None => [EvLog "nvidia device plugin restarted"]
                       end
                ∧ (∀ k, (k < n)%nat →
                        recreated (answer k) = false
                        ∧ isError (answer k) = false
                        ∧ now st + 5 * Z.of_nat k < deadline ctx (now st) 60)
                ∧ (r = None ↔ recreated last = true)
                ∧ (recreated last = false → isError last = false →
                   r = Some (ErrWaitTimeout nodeName)
                   ∧ deadline ctx (now st) 60 <= now st')
                ∧ (∀ e, last = inr e → r = Some e)
                ∧ st' = mkSt (poll ctx' nodeName (now st) n deleted.1).1
                          (now st + 5 * Z.of_nat n)
                ∧ now st' <= now st + 60
          end
      | inl items =>
          r = Some (ErrPodCount (length items)) ∧ st' = mkSt listed.1 (now st)
          ∧ t = [EvLog "restarting nvidia device plugin"; EvListPods (inl items)]
      end.
Proof.
  intros Hfuel. cbn zeta.
  unfold migagent.restartNvidiaDevicePlugin, migagent.listPods. do 2 step.
  destruct (ListPods ctx (now st) nodeName (world st)) as [w1 [items|e]];
    cbn [fst snd].
  2:{ cbn. by eexists _, _, _. }
  destruct items as [|pod [|pod' items]].
  - cbn. by eexists _, _, _.
  - cbn [length]. rewrite decide_False by (intros Hne; by apply Hne).
    unfold migagent.deletePod. step. cbn [world now].
    destruct (DeletePod ctx (now st) pod w1) as [w2 [e|]]; cbn [fst snd].
    { cbn. by eexists _, _, _. }
    step. unfold migagent.waitNvidiaDevicePluginPodRestart.
    rewrite bind_bind, bind_getNow. cbn [now]. unfold WithTimeout.
    pose proof (deadline_le ctx (now st) 60) as Hdl.
    destruct (waitLoop_polls fuel (deadline ctx (now st) 60) (mkSt w2 (now st)))
      as (n & Hrun & Hearlier & Hlast).
    { cbn [now].
      assert ((deadline ctx (now st) 60 - now st + 4) / 5 < 13)
        by (apply Z.div_lt_upper_bound; lia).
      lia. }
    cbn zeta in *. cbn [world now] in *.
    rewrite (bind_run _ _ _ _ _ _ Hrun).
    assert (now st + 5 * Z.of_nat n <= now st + 60) as Hfin.
    { destruct n as [|n]; [lia|].
      destruct (Hearlier n) as (_ & _ & ?); lia. }
    pose proof Hearlier as Hearlier'. clear Hrun Hearlier.
    destruct (poll (Some (deadline ctx (now st) 60)) nodeName (now st) n w2)
      as [wn last] eqn:Hpoll.
    cbn [fst snd] in *.
    destruct last as [items|e].
    + destruct (recreated (inl items)) eqn:Hrec.
      * unfold lastRound. rewrite Hrec. cbn.
        eexists _, _, _. split; [reflexivity|]. exists n.
        rewrite Hpoll. cbn [fst snd]. unfold lastRound. rewrite Hrec.
        split; [cbn [app]; by rewrite <- ?app_assoc|].
        split; [done|]. split; [done|]. split; [done|]. split; [done|].
        split; [done|]. cbn [now]. lia.
      * unfold lastRound. rewrite Hrec. cbn.
        eexists _, _, _. split; [reflexivity|]. exists n.
        rewrite Hpoll. cbn [fst snd]. unfold lastRound. rewrite Hrec.
        split; [cbn [app]; by rewrite ?app_nil_r|].
        split; [done|]. split; [done|].
        split; [intros _ _; split; [done|]; cbn [now]; by apply Hlast|].
        split; [done|]. split; [done|]. cbn [now]. lia.
    + unfold lastRound. cbn.
      eexists _, _, _. split; [reflexivity|]. exists n.
      rewrite Hpoll. cbn [fst snd]. unfold lastRound.
      split; [cbn; by rewrite ?app_nil_r|].
      split; [done|]. split; [done|]. split; [done|].
      split; [by intros ? [= ->]|]. split; [done|]. cbn [now]. lia.
  - cbn. by eexists _, _, _.
Qed.

End RestartProtocol.

(** The restart on a node whose new device plugin pod is pending at the
    first poll and running at the second. *)
Lemma restartNvidiaDevicePlugin_protocol_witness :
  let nodeName := "node-1" in
  let fuel := 13%nat in
  let ctx : Ctx := None in
  let st := fake.start (fake.healthy [] []) in
  (13 ≤ fuel)%nat
  ∧ let listed := ListPods ctx (now st) nodeName (world st) in
    ∃ r st' t,
      migagent.restartNvidiaDevicePlugin nodeName fuel ctx st = Some (r, st', t)
      ∧ match listed.2 with
        | inr e =>
            r = Some e ∧ st' = mkSt listed.1 (now st)
            ∧ t = [EvLog "restarting nvidia device plugin"; EvListPods (inr e)]
        | inl [pod] =>
            let deleted := DeletePod ctx (now st) pod listed.1 in
            match deleted.2 with
            | Some e =>
                r = Some (ErrDeletingPod e) ∧ st' = mkSt deleted.1 (now st)
                ∧ t = [EvLog "restarting nvidia device plugin";
                       EvListPods (inl [pod]); EvDeletePod pod (Some e)]
            | None =>
                let ctx' := WithTimeout ctx (now st) 60 in
                let answer k := (poll ctx' nodeName (now st) k deleted.1).2 in
                ∃ n : nat,
                  let last := answer n in
                  t = [EvLog "restarting nvidia device plugin";
                       EvListPods (inl [pod]); EvDeletePod pod None;
                       EvLog "deleted nvidia device plugin pod"]
                      ++ flat_map pollRound (answer <$> seq 0 n)
                      ++ lastRound last
                      ++ match r with
                         | Some _ => []
                         | None => [EvLog "nvidia device plugin restarted"]
                         end
                  ∧ (∀ k, (k < n)%nat →
                          recreated (answer k) = false
                          ∧ isError (answer k) = false
                          ∧ now st + 5 * Z.of_nat k < deadline ctx (now st) 60)
                  ∧ (r = None ↔ recreated last = true)
                  ∧ (recreated last = false → isError last = false →
                     r = Some (ErrWaitTimeout nodeName)
                     ∧ deadline ctx (now st) 60 <= now st')
                  ∧ (∀ e, last = inr e → r = Some e)
                  ∧ st' = mkSt (poll ctx' nodeName (now st) n deleted.1).1
                            (now st + 5 * Z.of_nat n)
                  ∧ now st' <= now st + 60
            end
        | inl items =>
            r = Some (ErrPodCount (length items)) ∧ st' = mkSt listed.1 (now st)
            ∧ t = [EvLog "restarting nvidia device plugin"; EvListPods (inl items)]
        end.
Proof.
  intros nodeName fuel ctx st. split; [unfold fuel; lia|].
  apply (restartNvidiaDevicePlugin_protocol nodeName fuel ctx st).
  unfold fuel. lia.
Defined.

(** The claim at a listing that fails during the wait: the restart found
    exactly one pod and deleted it, the first poll returns an error, and the
    restart returns that error at once: no poll has shown the pod recreated,
    no time has passed, and the error is not the timeout error.  Likewise,
    when the deletion of the pod fails, the restart returns without a single
    poll. *)
Lemma restartNvidiaDevicePlugin_poll_error_is_no_timeout :
  let listError := ErrClient "connection refused" in
  let w := fake.mk [] [] [inl [fake.pluginPod]; inr listError] None []
             (v1.mkNode "node-1" []) in
  let w' := fake.mk [] [] [inl [fake.pluginPod]] (Some listError) []
              (v1.mkNode "node-1" []) in
  (∃ st',
     migagent.restartNvidiaDevicePlugin "node-1" 13 None (fake.start w)
     = Some (Some listError, st',
             [EvLog "restarting nvidia device plugin";
              EvListPods (inl [fake.pluginPod]);
              EvDeletePod fake.pluginPod None;
              EvLog "deleted nvidia device plugin pod";
              EvLog "waiting for nvidia device plugin Pod to be recreated";
              EvListPods (inr listError)])
     ∧ now st' = 0
     ∧ Some listError ≠ Some (ErrWaitTimeout "node-1")
     ∧ recreated (inr listError) = false)
  ∧ (∃ st',
       migagent.restartNvidiaDevicePlugin "node-1" 13 None (fake.start w')
       = Some (Some (ErrDeletingPod listError), st',
               [EvLog "restarting nvidia device plugin";
                EvListPods (inl [fake.pluginPod]);
                EvDeletePod fake.pluginPod (Some listError)])).
Proof.
  split.
  - eexists. split; [vm_compute; reflexivity|]. split; [reflexivity|].
    split; [discriminate|reflexivity].
  - eexists. vm_compute. reflexivity.
Qed.

(** The same run, evaluated: one round of waiting, five seconds. *)
Example restartNvidiaDevicePlugin_run :
  ∃ st',
    migagent.restartNvidiaDevicePlugin "node-1" 13 None
      (fake.start (fake.healthy [] []))
    = Some (None, st',
            [EvLog "restarting nvidia device plugin";
             EvListPods (inl [fake.pluginPod]);
             EvDeletePod fake.pluginPod None;
             EvLog "deleted nvidia device plugin pod"]
            ++ pollRound (inl [fake.pendingPod])
            ++ lastRound (inl [fake.newPluginPod])
            ++ [EvLog "nvidia device plugin restarted"])
    ∧ now st' = 5.
Proof. eexists. split; [vm_compute; reflexivity|reflexivity]. Qed.

(** A device plugin that never comes back: thirteen listings, twelve sleeps,
    the timeout error after sixty seconds. *)
Example restartNvidiaDevicePlugin_timeout :
  let w := fake.mk [] [] [inl [fake.pluginPod]; inl [fake.pendingPod]] None []
             (v1.mkNode "node-1" []) in
  ∃ st',
    migagent.restartNvidiaDevicePlugin "node-1" 13 None (fake.start w)
    = Some (Some (ErrWaitTimeout "node-1"), st',
            [EvLog "restarting nvidia device plugin";
             EvListPods (inl [fake.pluginPod]);
             EvDeletePod fake.pluginPod None;
             EvLog "deleted nvidia device plugin pod"]
            ++ flat_map pollRound (replicate 12 (inl [fake.pendingPod]))
            ++ lastRound (inl [fake.pendingPod]))
    ∧ now st' = 60.
Proof. eexists. split; [vm_compute; reflexivity|reflexivity]. Qed.

(** Two device plugin pods on the node: the pod-count error, nothing
    deleted. *)
Example restartNvidiaDevicePlugin_two_pods :
  let w := fake.mk [] [] [inl [fake.pluginPod; fake.newPluginPod]] None []
             (v1.mkNode "node-1" []) in
  migagent.restartNvidiaDevicePlugin "node-1" 13 None (fake.start w)
  = Some (Some (ErrPodCount 2), fake.start w,
          [EvLog "restarting nvidia device plugin";
           EvListPods (inl [fake.pluginPod; fake.newPluginPod])]).
Proof. reflexivity. Qed.

(** ** No status writeback *)

Lemma applyEvent_no_writeback t : Forall applyEvent t → ¬ writesBackStatus t.
Proof.
  intros Hall (t1 & t2 & t3 & n & ->).
  apply Forall_app in Hall as [_ Hall].
  inversion Hall as [|e0 t0 Hbad Hrest]. exact Hbad.
Qed.

Lemma deleteOpEvent_applyEvent e : deleteOpEvent e → applyEvent e.
Proof. by destruct e. Qed.

Lemma createOpEvent_applyEvent e : createOpEvent e → applyEvent e.
Proof. by destruct e. Qed.

Lemma restartEvent_applyEvent e : restartEvent e → applyEvent e.
Proof. by destruct e. Qed.

Section Writeback.

Context {W : Type} `{!MigClient W} `{!K8sClient W}.
Variable nodeName : string.

(** Every event of a run of [apply] is a log line, a driver deletion or
    creation, a pod listing or deletion, or a sleep. *)
Lemma apply_events fuel ctx p (st : St W) :
  uint8_quantities (plan.CreateOperations p) → (255 ≤ fuel)%nat →
  ∃ r st' t,
    migagent.apply nodeName fuel ctx p st = Some (r, st', t)
    ∧ Forall applyEvent t.
Proof.
  intros Hops Hfuel.
  destruct (apply_spec nodeName fuel ctx p st Hops Hfuel)
    as (flagD & errD & st1 & tdel & flagC & errC & st2 & tcre & r & st' & tres
        & Hdel & Hcre & Hrun & Hevd & Hevc & Hres).
  eexists _, _, _. split; [exact Hrun|].
  constructor; [done|]. apply Forall_app. split.
  { eapply Forall_impl; [|exact Hevd]. apply deleteOpEvent_applyEvent. }
  apply Forall_app. split.
  { eapply Forall_impl; [|exact Hevc]. apply createOpEvent_applyEvent. }
  destruct (flagC || flagD).
  - destruct Hres as (tr & Hrestart & ->).
    destruct (restart_shape nodeName fuel ctx st2 r st' tr) as (t' & -> & Ht');
      [lia|done|].
    apply Forall_app. split.
    + constructor; [done|].
      eapply Forall_impl; [|exact Ht']. apply restartEvent_applyEvent.
    + destruct r; by repeat constructor.
  - destruct Hres as (-> & _). constructor.
Qed.

Context {SpecAnnotations StatusAnnotations MigState : Type}.
Variable GetGPUAnnotationsFromNode :
  v1.Node → StatusAnnotations * SpecAnnotations.
Variable SpecMatchesStatus : SpecAnnotations → StatusAnnotations → bool.
Variable NewMigState : list migtypes.MigDeviceResource → MigState.
Variable Matches : MigState → SpecAnnotations → bool.
Variable NewMigConfigPlan : MigState → SpecAnnotations → plan.MigConfigPlan.
Variable IsEmpty : plan.MigConfigPlan → bool.

Hypothesis NewMigConfigPlan_uint8 :
  ∀ state spec, uint8_quantities (plan.CreateOperations (NewMigConfigPlan state spec)).

(** The anatomy of a run of [Reconcile]: the lock, the reads that lead to
    the plan, the run of [apply] if the plan is applied, the unlock. *)
Lemma Reconcile_spec fuel ctx reqName (st : St W) :
  (255 ≤ fuel)%nat →
  ∃ r st' tpre tapp,
    migagent.Reconcile nodeName GetGPUAnnotationsFromNode SpecMatchesStatus
      NewMigState Matches NewMigConfigPlan IsEmpty fuel ctx reqName st
    = Some (r, st', EvLock :: tpre ++ tapp ++ [EvUnlock])
    ∧ Forall planEvent tpre
    ∧ Forall applyEvent tapp.
Proof.
  intros Hfuel.
  unfold migagent.Reconcile, migagent.reconcileLocked. do 3 step.
  destruct (GetNode ctx (now st) reqName (world st)) as [w1 [instance|e]];
    cbn [fst snd world now].
  2:{ do 2 step. cbn.
      by exists (Some e), (mkSt w1 (now st)), [EvGetNode reqName], []; repeat constructor. }
  destruct (GetGPUAnnotationsFromNode instance) as [status spec].
  destruct (SpecMatchesStatus spec status).
  { do 4 step. cbn.
    by eexists None, _, [_; _], []; repeat constructor. }
  unfold migagent.plan. do 3 step. cbn [world now].
  destruct (GetMigDeviceResources ctx (now st) w1) as [w2 [devices|e]];
    cbn [fst snd].
  2:{ do 5 step. cbn.
      by eexists (Some e), _, [_; _; _], []; repeat constructor. }
  assert (∀ p tpre (st0 : St W),
    uint8_quantities (plan.CreateOperations p) → Forall planEvent tpre →
    ∃ r st' tpre' tapp,
      after (EvLock :: tpre)
        (bind (if IsEmpty p
               then bind (log "MIG config plan is empty, nothing to do")
                      (λ _, ret None)
               else migagent.apply nodeName fuel ctx p)
           (λ res, bind (emit EvUnlock) (λ _, ret res)) st0)
      = Some (r, st', EvLock :: tpre' ++ tapp ++ [EvUnlock])
      ∧ Forall planEvent tpre' ∧ Forall applyEvent tapp) as Htail.
  { intros p tpre st0 Hp Hpre. destruct (IsEmpty p).
    - do 4 step. cbn. exists None, st0, (tpre ++ [EvLog "MIG config plan is empty, nothing to do"]), [].
      rewrite <- app_assoc. split; [done|]. split; [|constructor].
      apply Forall_app. split; [done|by repeat constructor].
    - destruct (apply_events fuel ctx p st0 Hp Hfuel) as (r & st' & t & Hrun & Hev).
      rewrite (bind_run _ _ _ _ _ _ Hrun). step. cbn.
      exists r, st', tpre, t. done. }
  destruct (Matches (NewMigState devices) spec).
  - repeat step. rewrite !after_after. cbn [app].
    destruct (Htail plan.empty
                [EvGetNode reqName; EvGetMigDeviceResources;
                 EvLog "actual state matches desired MIG config"]
                (mkSt w2 (now st)) ltac:(constructor) ltac:(by repeat constructor))
      as (r & st' & tpre' & tapp & Hrun & Hpre & Happ).
    rewrite Hrun. cbn. by exists r, st', tpre', tapp.
  - repeat step. rewrite ?after_after. cbn [app].
    destruct (Htail (NewMigConfigPlan (NewMigState devices) spec)
                [EvGetNode reqName; EvGetMigDeviceResources]
                (mkSt w2 (now st)) (NewMigConfigPlan_uint8 _ _)
                ltac:(by repeat constructor))
      as (r & st' & tpre' & tapp & Hrun & Hpre & Happ).
    rewrite Hrun. cbn. by exists r, st', tpre', tapp.
Qed.

(** C3, amended.  Neither [apply] nor [Reconcile] writes the status back.
    A run of [apply] consists of log lines, driver deletions and creations,
    pod listings and deletions and sleeps: it does not read the driver state
    and does not write the node.  A run of [Reconcile] never writes the
    node, and reads the driver state only before the plan is applied. *)
Theorem no_status_writeback fuel ctx p reqName (st : St W) :
  uint8_quantities (plan.CreateOperations p) → (255 ≤ fuel)%nat →
  (∃ r st' t,
     migagent.apply nodeName fuel ctx p st = Some (r, st', t)
     ∧ Forall applyEvent t
     ∧ ¬ writesBackStatus t)
  ∧ (∃ r st' tpre tapp,
       migagent.Reconcile nodeName GetGPUAnnotationsFromNode SpecMatchesStatus
         NewMigState Matches NewMigConfigPlan IsEmpty fuel ctx reqName st
       = Some (r, st', EvLock :: tpre ++ tapp ++ [EvUnlock])
       ∧ Forall planEvent tpre
       ∧ Forall applyEvent tapp
       ∧ (∀ n, EvUpdateNode n ∉ EvLock :: tpre ++ tapp ++ [EvUnlock])
       ∧ ¬ writesBackStatus (EvLock :: tpre ++ tapp ++ [EvUnlock])).
Proof.
  intros Hp Hfuel. split.
  - destruct (apply_events fuel ctx p st Hp Hfuel) as (r & st' & t & Hrun & Hev).
    exists r, st', t. split; [done|]. split; [done|].
    by apply applyEvent_no_writeback.
  - destruct (Reconcile_spec fuel ctx reqName st Hfuel)
      as (r & st' & tpre & tapp & Hrun & Hpre & Happ).
    exists r, st', tpre, tapp. split; [done|]. split; [done|]. split; [done|].
    assert (∀ n, EvUpdateNode n ∉ EvLock :: tpre ++ tapp ++ [EvUnlock]) as Hno.
    { intros n Hin. apply elem_of_cons in Hin as [Hin|Hin]; [done|].
      apply elem_of_app in Hin as [Hin|Hin].
      { rewrite list.Forall_forall in Hpre. by apply Hpre in Hin. }
      apply elem_of_app in Hin as [Hin|Hin].
      { rewrite list.Forall_forall in Happ. by apply Happ in Hin. }
      by apply list_elem_of_singleton in Hin. }
    split; [done|].
    intros (t1 & t2 & t3 & n & Heq). apply (Hno n). rewrite Heq.
    apply elem_of_app. right. apply elem_of_cons. right.
    apply elem_of_app. right. apply elem_of_cons. by left.
Qed.

End Writeback.

(** Scenario S1 of the design on the scripted world: an empty GPU, the plan
    creates one 7g.40gb partition. *)
Lemma no_status_writeback_witness :
  let p := plan.mkMigConfigPlan []
             [plan.CreateOperation.mk (fake.profile "7g.40gb") 1] in
  let GetGPUAnnotationsFromNode (n : v1.Node) := (v1.Annotations n, v1.Annotations n) in
  let SpecMatchesStatus (spec status : list (string * string)) := false in
  let NewMigState (devices : list migtypes.MigDeviceResource) := devices in
  let Matches (state : list migtypes.MigDeviceResource)
        (spec : list (string * string)) := false in
  let NewMigConfigPlan (state : list migtypes.MigDeviceResource)
        (spec : list (string * string)) := p in
  let IsEmpty (q : plan.MigConfigPlan) := false in
  let st := fake.start (fake.healthy [] []) in
  (uint8_quantities (plan.CreateOperations p) ∧ (255 ≤ 255)%nat)
  ∧ (∃ r st' t,
       migagent.apply "node-1" 255 None p st = Some (r, st', t)
       ∧ Forall applyEvent t
       ∧ ¬ writesBackStatus t)
  ∧ (∃ r st' tpre tapp,
       migagent.Reconcile "node-1" GetGPUAnnotationsFromNode SpecMatchesStatus
         NewMigState Matches NewMigConfigPlan IsEmpty 255 None "node-1" st
       = Some (r, st', EvLock :: tpre ++ tapp ++ [EvUnlock])
       ∧ Forall planEvent tpre
       ∧ Forall applyEvent tapp
       ∧ (∀ n, EvUpdateNode n ∉ EvLock :: tpre ++ tapp ++ [EvUnlock])
       ∧ ¬ writesBackStatus (EvLock :: tpre ++ tapp ++ [EvUnlock])).
Proof.
  intros p GetGPUAnnotationsFromNode SpecMatchesStatus NewMigState Matches
    NewMigConfigPlan IsEmpty st.
  assert (uint8_quantities (plan.CreateOperations p)) as Hp
    by (repeat constructor; cbn; lia).
  split; [split; [exact Hp|lia]|].
  apply (no_status_writeback "node-1" GetGPUAnnotationsFromNode
           SpecMatchesStatus NewMigState Matches NewMigConfigPlan IsEmpty
           (λ _ _, Hp) 255 None p "node-1" st Hp).
  lia.
Defined.

(** C3 as stated fails on scenario S1: the run of [apply] creates the
    partition, restarts the device plugin and returns; it holds no status
    writeback, and the node object of the world is as it was, without any
    status annotation. *)
Lemma apply_S1_writes_no_status :
  let p := plan.mkMigConfigPlan []
             [plan.CreateOperation.mk (fake.profile "7g.40gb") 1] in
  let st := fake.start (fake.healthy [] []) in
  ∃ st' t,
    migagent.apply "node-1" 255 None p st = Some (None, st', t)
    ∧ createCalls t = [(fake.profile "7g.40gb", None)]
    ∧ restarts t = 1%nat
    ∧ ¬ writesBackStatus t
    ∧ v1.Annotations (fake.node (world st')) = [].
Proof.
  intros p st. eexists _, _. split; [vm_compute; reflexivity|].
  split; [vm_compute; reflexivity|]. split; [vm_compute; reflexivity|].
  split; [|reflexivity].
  apply applyEvent_no_writeback. repeat constructor.
Qed.

(** ** ApplyGeometry *)

(** The case of [TestGPU__GetMigGeometry]. *)
Example GetGeometry_empty_gpu :
  mig.GetGeometry (mig.newGpu mig.GPUModel_A30 0 [] []) = ∅.
Proof. vm_compute. reflexivity. Qed.

(** The four cases of [TestGPU_ApplyGeometry]: the two that succeed, with
    the GPU the test expects, and the two that fail. *)
Example ApplyGeometry_empty_gpu :
  mig.ApplyGeometry mig.testCatalog
    (mig.newGpu mig.GPUModel_A100_SMX4_40GB 0 [] [])
    (mig.geometryOf [(mig.Profile7g40gb, 1%nat)])
  = inl (mig.newGpu mig.GPUModel_A100_SMX4_40GB 0 []
           [(mig.Profile7g40gb, 1%nat)]).
Proof. vm_compute. reflexivity. Qed.

Example ApplyGeometry_invalid_geometry :
  mig.ApplyGeometry mig.testCatalog
    (mig.newGpu mig.GPUModel_A100_SMX4_40GB 0 [] [])
    (mig.geometryOf [(mig.Profile1g10gb, 12%nat)])
  = inr [mig.IllegalGeometry].
Proof. vm_compute. reflexivity. Qed.

Example ApplyGeometry_would_delete_used :
  mig.ApplyGeometry mig.testCatalog
    (mig.newGpu mig.GPUModel_A30 0 [(mig.Profile1g6gb, 4%nat)] [])
    (mig.geometryOf [(mig.Profile4g24gb, 1%nat)])
  = inr [mig.WouldEvictUsed].
Proof. vm_compute. reflexivity. Qed.

Example ApplyGeometry_changes_only_free :
  mig.ApplyGeometry mig.testCatalog
    (mig.newGpu mig.GPUModel_A30 0 [(mig.Profile1g6gb, 2%nat)]
       [(mig.Profile2g12gb, 1%nat)])
    (mig.geometryOf [(mig.Profile1g6gb, 4%nat)])
  = inl (mig.newGpu mig.GPUModel_A30 0 [(mig.Profile1g6gb, 2%nat)]
           [(mig.Profile1g6gb, 2%nat)]).
Proof. vm_compute. reflexivity. Qed.

(** A target that is both outside the catalog and short of the used
    partitions fails with both failures. *)
Example ApplyGeometry_both_failures :
  mig.ApplyGeometry mig.testCatalog
    (mig.newGpu mig.GPUModel_A30 0 [(mig.Profile1g6gb, 4%nat)] [])
    (mig.geometryOf [(mig.Profile1g10gb, 12%nat)])
  = inr [mig.WouldEvictUsed; mig.IllegalGeometry].
Proof. vm_compute. reflexivity. Qed.




(** ** Slice costs *)

(** The two tests of the profile name. *)
Example getMemorySlices_3g20gb : mig.getMemorySlices mig.Profile3g20gb = 20.
Proof. reflexivity. Qed.

Example getGiSlices_3g20gb : mig.getGiSlices mig.Profile3g20gb = 3.
Proof. reflexivity. Qed.


Lemma string_app_nil (s : string) : "" +:+ s = s.
Proof. reflexivity. Qed.

Lemma string_app_cons x (a s : string) : String x a +:+ s = String x (a +:+ s).
Proof. reflexivity. Qed.






(** The name of the tests is of that form. *)
Example profileName_3_20 : mig.profileName 3 20 = mig.Profile3g20gb.
Proof. reflexivity. Qed.

(** * Further properties of the actuator *)

(** ** The delete operation, call by call *)

Section DeleteOpCalls.

Context {W : Type} `{!MigClient W} `{!K8sClient W}.


(** A run of [applyDeleteOp], cut at its two loops. *)
Lemma applyDeleteOp_anatomy ctx op (st : St W) :
  let q := plan.DeleteOperation.Quantity op in
  let free := filter (λ r, migtypes.Status r = resource.StatusFree)
                (plan.DeleteOperation.Resources op) in
  ∃ t1 n st' t2,
    Forall isLog t1
    ∧ migagent.deleteCandidates ctx free 0 q st = Some (n, st', t2)
    ∧ migagent.applyDeleteOp ctx op st
      = Some ((0 <? n, if n <? q then Some (ErrCouldDeleteOnly n q) else None),
              st', EvLog "applying delete operation for MigProfile" :: t1 ++ t2).
Proof.
  cbn zeta. unfold migagent.applyDeleteOp. step.
  destruct (candidateResources_spec (plan.DeleteOperation.Resources op) [] st)
    as (t1 & Hrun1 & Hlog1 & _).
  rewrite (bind_run _ _ _ _ _ _ Hrun1). cbn [app].
  destruct (deleteCandidates_total ctx
              (filter (λ r, migtypes.Status r = resource.StatusFree)
                 (plan.DeleteOperation.Resources op))
              0 (plan.DeleteOperation.Quantity op) st)
    as [[[n st'] t2] Hrun2].
  rewrite (bind_run _ _ _ _ _ _ Hrun2).
  exists t1, n, st', t2. split; [done|]. split; [done|].
  destruct (n <? plan.DeleteOperation.Quantity op); cbn; by rewrite app_nil_r.
Qed.

Lemma isLog_no_delete t : Forall isLog t → deleteCalls t = [].
Proof.
  induction 1 as [|e t He Ht IH]; [done|].
  rewrite deleteCalls_cons. by destruct e.
Qed.


(** An operation without free resource: the driver is not called; the
    operation reports that it deleted none, as an error unless [Quantity] is
    zero. *)
Theorem applyDeleteOp_nothing_free ctx op (st : St W) :
  Forall (λ r, migtypes.Status r ≠ resource.StatusFree)
    (plan.DeleteOperation.Resources op) →
  ∃ t,
    migagent.applyDeleteOp ctx op st
    = Some ((false,
             if 0 <? plan.DeleteOperation.Quantity op
             then Some (ErrCouldDeleteOnly 0 (plan.DeleteOperation.Quantity op))
             else None), st, t)
    ∧ Forall isLog t.
Proof.
  intros Hused. destruct (applyDeleteOp_anatomy ctx op st)
    as (t1 & n & st' & t2 & Hlog & Hloop & Hrun).
  assert (filter (λ r, migtypes.Status r = resource.StatusFree)
            (plan.DeleteOperation.Resources op) = []) as Hnone.
  { clear -Hused. induction Hused as [|r rs Hr Hrs IH]; [done|].
    rewrite filter_cons. by rewrite decide_False. }
  rewrite Hnone in Hloop. cbn in Hloop. injection Hloop as <- <- <-.
  eexists. split; [exact Hrun|]. constructor; [done|].
  by rewrite app_nil_r.
Qed.

End DeleteOpCalls.




Lemma applyDeleteOp_nothing_free_witness :
  let op := plan.DeleteOperation.mk (fake.profile "1g.5gb")
              [fake.device "mig-b" "1g.5gb" resource.StatusUsed] 1 in
  let st := fake.start (fake.healthy [] []) in
  ∃ t,
    migagent.applyDeleteOp None op st
    = Some ((false,
             if 0 <? plan.DeleteOperation.Quantity op
             then Some (ErrCouldDeleteOnly 0 (plan.DeleteOperation.Quantity op))
             else None), st, t)
    ∧ Forall isLog t.
Proof.
  intros op st. apply (applyDeleteOp_nothing_free None op st).
  by repeat constructor.
Defined.

(** ** The paths of Reconcile *)

Section ReconcilePaths.

Context {W : Type} `{!MigClient W} `{!K8sClient W}.
Variable nodeName : string.
Context {SpecAnnotations StatusAnnotations MigState : Type}.
Variable GetGPUAnnotationsFromNode :
  v1.Node → StatusAnnotations * SpecAnnotations.
Variable SpecMatchesStatus : SpecAnnotations → StatusAnnotations → bool.
Variable NewMigState : list migtypes.MigDeviceResource → MigState.
Variable Matches : MigState → SpecAnnotations → bool.
Variable NewMigConfigPlan : MigState → SpecAnnotations → plan.MigConfigPlan.
Variable IsEmpty : plan.MigConfigPlan → bool.

#[local] Abbreviation Reconcile :=
  (migagent.Reconcile (W := W) nodeName GetGPUAnnotationsFromNode
     SpecMatchesStatus NewMigState Matches NewMigConfigPlan IsEmpty).

(** When the status annotations of the node already match its spec
    annotations, [Reconcile] reads the node and nothing else: it returns no
    error, the driver and the pods are not touched, the lock is released. *)
Theorem Reconcile_reported_status_matches fuel ctx reqName (st : St W)
    w1 instance :
  GetNode ctx (now st) reqName (world st) = (w1, inl instance) →
  SpecMatchesStatus (GetGPUAnnotationsFromNode instance).2
    (GetGPUAnnotationsFromNode instance).1 = true →
  Reconcile fuel ctx reqName st
  = Some (None, mkSt w1 (now st),
          [EvLock; EvGetNode reqName;
           EvLog "reported status matches desired MIG config, nothing to do";
           EvUnlock]).
Proof.
  intros Hget Hmatch.
  unfold migagent.Reconcile, migagent.reconcileLocked.
  do 3 step. rewrite Hget. cbn [fst snd].
  destruct (GetGPUAnnotationsFromNode instance) as [status spec].
  cbn [fst snd] in Hmatch. rewrite Hmatch. by repeat step.
Qed.

(** When the node cannot be read, or the driver state cannot be read,
    [Reconcile] returns that error; no plan is made, nothing is created or
    deleted, no pod is touched, the lock is released. *)
Theorem Reconcile_returns_read_errors fuel ctx reqName (st : St W) :
  (∀ w1 e,
     GetNode ctx (now st) reqName (world st) = (w1, inr e) →
     Reconcile fuel ctx reqName st
     = Some (Some e, mkSt w1 (now st), [EvLock; EvGetNode reqName; EvUnlock]))
  ∧ (∀ w1 instance w2 e,
       GetNode ctx (now st) reqName (world st) = (w1, inl instance) →
       SpecMatchesStatus (GetGPUAnnotationsFromNode instance).2
         (GetGPUAnnotationsFromNode instance).1 = false →
       GetMigDeviceResources ctx (now st) w1 = (w2, inr e) →
       Reconcile fuel ctx reqName st
       = Some (Some e, mkSt w2 (now st),
               [EvLock; EvGetNode reqName; EvGetMigDeviceResources;
                EvLog "unable to get MIG device resources"; EvUnlock])).
Proof.
  split.
  - intros w1 e Hget.
    unfold migagent.Reconcile, migagent.reconcileLocked.
    do 3 step. rewrite Hget. cbn [fst snd]. by repeat step.
  - intros w1 instance w2 e Hget Hmatch Hread.
    unfold migagent.Reconcile, migagent.reconcileLocked.
    do 3 step. rewrite Hget. cbn [fst snd].
    destruct (GetGPUAnnotationsFromNode instance) as [status spec].
    cbn [fst snd] in Hmatch. rewrite Hmatch.
    unfold migagent.plan. do 3 step. cbn [world now]. rewrite Hread.
    cbn [fst snd]. by repeat step.
Qed.

(** When the state the driver reports already matches the spec
    annotations, [Reconcile] takes the empty plan; if [IsEmpty] holds of it,
    nothing is applied and no error is returned. *)
Theorem Reconcile_actual_state_matches fuel ctx reqName (st : St W)
    w1 instance w2 devices :
  GetNode ctx (now st) reqName (world st) = (w1, inl instance) →
  SpecMatchesStatus (GetGPUAnnotationsFromNode instance).2
    (GetGPUAnnotationsFromNode instance).1 = false →
  GetMigDeviceResources ctx (now st) w1 = (w2, inl devices) →
  Matches (NewMigState devices) (GetGPUAnnotationsFromNode instance).2 = true →
  IsEmpty plan.empty = true →
  Reconcile fuel ctx reqName st
  = Some (None, mkSt w2 (now st),
          [EvLock; EvGetNode reqName; EvGetMigDeviceResources;
           EvLog "actual state matches desired MIG config";
           EvLog "MIG config plan is empty, nothing to do"; EvUnlock]).
Proof.
  intros Hget Hmatch Hread Hactual Hempty.
  unfold migagent.Reconcile, migagent.reconcileLocked.
  do 3 step. rewrite Hget. cbn [fst snd].
  destruct (GetGPUAnnotationsFromNode instance) as [status spec].
  cbn [fst snd] in Hmatch, Hactual. rewrite Hmatch.
  unfold migagent.plan. do 3 step. cbn [world now]. rewrite Hread.
  cbn [fst snd]. rewrite Hactual. repeat step. rewrite Hempty. by repeat step.
Qed.

(** Otherwise [Reconcile] applies the plan computed from the driver state
    and the spec annotations: its run is the lock, the two reads, the run of
    [apply] on that plan, the unlock, and it returns what [apply]
    returns. *)
Theorem Reconcile_applies_the_plan fuel ctx reqName (st : St W)
    w1 instance w2 devices r st' t :
  let spec := (GetGPUAnnotationsFromNode instance).2 in
  let configPlan := NewMigConfigPlan (NewMigState devices) spec in
  GetNode ctx (now st) reqName (world st) = (w1, inl instance) →
  SpecMatchesStatus spec (GetGPUAnnotationsFromNode instance).1 = false →
  GetMigDeviceResources ctx (now st) w1 = (w2, inl devices) →
  Matches (NewMigState devices) spec = false →
  IsEmpty configPlan = false →
  migagent.apply nodeName fuel ctx configPlan (mkSt w2 (now st))
    = Some (r, st', t) →
  Reconcile fuel ctx reqName st
  = Some (r, st',
          [EvLock; EvGetNode reqName; EvGetMigDeviceResources]
          ++ t ++ [EvUnlock]).
Proof.
  cbn zeta. intros Hget Hmatch Hread Hactual Hempty Happly.
  unfold migagent.Reconcile, migagent.reconcileLocked.
  do 3 step. rewrite Hget. cbn [fst snd].
  destruct (GetGPUAnnotationsFromNode instance) as [status spec].
  cbn [fst snd] in *. rewrite Hmatch.
  unfold migagent.plan. do 3 step. cbn [world now]. rewrite Hread.
  cbn [fst snd]. rewrite Hactual. repeat step. rewrite Hempty.
  rewrite (bind_run _ _ _ _ _ _ Happly). by repeat step.
Qed.

Hypothesis NewMigConfigPlan_uint8 :
  ∀ state spec, uint8_quantities (plan.CreateOperations (NewMigConfigPlan state spec)).

(** Whatever happens in between, a run of [Reconcile] takes the lock first,
    releases it last, and does neither in between. *)
Theorem Reconcile_locks_once fuel ctx reqName (st : St W) :
  (255 ≤ fuel)%nat →
  ∃ r st' t,
    Reconcile fuel ctx reqName st = Some (r, st', EvLock :: t ++ [EvUnlock])
    ∧ lockEvents t = [].
Proof.
  intros Hfuel.
  destruct (Reconcile_spec nodeName GetGPUAnnotationsFromNode SpecMatchesStatus
              NewMigState Matches NewMigConfigPlan IsEmpty NewMigConfigPlan_uint8
              fuel ctx reqName st Hfuel)
    as (r & st' & tpre & tapp & Hrun & Hpre & Happ).
  exists r, st', (tpre ++ tapp). rewrite <- app_assoc. split; [exact Hrun|].
  unfold lockEvents. rewrite list.filter_app.
  assert (∀ l P, Forall P l → (∀ e, P e → ¬ (e = EvLock ∨ e = EvUnlock)) →
                 filter (λ e, e = EvLock ∨ e = EvUnlock) l = []) as Hnone.
  { intros l P Hl HP. induction Hl as [|e l He Hl IH]; [done|].
    rewrite filter_cons, decide_False by by apply HP. done. }
  rewrite (Hnone tpre planEvent), (Hnone tapp applyEvent); try done.
  - intros e He [->| ->]; exact He.
  - intros e He [->| ->]; exact He.
Qed.

End ReconcilePaths.

(** Scenario S5 of the design: the reported status matches. *)
Lemma Reconcile_reported_status_matches_witness :
  let st := fake.start (fake.healthy [] []) in
  standin.Reconcile true false plan.empty 255 None "node-1" st
  = Some (None, st,
          [EvLock; EvGetNode "node-1";
           EvLog "reported status matches desired MIG config, nothing to do";
           EvUnlock]).
Proof.
  intros st.
  exact (Reconcile_reported_status_matches "node-1"
           standin.GetGPUAnnotationsFromNode (standin.SpecMatchesStatus true)
           standin.NewMigState (standin.Matches false)
           (standin.NewMigConfigPlan plan.empty) standin.IsEmpty
           255 None "node-1" st (world st) (fake.node (world st))
           eq_refl eq_refl).
Defined.

(** A node that cannot be read, and a driver that cannot be listed. *)
Lemma Reconcile_returns_read_errors_witness :
  let p := plan.mkMigConfigPlan []
             [plan.CreateOperation.mk (fake.profile "7g.40gb") 1] in
  let w1 := failing.mk (fake.healthy [] []) (Some (ErrClient "not found")) None in
  let w2 := failing.mk (fake.healthy [] []) None
              (Some (ErrMigClient "NVML not initialized")) in
  standin.Reconcile false false p 255 None "node-1" (failing.start w1)
  = Some (Some (ErrClient "not found"), failing.start w1,
          [EvLock; EvGetNode "node-1"; EvUnlock])
  ∧ standin.Reconcile false false p 255 None "node-1" (failing.start w2)
    = Some (Some (ErrMigClient "NVML not initialized"), failing.start w2,
            [EvLock; EvGetNode "node-1"; EvGetMigDeviceResources;
             EvLog "unable to get MIG device resources"; EvUnlock]).
Proof.
  intros p w1 w2. split.
  - exact (proj1 (Reconcile_returns_read_errors "node-1"
                    standin.GetGPUAnnotationsFromNode
                    (standin.SpecMatchesStatus false) standin.NewMigState
                    (standin.Matches false) (standin.NewMigConfigPlan p)
                    standin.IsEmpty 255 None "node-1" (failing.start w1))
             w1 (ErrClient "not found") eq_refl).
  - exact (proj2 (Reconcile_returns_read_errors "node-1"
                    standin.GetGPUAnnotationsFromNode
                    (standin.SpecMatchesStatus false) standin.NewMigState
                    (standin.Matches false) (standin.NewMigConfigPlan p)
                    standin.IsEmpty 255 None "node-1" (failing.start w2))
             w2 (fake.node (failing.base w2)) w2
             (ErrMigClient "NVML not initialized") eq_refl eq_refl eq_refl).
Defined.

Lemma Reconcile_actual_state_matches_witness :
  let st := fake.start (fake.healthy [] []) in
  standin.Reconcile false true plan.empty 255 None "node-1" st
  = Some (None, st,
          [EvLock; EvGetNode "node-1"; EvGetMigDeviceResources;
           EvLog "actual state matches desired MIG config";
           EvLog "MIG config plan is empty, nothing to do"; EvUnlock]).
Proof.
  intros st.
  exact (Reconcile_actual_state_matches "node-1"
           standin.GetGPUAnnotationsFromNode (standin.SpecMatchesStatus false)
           standin.NewMigState (standin.Matches true)
           (standin.NewMigConfigPlan plan.empty) standin.IsEmpty
           255 None "node-1" st (world st) (fake.node (world st)) (world st) []
           eq_refl eq_refl eq_refl eq_refl eq_refl).
Defined.

(** Scenario S1 of the design, from the event to the unlock. *)
Lemma Reconcile_applies_the_plan_witness :
  let p := plan.mkMigConfigPlan []
             [plan.CreateOperation.mk (fake.profile "7g.40gb") 1] in
  let st := fake.start (fake.healthy [] []) in
  ∃ r st' t,
    migagent.apply "node-1" 255 None p st = Some (r, st', t)
    ∧ standin.Reconcile false false p 255 None "node-1" st
      = Some (r, st',
              [EvLock; EvGetNode "node-1"; EvGetMigDeviceResources]
              ++ t ++ [EvUnlock]).
Proof.
  intros p st. eexists _, _, _. split; [vm_compute; reflexivity|].
  apply (Reconcile_applies_the_plan "node-1"
           standin.GetGPUAnnotationsFromNode (standin.SpecMatchesStatus false)
           standin.NewMigState (standin.Matches false)
           (standin.NewMigConfigPlan p) standin.IsEmpty
           255 None "node-1" st (world st) (fake.node (world st)) (world st) []);
    reflexivity.
Defined.

Lemma Reconcile_locks_once_witness :
  let p := plan.mkMigConfigPlan []
             [plan.CreateOperation.mk (fake.profile "7g.40gb") 1] in
  let st := fake.start (fake.healthy [] []) in
  ∃ r st' t,
    standin.Reconcile false false p 255 None "node-1" st
    = Some (r, st', EvLock :: t ++ [EvUnlock])
    ∧ lockEvents t = [].
Proof.
  intros p st.
  apply (Reconcile_locks_once "node-1"
           standin.GetGPUAnnotationsFromNode (standin.SpecMatchesStatus false)
           standin.NewMigState (standin.Matches false)
           (standin.NewMigConfigPlan p) standin.IsEmpty).
  - intros state spec. repeat constructor; cbn; lia.
  - lia.
Defined.

(** ** Time *)

Section Timeless.

Context {W : Type}.

Lemma timeless_ret {A} (a : A) : timeless (ret (W := W) a).
Proof. by intros st a' st' t [= <- <- <-]. Qed.

Lemma timeless_bind {A B} (c : M W A) (k : A → M W B) :
  timeless c → (∀ a, timeless (k a)) → timeless (bind c k).
Proof.
  intros Hc Hk st b st' t (a & st1 & t1 & t2 & H1 & H2 & ->)%bind_Some.
  rewrite (Hk _ _ _ _ _ H2). by eapply Hc.
Qed.

Lemma timeless_log msg : timeless (log (W := W) msg).
Proof. by intros st a' st' t [= <- <- <-]. Qed.

Lemma timeless_diverge {A} : timeless (diverge (W := W) (A := A)).
Proof. by intros st a st' t [=]. Qed.

Lemma timeless_call {R} (f : Z → W → W * R) ev : timeless (call f ev).
Proof.
  intros st a st' t. unfold call.
  destruct (f (now st) (world st)) as [w r]. by intros [= <- <- <-].
Qed.

End Timeless.

Ltac walk_timeless_with leaf :=
  repeat first
    [ leaf
    | progress cbn zeta
    | apply timeless_bind; [|intros ?]
    | apply timeless_ret
    | apply timeless_log
    | apply timeless_diverge
    | apply timeless_call
    | assumption
    | match goal with
      | |- timeless (if ?b then _ else _) => destruct b
      | |- timeless (match ?x with _ => _ end) => destruct x
      end ].

Section ApplyTime.

Context {W : Type} `{!MigClient W} `{!K8sClient W}.
Variable nodeName : string.

Lemma candidateResources_timeless rs acc :
  timeless (W := W) (migagent.candidateResources rs acc).
Proof.
  revert acc. induction rs as [|r rs IH]; intros acc;
    cbn [migagent.candidateResources]; walk_timeless_with ltac:(apply IH).
Qed.

Lemma deleteCandidates_timeless ctx cands n q :
  timeless (W := W) (migagent.deleteCandidates ctx cands n q).
Proof.
  revert n. induction cands as [|r cands IH]; intros n;
    cbn [migagent.deleteCandidates]; unfold migagent.deleteMigResource;
    walk_timeless_with ltac:(apply IH).
Qed.

Lemma applyDeleteOps_timeless ctx ops b e :
  timeless (W := W) (migagent.applyDeleteOps ctx ops b e).
Proof.
  revert b e. induction ops as [|op ops IH]; intros b e;
    cbn [migagent.applyDeleteOps]; unfold migagent.applyDeleteOp;
    walk_timeless_with
      ltac:(first [apply candidateResources_timeless
                  | apply deleteCandidates_timeless | apply IH]).
Qed.

Lemma createLoop_timeless fuel ctx p i n q :
  timeless (W := W) (migagent.createLoop fuel ctx p i n q).
Proof.
  revert i n. induction fuel as [|fuel IH]; intros i n;
    cbn [migagent.createLoop]; unfold migagent.createMigResource;
    walk_timeless_with ltac:(apply IH).
Qed.

Lemma applyCreateOps_timeless fuel ctx ops b e :
  timeless (W := W) (migagent.applyCreateOps fuel ctx ops b e).
Proof.
  revert b e. induction ops as [|op ops IH]; intros b e;
    cbn [migagent.applyCreateOps]; unfold migagent.applyCreateOp;
    walk_timeless_with ltac:(first [apply createLoop_timeless | apply IH]).
Qed.

(** On the logical clock, the operations of a plan take no time and the
    restart takes sixty seconds at most: a run of [apply] ends at most
    sixty seconds after it began, and at the very time it began when the
    restart is skipped. *)
Theorem apply_sleeps_sixty_seconds_at_most fuel ctx p (st : St W) :
  uint8_quantities (plan.CreateOperations p) → (255 ≤ fuel)%nat →
  ∃ r st' t,
    migagent.apply nodeName fuel ctx p st = Some (r, st', t)
    ∧ now st <= now st' <= now st + 60
    ∧ (restarts t = 0%nat → now st' = now st).
Proof.
  intros Hops Hfuel.
  destruct (apply_spec nodeName fuel ctx p st Hops Hfuel)
    as (flagD & errD & st1 & tdel & flagC & errC & st2 & tcre & r & st' & tres
        & Hdel & Hcre & Hrun & Hevd & Hevc & Hres).
  destruct (apply_restarts nodeName fuel ctx p st Hops Hfuel)
    as (flagD' & errD' & st1' & tdel' & flagC' & errC' & st2' & tcre' & r'
        & st'' & t & Hdel' & Hcre' & Hrun' & Hcount).
  rewrite Hdel in Hdel'. injection Hdel' as <- <- <- <-.
  rewrite Hcre in Hcre'. injection Hcre' as <- <- <- <-.
  rewrite Hrun in Hrun'. injection Hrun' as <- <- <-.
  pose proof (applyDeleteOps_timeless _ _ _ _ _ _ _ _ Hdel) as Hnow1.
  pose proof (applyCreateOps_timeless _ _ _ _ _ _ _ _ _ Hcre) as Hnow2.
  eexists _, _, _. split; [exact Hrun|]. rewrite Hcount.
  destruct (flagC || flagD).
  - split; [|done]. destruct Hres as (tr & Hrestart & _).
    destruct (restart_spec nodeName fuel ctx st2) as (r0 & st0 & t0 & Hrun0 & Hspec);
      [lia|].
    rewrite Hrestart in Hrun0. injection Hrun0 as <- <- <-.
    destruct (ListPods ctx (now st2) nodeName (world st2)) as [w1 [items|e]];
      cbn [fst snd] in Hspec; [|destruct Hspec as (_ & _ & ?); lia].
    destruct items as [|pod [|pod' items]];
      [destruct Hspec as (_ & _ & ?); lia| |destruct Hspec as (_ & _ & ?); lia].
    destruct (DeletePod ctx (now st2) pod w1) as [w2 [e|]]; cbn [fst snd] in Hspec;
      [destruct Hspec as (_ & _ & ?); lia|].
    destruct Hspec as (tw & _ & _ & ?). lia.
  - destruct Hres as (_ & _ & ->). split; [lia|]. intros _. lia.
Qed.

End ApplyTime.

(** A plan that deletes, creates and restarts the device plugin with one
    round of waiting. *)
Lemma apply_sleeps_sixty_seconds_at_most_witness :
  let p := plan.mkMigConfigPlan
             [plan.DeleteOperation.mk (fake.profile "4g.20gb")
                [fake.device "mig-1" "4g.20gb" resource.StatusFree] 1]
             [plan.CreateOperation.mk (fake.profile "7g.40gb") 1] in
  let st := fake.start (fake.healthy [] []) in
  ∃ r st' t,
    migagent.apply "node-1" 255 None p st = Some (r, st', t)
    ∧ now st <= now st' <= now st + 60
    ∧ (restarts t = 0%nat → now st' = now st).
Proof.
  intros p st.
  apply (apply_sleeps_sixty_seconds_at_most "node-1" 255 None p st).
  - repeat constructor; cbn; lia.
  - lia.
Defined.

(** ** What decides the restart and the returned error *)

Lemma isLog_no_create t : Forall isLog t → createCalls t = [].
Proof.
  induction 1 as [|e t He Ht IH]; [done|].
  rewrite createCalls_cons. by destruct e.
Qed.

Section LastOperations.

Context {W : Type} `{!MigClient W} `{!K8sClient W}.
Variable nodeName : string.

Lemma applyDeleteOps_app_run ctx ops1 ops2 b e (st : St W) res st' t :
  migagent.applyDeleteOps ctx (ops1 ++ ops2) b e st = Some (res, st', t) →
  ∃ b1 e1 st1 t1 t2,
    migagent.applyDeleteOps ctx ops1 b e st = Some ((b1, e1), st1, t1)
    ∧ migagent.applyDeleteOps ctx ops2 b1 e1 st1 = Some (res, st', t2)
    ∧ t = t1 ++ t2.
Proof.
  revert b e st t. induction ops1 as [|op ops1 IH]; intros b e st t Hrun.
  - by exists b, e, st, [], t.
  - cbn [app migagent.applyDeleteOps] in Hrun.
    apply bind_Some in Hrun as ([b0 e0] & s0 & t0 & t' & Hop & Hrest & ->).
    apply bind_Some in Hrest as (u & s0' & tl & t'' & Hlog & Hrec & ->).
    destruct (IH _ _ _ _ Hrec) as (b1 & e1 & st1 & t1 & t2 & H1 & H2 & ->).
    exists b1, e1, st1, (t0 ++ tl ++ t1), t2.
    split; [|split; [done|by rewrite <- !app_assoc]].
    cbn [migagent.applyDeleteOps].
    rewrite (bind_run _ _ _ _ _ _ Hop), (bind_run _ _ _ _ _ _ Hlog), H1. done.
Qed.

Lemma applyDeleteOps_one ctx d b e (st : St W) res st' t :
  migagent.applyDeleteOps ctx [d] b e st = Some (res, st', t) →
  ∃ td post,
    migagent.applyDeleteOp ctx d st = Some (res, st', td)
    ∧ t = td ++ post ∧ Forall isLog post.
Proof.
  intros Hrun. cbn [migagent.applyDeleteOps] in Hrun.
  apply bind_Some in Hrun as ([b0 e0] & s0 & t0 & t' & Hop & Hrest & ->).
  apply bind_Some in Hrest as (u & s0' & tl & t'' & Hlog & Hrec & ->).
  cbn in Hrec. injection Hrec as <- <- <-. exists t0, (tl ++ []).
  destruct (decide (e0 ≠ None)).
  - injection Hlog as _ <- <-. split; [done|]. split; [done|].
    by repeat constructor.
  - injection Hlog as _ <- <-. split; [done|]. split; [done|]. constructor.
Qed.

Lemma applyCreateOps_app_run fuel ctx ops1 ops2 b e (st : St W) res st' t :
  migagent.applyCreateOps fuel ctx (ops1 ++ ops2) b e st = Some (res, st', t) →
  ∃ b1 e1 st1 t1 t2,
    migagent.applyCreateOps fuel ctx ops1 b e st = Some ((b1, e1), st1, t1)
    ∧ migagent.applyCreateOps fuel ctx ops2 b1 e1 st1 = Some (res, st', t2)
    ∧ t = t1 ++ t2.
Proof.
  revert b e st t. induction ops1 as [|op ops1 IH]; intros b e st t Hrun.
  - by exists b, e, st, [], t.
  - cbn [app migagent.applyCreateOps] in Hrun.
    apply bind_Some in Hrun as ([b0 e0] & s0 & t0 & t' & Hop & Hrest & ->).
    apply bind_Some in Hrest as (u & s0' & tl & t'' & Hlog & Hrec & ->).
    destruct (IH _ _ _ _ Hrec) as (b1 & e1 & st1 & t1 & t2 & H1 & H2 & ->).
    exists b1, e1, st1, (t0 ++ tl ++ t1), t2.
    split; [|split; [done|by rewrite <- !app_assoc]].
    cbn [migagent.applyCreateOps].
    rewrite (bind_run _ _ _ _ _ _ Hop), (bind_run _ _ _ _ _ _ Hlog), H1. done.
Qed.

Lemma applyCreateOps_one fuel ctx c b e (st : St W) res st' t :
  migagent.applyCreateOps fuel ctx [c] b e st = Some (res, st', t) →
  ∃ tc post,
    migagent.applyCreateOp fuel ctx c st = Some (res, st', tc)
    ∧ t = tc ++ post ∧ Forall isLog post.
Proof.
  intros Hrun. cbn [migagent.applyCreateOps] in Hrun.
  apply bind_Some in Hrun as ([b0 e0] & s0 & t0 & t' & Hop & Hrest & ->).
  apply bind_Some in Hrest as (u & s0' & tl & t'' & Hlog & Hrec & ->).
  cbn in Hrec. injection Hrec as <- <- <-. exists t0, (tl ++ []).
  destruct (decide (e0 ≠ None)).
  - injection Hlog as _ <- <-. split; [done|]. split; [done|].
    by repeat constructor.
  - injection Hlog as _ <- <-. split; [done|]. split; [done|]. constructor.
Qed.

(** The restart is decided by the last delete operation and the last create
    operation of the plan alone.  In a run of [apply] on a plan that ends
    with the delete operation [d] and the create operation [c], the restart
    is entered exactly when a deletion of [d] or a creation of [c]
    succeeded, whatever the operations before them did; it starts where [c]
    stopped and [apply] returns what it returns; when it is not entered,
    [apply] returns the error of [c]. *)
Theorem apply_decided_by_last_operations fuel ctx dels d cres c (st : St W) :
  uint8_delete_quantities (dels ++ [d]) →
  uint8_quantities (cres ++ [c]) → (255 ≤ fuel)%nat →
  ∃ r st' t sd resd sd' td sc resc sc' tc pre mid post,
    migagent.apply nodeName fuel ctx
      (plan.mkMigConfigPlan (dels ++ [d]) (cres ++ [c])) st = Some (r, st', t)
    ∧ migagent.applyDeleteOp ctx d sd = Some (resd, sd', td)
    ∧ migagent.applyCreateOp fuel ctx c sc = Some (resc, sc', tc)
    ∧ t = pre ++ td ++ mid ++ tc ++ post
    ∧ deleteCalls mid = [] ∧ deleteCalls post = [] ∧ createCalls post = []
    ∧ (restarts t = 1%nat ↔
       succeeded (deleteCalls td) ≠ [] ∨ succeeded (createCalls tc) ≠ [])
    ∧ (restarts t = 1%nat →
       ∃ tr, migagent.restartNvidiaDevicePlugin nodeName fuel ctx sc'
             = Some (r, st', tr))
    ∧ (restarts t ≠ 1%nat → r = resc.2 ∧ st' = sc').
Proof.
  intros Hdels Hops Hfuel.
  set (p := plan.mkMigConfigPlan (dels ++ [d]) (cres ++ [c])).
  destruct (apply_spec nodeName fuel ctx p st Hops Hfuel)
    as (flagD & errD & st1 & tdel & flagC & errC & st2 & tcre & r & st' & tres
        & Hdel & Hcre & Hrun & Hevd & Hevc & Hres).
  destruct (apply_restarts nodeName fuel ctx p st Hops Hfuel)
    as (flagD' & errD' & st1' & tdel' & flagC' & errC' & st2' & tcre' & r'
        & st'' & t & Hdel' & Hcre' & Hrun' & Hcount).
  rewrite Hdel in Hdel'. injection Hdel' as <- <- <- <-.
  rewrite Hcre in Hcre'. injection Hcre' as <- <- <- <-.
  rewrite Hrun in Hrun'. injection Hrun' as <- <- <-.
  cbn [p plan.DeleteOperations plan.CreateOperations] in Hdel, Hcre.
  apply applyDeleteOps_app_run in Hdel
    as (b1 & e1 & sd & t1 & t2 & Hdel1 & Hdel2 & ->).
  apply applyDeleteOps_one in Hdel2 as (td & postd & Hd & -> & Hpostd).
  pose proof Hcre as Hcre0.
  apply applyCreateOps_app_run in Hcre
    as (b2 & e2 & sc & t3 & t4 & Hcre1 & Hcre2 & ->).
  apply applyCreateOps_one in Hcre2 as (tc & postc & Hc & -> & Hpostc).
  pose proof (applyCreateOps_emits _ _ _ _ _ _ _ _ _ Hcre1) as Hev3.
  (* the flags are those of the two operations *)
  apply Forall_app in Hdels as [_ Hd8]. apply list.Forall_cons in Hd8 as [Hd8 _].
  pose proof Hops as Hops0.
  apply Forall_app in Hops0 as [_ Hc8]. apply list.Forall_cons in Hc8 as [Hc8 _].
  destruct (applyDeleteOp_spec ctx d sd Hd8)
    as (bd & ed & sd0 & td0 & Hd0 & _ & _ & HbD & _).
  rewrite Hd in Hd0. injection Hd0 as <- <- <- <-.
  destruct (applyCreateOp_spec fuel ctx c sc Hc8)
    as (bc & ec & sc0 & tc0 & Hc0 & _ & _ & _ & _ & _ & HbC);
    [unfold is_uint8 in Hc8; lia|].
  rewrite Hc in Hc0. injection Hc0 as <- <- <- <-.
  assert (flagD = true ↔ succeeded (deleteCalls td) ≠ []) as HD.
  { rewrite HbD. rewrite Z.ltb_lt.
    destruct (succeeded (deleteCalls td)); cbn [length]; split; try done; lia. }
  assert (flagC = true ↔ succeeded (createCalls tc) ≠ []) as HC.
  { rewrite HbC. rewrite Z.ltb_lt.
    destruct (succeeded (createCalls tc)); cbn [length]; split; try done; lia. }
  (* what the restart emits holds no driver call *)
  assert (deleteCalls tres = [] ∧ createCalls tres = []) as [Hrd Hrc].
  { destruct (flagC || flagD).
    - destruct Hres as (tr & Hrestart & ->).
      destruct (restart_shape nodeName fuel ctx st2 r st' tr) as (t' & -> & Ht');
        [lia|done|].
      readers. rewrite (restartEvent_no_delete _ Ht'), (restartEvent_no_create _ Ht').
      by destruct r.
    - by destruct Hres as (-> & _). }
  exists r, st', (EvLog "applying MIG config plan" :: (t1 ++ td ++ postd)
                  ++ (t3 ++ tc ++ postc) ++ tres),
    sd, (flagD, errD), st1, td, sc, (flagC, errC), st2, tc,
    (EvLog "applying MIG config plan" :: t1), (postd ++ t3), (postc ++ tres).
  split; [exact Hrun|]. split; [done|]. split; [done|].
  split; [cbn [app]; by rewrite <- !app_assoc|].
  split. { readers. by rewrite (isLog_no_delete _ Hpostd),
                        (createOpEvent_no_delete _ Hev3). }
  split. { readers. by rewrite (isLog_no_delete _ Hpostc), Hrd. }
  split. { readers. by rewrite (isLog_no_create _ Hpostc), Hrc. }
  rewrite Hcount. cbn [snd].
  destruct flagC, flagD; cbn [orb] in *.
  - split; [split; [intros _; left; by apply HD|done]|].
    split; [|done]. intros _. destruct Hres as (tr & ? & _). by exists tr.
  - split; [split; [intros _; right; by apply HC|done]|].
    split; [|done]. intros _. destruct Hres as (tr & ? & _). by exists tr.
  - split; [split; [intros _; left; by apply HD|done]|].
    split; [|done]. intros _. destruct Hres as (tr & ? & _). by exists tr.
  - split.
    { split; [done|]. intros [H1|H1]; [by apply HD in H1|by apply HC in H1]. }
    split; [done|]. intros _. by destruct Hres as (_ & -> & ->).
Qed.

End LastOperations.

(** Two delete operations, the first succeeds, the second fails, and one
    create operation that fails: no restart, and the error is that of the
    create operation. *)
Lemma apply_decided_by_last_operations_witness :
  let dels := [plan.DeleteOperation.mk (fake.profile "1g.5gb")
                 [fake.device "mig-a" "1g.5gb" resource.StatusFree] 1] in
  let d := plan.DeleteOperation.mk (fake.profile "2g.10gb")
             [fake.device "mig-b" "2g.10gb" resource.StatusFree] 1 in
  let cres : list plan.CreateOperation.t := [] in
  let c := plan.CreateOperation.mk (fake.profile "7g.40gb") 1 in
  let st := fake.start (fake.healthy ["mig-b"] [Some fake.driverError]) in
  ∃ r st' t (sd : St fake.World) resd sd' td sc resc sc' tc pre mid post,
    migagent.apply "node-1" 255 None
      (plan.mkMigConfigPlan (dels ++ [d]) (cres ++ [c])) st = Some (r, st', t)
    ∧ migagent.applyDeleteOp None d sd = Some (resd, sd', td)
    ∧ migagent.applyCreateOp 255 None c sc = Some (resc, sc', tc)
    ∧ t = pre ++ td ++ mid ++ tc ++ post
    ∧ deleteCalls mid = [] ∧ deleteCalls post = [] ∧ createCalls post = []
    ∧ (restarts t = 1%nat ↔
       succeeded (deleteCalls td) ≠ [] ∨ succeeded (createCalls tc) ≠ [])
    ∧ (restarts t = 1%nat →
       ∃ tr, migagent.restartNvidiaDevicePlugin "node-1" 255 None sc'
             = Some (r, st', tr))
    ∧ (restarts t ≠ 1%nat → r = resc.2 ∧ st' = sc').
Proof.
  intros dels d cres c st.
  apply (apply_decided_by_last_operations "node-1" 255 None dels d cres c st).
  - repeat constructor; cbn; lia.
  - repeat constructor; cbn; lia.
  - lia.
Defined.

(** * The NVML client *)

Section ClientMonad.

Context {W : Type}.

Lemma nvml_bind_run {A B} (c : nvml.C W A) (k : A → nvml.C W B) w a w1 t1 :
  c w = (a, w1, t1) →
  nvml.bind c k w = (let '(b, w2, t2) := k a w1 in (b, w2, t1 ++ t2)).
Proof. unfold nvml.bind. by intros ->. Qed.

Lemma nvml_bind_inv {A B} (c : nvml.C W A) (k : A → nvml.C W B) w b w2 t :
  nvml.bind c k w = (b, w2, t) →
  ∃ a w1 t1 t2, c w = (a, w1, t1) ∧ k a w1 = (b, w2, t2) ∧ t = t1 ++ t2.
Proof.
  unfold nvml.bind. destruct (c w) as [[a w1] t1].
  destruct (k a w1) as [[b' w2'] t2] eqn:Hk. intros [= <- <- <-].
  by exists a, w1, t1, t2.
Qed.

Lemma nvml_call_inv {R} (f : W → W * R) ev w r w1 t :
  nvml.call f ev w = (r, w1, t) → f w = (w1, r) ∧ t = [ev r].
Proof. unfold nvml.call. destruct (f w) as [w' r']. by intros [= <- <- <-]. Qed.

Variable P : nvml.Event → Prop.

Lemma nvml_emits_ret {A} (a : A) : nvml.emits P (nvml.ret (W := W) a).
Proof. intros w a' w' t [= <- <- <-]. constructor. Qed.

Lemma nvml_emits_bind {A B} (c : nvml.C W A) (k : A → nvml.C W B) :
  nvml.emits P c → (∀ a, nvml.emits P (k a)) → nvml.emits P (nvml.bind c k).
Proof.
  intros Hc Hk w b w' t (a & w1 & t1 & t2 & H1 & H2 & ->)%nvml_bind_inv.
  apply Forall_app. split; [by eapply Hc|by eapply Hk].
Qed.

Lemma nvml_emits_call {R} (f : W → W * R) ev :
  (∀ r, P (ev r)) → nvml.emits P (nvml.call f ev).
Proof.
  intros He w r w' t [_ ->]%nvml_call_inv. by repeat constructor.
Qed.

Lemma nvml_emits_klog msg : P (nvml.EvKlog msg) → nvml.emits P (nvml.klog (W := W) msg).
Proof. intros He w a w' t [= <- <- <-]. by repeat constructor. Qed.

Lemma nvml_emits_getWorld : nvml.emits P (nvml.getWorld (W := W)).
Proof. intros w a w' t [= <- <- <-]. constructor. Qed.

End ClientMonad.

Ltac walk_nvml_with leaf :=
  repeat first
    [ leaf
    | progress cbn zeta
    | apply nvml_emits_bind; [|intros ?]
    | apply nvml_emits_ret
    | apply nvml_emits_getWorld
    | apply nvml_emits_klog; by cbn
    | apply nvml_emits_call; intros ?; by cbn
    | assumption
    | match goal with
      | |- nvml.emits _ (if ?b then _ else _) => destruct b
      | |- nvml.emits _ (match ?x with _ => _ end) => destruct x
      end ].

Section ClientFacts.

Context {W : Type} `{!nvml.Interface W}.
Variable asError : nvml.Return → option nvml.Error.
Variable nProfiles nEngineProfiles : nat.

Lemma visitMigDevices_emits id items result found :
  nvml.emits (W := W) nvml.bodyEvent
    (nvml.visitMigDevices id items result found).
Proof.
  revert result found. induction items as [|item items IH]; intros result found;
    cbn [nvml.visitMigDevices]; unfold nvml.visitForIndex;
    walk_nvml_with ltac:(apply IH).
Qed.

Lemma getGpuIndexBody_emits id :
  nvml.emits (W := W) nvml.bodyEvent (nvml.getGpuIndexBody id).
Proof.
  unfold nvml.getGpuIndexBody.
  walk_nvml_with ltac:(apply visitMigDevices_emits).
Qed.

Lemma visitInstances_emits {S} (f : _ → _ → _ → _ → S → nvml.C W (S * option nvml.Error))
    P cis j k info s :
  (∀ ci j k info s, nvml.emits P (f ci j k info s)) →
  nvml.emits P (nvml.visitInstances f cis j k info s).
Proof.
  intros Hf. revert s. induction cis as [|ci cis IH]; intros s;
    cbn [nvml.visitInstances];
    walk_nvml_with ltac:(first [apply Hf | apply IH]).
Qed.

Lemma visitEngineProfiles_emits {S}
    (f : _ → _ → _ → _ → S → nvml.C W (S * option nvml.Error)) P gi j ks s :
  (∀ ci j k info s, nvml.emits P (f ci j k info s)) →
  (∀ gi j k res, P (nvml.EvGetComputeInstanceProfileInfo gi j k res)) →
  (∀ gi info res, P (nvml.EvGetComputeInstances gi info res)) →
  nvml.emits P (nvml.visitEngineProfiles f gi j ks s).
Proof.
  intros Hf H1 H2. revert s. induction ks as [|k ks IH]; intros s;
    cbn [nvml.visitEngineProfiles];
    walk_nvml_with
      ltac:(first [apply IH | by apply visitInstances_emits
                  | apply nvml_emits_call; intros ?; first [apply H1|apply H2]]).
Qed.

Lemma visitProfiles_emits {S}
    (f : _ → _ → _ → _ → S → nvml.C W (S * option nvml.Error)) P gi js ks s :
  (∀ ci j k info s, nvml.emits P (f ci j k info s)) →
  (∀ gi j k res, P (nvml.EvGetComputeInstanceProfileInfo gi j k res)) →
  (∀ gi info res, P (nvml.EvGetComputeInstances gi info res)) →
  nvml.emits P (nvml.visitProfiles f gi js ks s).
Proof.
  intros Hf H1 H2. revert s. induction js as [|j js IH]; intros s;
    cbn [nvml.visitProfiles];
    walk_nvml_with
      ltac:(first [apply IH | by apply visitEngineProfiles_emits]).
Qed.

Lemma destroyVisitor_emits P gi ci j k info n :
  (∀ msg, P (nvml.EvKlog msg)) → (∀ r, P (nvml.EvDestroy gi r)) →
  nvml.emits (W := W) P (nvml.destroyVisitor asError gi ci j k info n).
Proof.
  intros H1 H2. unfold nvml.destroyVisitor.
  walk_nvml_with
    ltac:(first [apply nvml_emits_klog; apply H1
                | apply nvml_emits_call; intros ?; apply H2]).
Qed.

Lemma deleteMigDeviceBody_emits id :
  nvml.emits (W := W) nvml.bodyEvent
    (nvml.deleteMigDeviceBody asError nProfiles nEngineProfiles id).
Proof.
  unfold nvml.deleteMigDeviceBody, nvml.visitComputeInstances.
  walk_nvml_with
    ltac:(first [ apply visitProfiles_emits;
                    [intros; unfold nvml.destroyVisitor; walk_nvml_with fail
                    |by intros|by intros] ]).
Qed.

(** A call of the client that passed [init]: the body, then the deferred
    [shutdown]. *)
Lemma deferred_shutdown {A} (body : nvml.C W A) (fail : nvml.Error → A)
    w res w' t :
  nvml.emits nvml.bodyEvent body →
  nvml.bind nvml.init
    (λ err, match err with
            | Some e => nvml.ret (fail e)
            | None =>
                nvml.bind body
                  (λ res, nvml.bind nvml.shutdown (λ _, nvml.ret res))
            end) w = (res, w', t) →
  let r := (nvml.Init w).2 in
  if decide (r = nvml.SUCCESS)
  then ∃ a w1 tb r',
      body (nvml.Init w).1 = (a, w1, tb)
      ∧ res = a
      ∧ t = nvml.EvInit nvml.SUCCESS :: tb ++ nvml.shutdownEvents r'
      ∧ Forall nvml.bodyEvent tb
      ∧ nvml.Shutdown w1 = (w', r')
  else res = fail (nvml.ErrInit r) ∧ t = [nvml.EvInit r] ∧ w' = (nvml.Init w).1.
Proof.
  intros Hbody Hrun. cbn zeta.
  apply nvml_bind_inv in Hrun as (err & w0 & t0 & t1 & Hinit & Hrest & ->).
  unfold nvml.init in Hinit.
  apply nvml_bind_inv in Hinit as (r & w0' & ti & ti' & Hcall & Hdec & ->).
  apply nvml_call_inv in Hcall as [Hcall ->]. rewrite Hcall. cbn [fst snd].
  destruct (decide (r = nvml.SUCCESS)) as [->|Hne].
  - rewrite decide_False in Hdec by (intros Hx; by apply Hx).
    injection Hdec as <- <- <-.
    apply nvml_bind_inv in Hrest as (a & w1 & tb & t2 & Hb & Hshut & ->).
    apply nvml_bind_inv in Hshut as (u & w2 & ts & t3 & Hs & Hret & ->).
    injection Hret as <- <- <-.
    unfold nvml.shutdown in Hs.
    apply nvml_bind_inv in Hs as (r' & w3 & tc & t4 & Hc & Hlog & ->).
    apply nvml_call_inv in Hc as [Hc ->].
    exists a, w1, tb, r'. split; [done|]. split; [done|].
    assert (w3 = w2 ∧ t4 = (if decide (r' ≠ nvml.SUCCESS)
                            then [nvml.EvKlog "unable to shut down NVML"]
                            else [])) as [-> ->].
    { destruct (decide (r' ≠ nvml.SUCCESS)); by injection Hlog as _ <- <-. }
    split; [by rewrite !app_nil_r|]. split; [by eapply Hbody|done].
  - rewrite decide_True in Hdec by done. injection Hdec as <- <- <-.
    by injection Hrest as <- <- <-.
Qed.

End ClientFacts.

Lemma destroys_app t1 t2 :
  nvml.destroys (t1 ++ t2) = nvml.destroys t1 ++ nvml.destroys t2.
Proof. apply omap_app. Qed.

Lemma uuidQueries_app t1 t2 :
  nvml.uuidQueries (t1 ++ t2) = nvml.uuidQueries t1 ++ nvml.uuidQueries t2.
Proof. apply omap_app. Qed.

Lemma bodyEvent_shutdownEvents_queries r :
  nvml.uuidQueries (nvml.shutdownEvents r) = []
  ∧ nvml.destroys (nvml.shutdownEvents r) = [].
Proof. unfold nvml.shutdownEvents. by destruct (decide (r ≠ nvml.SUCCESS)). Qed.

Section GetGpuIndexFacts.

Context {W : Type} `{!nvml.Interface W}.

Lemma visitMigDevices_found id items result (w : W) res found' err w' t :
  nvml.visitMigDevices id items result true w = ((res, found', err), w', t) →
  nvml.uuidQueries t = [] ∧ (err = None → res = result ∧ found' = true)
  ∧ (∀ id', err ≠ Some (nvml.ErrNotFound id')).
Proof.
  revert w t. induction items as [|item items IH]; intros w t Hrun.
  - cbn in Hrun. by injection Hrun as <- <- <- <- <-.
  - cbn [nvml.visitMigDevices] in Hrun. destruct item as [g mi m|e].
    + unfold nvml.visitForIndex in Hrun.
      apply nvml_bind_inv in Hrun as ([[r0 f0] e0] & w1 & t1 & t2 & H1 & H2 & ->).
      cbn in H1. injection H1 as <- <- <- <- <-. cbn [app].
      by apply IH in H2.
    + cbn in Hrun. by injection Hrun as <- <- <- <- <-.
Qed.

Lemma visitMigDevices_search id items result (w : W) res found' err w' t :
  nvml.visitMigDevices id items result false w = ((res, found', err), w', t) →
  match err with
  | Some e => ∀ id', e ≠ nvml.ErrNotFound id'
  | None =>
      if found'
      then ∃ earlier mi m,
          nvml.uuidQueries t = earlier ++ [(m, (id, nvml.SUCCESS))]
          ∧ Forall (nvml.miss id) earlier
          ∧ nvml.visited items !! length earlier = Some (res, mi, m)
      else Forall (nvml.miss id) (nvml.uuidQueries t)
           ∧ (nvml.uuidQueries t).*1 = (nvml.visited items).*2
  end.
Proof.
  revert w t. induction items as [|item items IH]; intros w t Hrun.
  - cbn in Hrun. injection Hrun as <- <- <- <- <-. by split.
  - cbn [nvml.visitMigDevices] in Hrun. destruct item as [g mi m|e];
      [|cbn in Hrun; by injection Hrun as <- <- <- <- <-].
    unfold nvml.visitForIndex in Hrun.
    apply nvml_bind_inv in Hrun as ([[r0 f0] e0] & w1 & t1 & t2 & H1 & H2 & ->).
    apply nvml_bind_inv in H1 as ([uuid r] & w2 & tq & t3 & Hq & H3 & ->).
    apply nvml_call_inv in Hq as [Hq ->].
    destruct (decide (r ≠ nvml.SUCCESS)) as [Hr|Hr].
    { cbn in H3. injection H3 as <- <- <- <- <-. cbn in H2.
      by injection H2 as <- <- <- <- <-. }
    apply dec_stable in Hr. subst r.
    apply nvml_bind_inv in H3 as (u & w3 & tl & t4 & Hl & H4 & ->).
    injection Hl as _ <- <-.
    destruct (decide (uuid = id)) as [->|Hne].
    + cbn in H4. injection H4 as <- <- <- <- <-.
      apply visitMigDevices_found in H2 as (Hnone & Hres & Hnf).
      destruct err as [e'|]; [intros id' ->; by eapply Hnf|].
      destruct (Hres eq_refl) as [-> ->].
      exists [], mi, m. rewrite !uuidQueries_app, Hnone. by repeat split.
    + cbn in H4. injection H4 as <- <- <- <- <-.
      apply IH in H2. destruct err; [done|]. destruct found'.
      * destruct H2 as (earlier & mi' & m' & Hqs & Hall & Hlook).
        exists ((m, (uuid, nvml.SUCCESS)) :: earlier), mi', m'.
        rewrite !uuidQueries_app, Hqs. split; [done|].
        split; [by constructor|done].
      * destruct H2 as [Hall Heq]. rewrite !uuidQueries_app.
        split; [by constructor|]. cbn. by rewrite Heq.
Qed.

(** [GetGpuIndex] answers with the GPU index of the first MIG device, in
    the order of the visit, whose UUID is [id]: the devices before it were
    asked for their UUID and answered with another one, it is the last
    device asked.  It answers "not found" only after every device was asked
    and answered with another UUID.  With an error the index is 0. *)
Theorem GetGpuIndex_first_match id (w : W) i err w' t :
  nvml.GetGpuIndex id w = ((i, err), w', t) →
  let devices := nvml.visited (nvml.MigDevices (nvml.Init w).1) in
  (err = None →
   ∃ earlier mi m,
     nvml.uuidQueries t = earlier ++ [(m, (id, nvml.SUCCESS))]
     ∧ Forall (nvml.miss id) earlier
     ∧ devices !! length earlier = Some (i, mi, m))
  ∧ (err = Some (nvml.ErrNotFound id) →
     Forall (nvml.miss id) (nvml.uuidQueries t)
     ∧ (nvml.uuidQueries t).*1 = devices.*2)
  ∧ (is_Some err → i = 0).
Proof.
  intros Hrun. cbn zeta. unfold nvml.GetGpuIndex in Hrun.
  apply (deferred_shutdown (nvml.getGpuIndexBody id) (λ e, (0, Some e)))
    in Hrun; [|apply getGpuIndexBody_emits].
  cbn zeta in Hrun.
  destruct (decide ((nvml.Init w).2 = nvml.SUCCESS)) as [Hinit|Hinit].
  2:{ destruct Hrun as ([= -> ->] & -> & ->). by repeat split. }
  destruct Hrun as (a & w1 & tb & r' & Hbody & <- & -> & _ & _).
  unfold nvml.getGpuIndexBody in Hbody.
  apply nvml_bind_inv in Hbody as (u & w2 & tl & t2 & Hl & H2 & ->).
  injection Hl as _ <- <-.
  apply nvml_bind_inv in H2 as (w0 & w3 & tg & t3 & Hg & H3 & ->).
  injection Hg as <- <- <-.
  apply nvml_bind_inv in H3 as ([[res found] e] & w4 & tv & t4 & Hv & H4 & ->).
  pose proof (visitMigDevices_search _ _ _ _ _ _ _ _ _ Hv) as Hsearch.
  assert (nvml.uuidQueries
            (nvml.EvInit nvml.SUCCESS
             :: ([nvml.EvKlog "retrieving GPU index of MIG device"]
                 ++ [] ++ tv ++ t4) ++ nvml.shutdownEvents r')
          = nvml.uuidQueries tv ++ nvml.uuidQueries t4) as Hq.
  { change (nvml.EvInit nvml.SUCCESS :: ?l) with ([nvml.EvInit nvml.SUCCESS] ++ l).
    rewrite !uuidQueries_app.
    by rewrite (proj1 (bodyEvent_shutdownEvents_queries r')), app_nil_r. }
  rewrite Hq. clear Hq.
  destruct e as [e|].
  { injection H4 as <- <- <- <-. split; [done|]. split; [|done].
    intros [= ->]. by destruct (Hsearch id). }
  destruct found; cbn [negb] in H4; injection H4 as <- <- <- <-.
  - rewrite app_nil_r. split; [by intros _|]. split; [done|by intros [? [=]]].
  - rewrite app_nil_r. split; [done|]. split; [by intros _|done].
Qed.

End GetGpuIndexFacts.

(** The MIG device of the second GPU is asked for. *)
Lemma GetGpuIndex_first_match_witness :
  let id := "MIG-bbb" in
  let w := nvml.script.twoGpus in
  ∃ i err w' t,
    nvml.GetGpuIndex id w = ((i, err), w', t)
    ∧ let devices := nvml.visited (nvml.MigDevices (nvml.Init w).1) in
      (err = None →
       ∃ earlier mi m,
         nvml.uuidQueries t = earlier ++ [(m, (id, nvml.SUCCESS))]
         ∧ Forall (nvml.miss id) earlier
         ∧ devices !! length earlier = Some (i, mi, m))
      ∧ (err = Some (nvml.ErrNotFound id) →
         Forall (nvml.miss id) (nvml.uuidQueries t)
         ∧ (nvml.uuidQueries t).*1 = devices.*2)
      ∧ (is_Some err → i = 0).
Proof.
  intros id w. eexists _, _, _, _. split; [vm_compute; reflexivity|].
  eapply (GetGpuIndex_first_match id w). vm_compute. reflexivity.
Defined.

(** The same call, evaluated: index 1 after two UUID queries. *)
Example GetGpuIndex_second_gpu :
  ∃ t,
    nvml.GetGpuIndex "MIG-bbb" nvml.script.twoGpus
    = ((1, None), nvml.script.twoGpus, t)
    ∧ nvml.uuidQueries t
      = [(nvml.migDevice 11, ("MIG-aaa", nvml.SUCCESS));
         (nvml.migDevice 12, ("MIG-bbb", nvml.SUCCESS))].
Proof. eexists. split; vm_compute; reflexivity. Qed.

Section DeleteMigDeviceFacts.

Context {W : Type} `{!nvml.Interface W}.
Variable asError : nvml.Return → option nvml.Error.
Variable nProfiles nEngineProfiles : nat.

(** Both entry points of the client start with [Init].  When [Init] fails
    they return its error and call nothing else, not even [Shutdown]; when
    it succeeds, [Shutdown] is called once, after everything else, whatever
    the call returns, and its failure is only logged. *)
Theorem client_init_and_shutdown id (w : W) :
  let r := (nvml.Init w).2 in
  let get := nvml.GetGpuIndex id w in
  let del := nvml.DeleteMigDevice asError nProfiles nEngineProfiles id w in
  if decide (r = nvml.SUCCESS)
  then (∃ body r',
          get.2 = nvml.EvInit nvml.SUCCESS :: body ++ nvml.shutdownEvents r'
          ∧ Forall nvml.bodyEvent body)
       ∧ (∃ body r',
            del.2 = nvml.EvInit nvml.SUCCESS :: body ++ nvml.shutdownEvents r'
            ∧ Forall nvml.bodyEvent body)
  else get = ((0, Some (nvml.ErrInit r)), (nvml.Init w).1, [nvml.EvInit r])
       ∧ del = (Some (nvml.ErrInit r), (nvml.Init w).1, [nvml.EvInit r]).
Proof.
  cbn zeta.
  destruct (nvml.GetGpuIndex id w) as [[res1 w1] t1] eqn:Hget.
  destruct (nvml.DeleteMigDevice asError nProfiles nEngineProfiles id w)
    as [[res2 w2] t2] eqn:Hdel.
  unfold nvml.GetGpuIndex in Hget. unfold nvml.DeleteMigDevice in Hdel.
  apply (deferred_shutdown (nvml.getGpuIndexBody id) (λ e, (0, Some e)))
    in Hget; [|apply getGpuIndexBody_emits].
  apply (deferred_shutdown
           (nvml.deleteMigDeviceBody asError nProfiles nEngineProfiles id) Some)
    in Hdel; [|apply deleteMigDeviceBody_emits].
  cbn zeta in Hget, Hdel.
  destruct (decide ((nvml.Init w).2 = nvml.SUCCESS)).
  - destruct Hget as (a1 & w1' & tb1 & r1 & _ & _ & -> & Hb1 & _).
    destruct Hdel as (a2 & w2' & tb2 & r2 & _ & _ & -> & Hb2 & _).
    split; by eexists _, _.
  - destruct Hget as (-> & -> & ->). by destruct Hdel as (-> & -> & ->).
Qed.

Lemma destroyOutcome_nil err : nvml.destroyOutcome asError err [].
Proof. split; [done|]. by intros [|??] ?. Qed.

Lemma destroyOutcome_one gi r :
  nvml.destroyOutcome asError (asError r) [(gi, r)].
Proof.
  split.
  - intros Hr. by repeat constructor.
  - intros [|? [|??]] x [=]; subst. by split.
Qed.

Lemma destroyOutcome_app err d1 d2 :
  nvml.destroyOutcome asError None d1 →
  nvml.destroyOutcome asError err d2 →
  nvml.destroyOutcome asError err (d1 ++ d2).
Proof.
  intros [Hok1 _] [Hok2 Hlast2]. specialize (Hok1 eq_refl). split.
  - intros Herr. apply Forall_app. split; [done|by apply Hok2].
  - intros pre x Heq. destruct d2 as [|y d2 _] using rev_ind.
    + rewrite app_nil_r in Heq. subst d1.
      apply Forall_app in Hok1 as [Hpre Hx]. split; [done|].
      intros Hbad. by inversion Hx.
    + rewrite app_assoc in Heq. apply app_inj_tail in Heq as [<- <-].
      destruct (Hlast2 d2 y eq_refl) as [Hpre Hy]. split; [|done].
      apply Forall_app. by split.
Qed.

(** When a [Return] handed back as an [error] is never [nil], a visit
    destroys once at most, and what that call returned is its error. *)
Lemma destroyOutcome_never_nil err ds :
  (∀ r, is_Some (asError r)) →
  nvml.destroyOutcome asError err ds →
  (ds = [] ∨ ∃ x e, ds = [x] ∧ asError x.2 = Some e ∧ err = Some e).
Proof.
  intros Hgo [_ Hlast]. destruct ds as [|x pre _] using rev_ind; [by left|].
  right. destruct (Hlast pre x eq_refl) as [Hpre Hx].
  destruct (Hgo x.2) as [e He]. exists x, e.
  destruct pre as [|y pre].
  - split; [done|]. split; [done|]. rewrite <-He. apply Hx.
    unfold nvml.destroyedOk. by rewrite He.
  - inversion Hpre as [|?? Hy _]. unfold nvml.destroyedOk in Hy.
    destruct (Hgo y.2) as [? Hy']. by rewrite Hy' in Hy.
Qed.

Lemma visitOutcome_quiet n err t :
  nvml.destroys t = [] → nvml.visitOutcome asError n n err t.
Proof. intros Ht. split; [done|]. rewrite Ht. apply destroyOutcome_nil. Qed.

Lemma visitOutcome_skip n n' err t1 t2 :
  nvml.destroys t1 = [] →
  nvml.visitOutcome asError n n' err t2 →
  nvml.visitOutcome asError n n' err (t1 ++ t2).
Proof. intros Ht. unfold nvml.visitOutcome. by rewrite destroys_app, Ht. Qed.

(** Two parts of a visit in sequence, the second run only when the first
    returned no error. *)
Lemma visitOutcome_seq n n1 n' err t1 t2 :
  nvml.visitOutcome asError n n1 None t1 →
  nvml.visitOutcome asError n1 n' err t2 →
  nvml.visitOutcome asError n n' err (t1 ++ t2).
Proof.
  intros [Hn1 Hd1] [Hn2 Hd2]. unfold nvml.visitOutcome. rewrite destroys_app.
  split.
  - intros [H5 H6]%app_eq_nil. rewrite (Hn2 H6). by apply Hn1.
  - by apply destroyOutcome_app.
Qed.

Lemma visitOutcome_stop n n' e t :
  nvml.visitOutcome asError n n' (Some e) t →
  nvml.visitOutcome asError n n' (Some e) (t ++ []).
Proof. by rewrite app_nil_r. Qed.

Lemma visitInstances_outcome gi cis j k info n (w : W) n' err w' t :
  nvml.visitInstances (nvml.destroyVisitor asError gi) cis j k info n w
    = ((n', err), w', t) →
  nvml.visitOutcome asError n n' err t.
Proof.
  revert n w t. induction cis as [|ci cis IH]; intros n w t Hrun.
  - cbn in Hrun. injection Hrun as <- <- <- <-. by apply visitOutcome_quiet.
  - cbn [nvml.visitInstances] in Hrun.
    apply nvml_bind_inv in Hrun as ([m1 e1] & w1 & t1 & t2 & Hf & Hrest & ->).
    unfold nvml.destroyVisitor in Hf.
    apply nvml_bind_inv in Hf as (u & w2 & tl & t3 & Hl & Hf & ->).
    injection Hl as _ <- <-.
    apply nvml_bind_inv in Hf as (r & w3 & tc & t4 & Hc & Hret & ->).
    apply nvml_call_inv in Hc as [Hc ->]. injection Hret as <- <- <- <-.
    pose proof (destroyOutcome_one gi r) as Hone.
    destruct (asError r) as [e|] eqn:He.
    + injection Hrest as <- <- <- <-. split; [done|]. apply Hone.
    + apply IH in Hrest as [_ Hd]. split; [done|].
      by apply (destroyOutcome_app _ [(gi, r)]).
Qed.

Lemma visitEngineProfiles_outcome gi j ks n (w : W) n' err w' t :
  nvml.visitEngineProfiles (nvml.destroyVisitor asError gi) gi j ks n w
    = ((n', err), w', t) →
  nvml.visitOutcome asError n n' err t.
Proof.
  revert n w t. induction ks as [|k ks IH]; intros n w t Hrun.
  - cbn in Hrun. injection Hrun as <- <- <- <-. by apply visitOutcome_quiet.
  - cbn [nvml.visitEngineProfiles] in Hrun.
    apply nvml_bind_inv in Hrun as ([info r] & w1 & t1 & t2 & Hc & Hrest & ->).
    apply nvml_call_inv in Hc as [Hc ->].
    destruct (decide (r = nvml.ERROR_NOT_SUPPORTED)).
    { apply visitOutcome_skip; [done|]. by apply IH in Hrest. }
    destruct (decide (r = nvml.ERROR_INVALID_ARGUMENT)).
    { apply visitOutcome_skip; [done|]. by apply IH in Hrest. }
    destruct (decide (r ≠ nvml.SUCCESS)).
    { injection Hrest as <- <- <- <-. by apply visitOutcome_quiet. }
    apply visitOutcome_skip; [done|].
    apply nvml_bind_inv in Hrest as ([cis r2] & w2 & t3 & t4 & Hc2 & Hrest & ->).
    apply nvml_call_inv in Hc2 as [Hc2 ->].
    destruct (decide (r2 ≠ nvml.SUCCESS)).
    { injection Hrest as <- <- <- <-. by apply visitOutcome_quiet. }
    apply visitOutcome_skip; [done|].
    apply nvml_bind_inv in Hrest as ([m1 e1] & w3 & t5 & t6 & Hv & Hrest & ->).
    apply visitInstances_outcome in Hv.
    destruct e1 as [e1|].
    { injection Hrest as <- <- <- <-. by apply visitOutcome_stop. }
    apply IH in Hrest. by eapply visitOutcome_seq.
Qed.

Lemma visitProfiles_outcome gi js ks n (w : W) n' err w' t :
  nvml.visitProfiles (nvml.destroyVisitor asError gi) gi js ks n w
    = ((n', err), w', t) →
  nvml.visitOutcome asError n n' err t.
Proof.
  revert n w t. induction js as [|j js IH]; intros n w t Hrun.
  - cbn in Hrun. injection Hrun as <- <- <- <-. by apply visitOutcome_quiet.
  - cbn [nvml.visitProfiles] in Hrun.
    apply nvml_bind_inv in Hrun as ([m1 e1] & w1 & t1 & t2 & Hv & Hrest & ->).
    apply visitEngineProfiles_outcome in Hv.
    destruct e1 as [e1|].
    { injection Hrest as <- <- <- <-. by apply visitOutcome_stop. }
    apply IH in Hrest. by eapply visitOutcome_seq.
Qed.

Lemma targets_destroys gi t :
  Forall (nvml.targets gi) t → Forall (λ x, x.1 = gi) (nvml.destroys t).
Proof.
  induction 1 as [|e t He _ IH]; [constructor|].
  destruct e; try exact IH. cbn in He. subst. by constructor.
Qed.

Lemma visitComputeInstances_targets gi n (w : W) res w' t :
  nvml.visitComputeInstances nProfiles nEngineProfiles gi
    (nvml.destroyVisitor asError gi) n w = (res, w', t) →
  Forall (nvml.targets gi) t.
Proof.
  apply visitProfiles_emits; [|done..].
  intros. by apply destroyVisitor_emits.
Qed.

Lemma deleteMigDeviceBody_cases id (w : W) res w' t :
  nvml.deleteMigDeviceBody asError nProfiles nEngineProfiles id w = (res, w', t) →
  (nvml.destroys t = [] ∧ is_Some res)
  ∨ (∃ d giId parent r,
       r ≠ nvml.SUCCESS ∧ res = asError r
       ∧ t = [nvml.EvDeviceGetHandleByUUID id (d, nvml.SUCCESS);
              nvml.EvIsMigDeviceHandle d (true, nvml.SUCCESS);
              nvml.EvGetGpuInstanceId d (giId, nvml.SUCCESS);
              nvml.EvGetDeviceHandleFromMigDeviceHandle d (parent, r)])
  ∨ nvml.reachedVisit asError nProfiles nEngineProfiles id w res w' t.
Proof.
  intros Hrun. unfold nvml.deleteMigDeviceBody in Hrun.
  apply nvml_bind_inv in Hrun as ([d r1] & w1 & t1 & t2 & Hc & Hrun & ->).
  apply nvml_call_inv in Hc as [Hc1 ->].
  destruct (decide (r1 ≠ nvml.SUCCESS)) as [H1|H1].
  { injection Hrun as <- <- <-. left. split; [done|]. by eexists. }
  apply dec_stable in H1. subst r1.
  apply nvml_bind_inv in Hrun as ([isMig r2] & w2 & t3 & t4 & Hc & Hrun & ->).
  apply nvml_call_inv in Hc as [Hc2 ->].
  destruct (decide (r2 ≠ nvml.SUCCESS)) as [H2|H2].
  { injection Hrun as <- <- <-. left. split; [done|]. by eexists. }
  apply dec_stable in H2. subst r2.
  destruct isMig; cbn [negb] in Hrun.
  2:{ injection Hrun as <- <- <-. left. split; [done|]. by eexists. }
  apply nvml_bind_inv in Hrun as ([giId r3] & w3 & t5 & t6 & Hc & Hrun & ->).
  apply nvml_call_inv in Hc as [Hc3 ->].
  destruct (decide (r3 ≠ nvml.SUCCESS)) as [H3|H3].
  { injection Hrun as <- <- <-. left. split; [done|]. by eexists. }
  apply dec_stable in H3. subst r3.
  apply nvml_bind_inv in Hrun as ([parent r4] & w4 & t7 & t8 & Hc & Hrun & ->).
  apply nvml_call_inv in Hc as [Hc4 ->].
  destruct (decide (r4 ≠ nvml.SUCCESS)) as [H4|H4].
  { injection Hrun as <- <- <-. right. left. by exists d, giId, parent, r4. }
  apply dec_stable in H4. subst r4.
  apply nvml_bind_inv in Hrun as ([gi r5] & w5 & t9 & t10 & Hc & Hrun & ->).
  apply nvml_call_inv in Hc as [Hc5 ->].
  destruct (decide (r5 ≠ nvml.SUCCESS)) as [H5|H5].
  { injection Hrun as <- <- <-. left. split; [done|]. by eexists. }
  apply dec_stable in H5. subst r5.
  apply nvml_bind_inv in Hrun as ([n err] & w6 & tv & t11 & Hv & Hrun & ->).
  right. right. exists d, giId, parent, gi, w5, n, err, w6, tv, t11.
  split; [done|]. split; [done|].
  destruct err as [e|]; [by injection Hrun as <- <- <-|].
  destruct (decide (n = 0)); [by injection Hrun as <- <- <-|].
  apply nvml_bind_inv in Hrun as (u & w7 & tl & t12 & Hl & Hrun & ->).
  injection Hl as _ <- <-.
  apply nvml_bind_inv in Hrun as (r & w8 & tc & t13 & Hc & Hret & ->).
  apply nvml_call_inv in Hc as [Hc6 ->]. injection Hret as <- <- <-.
  by exists r.
Qed.

(** [DeleteMigDevice] after a successful [Init]: its body, then the
    shutdown, which destroys nothing. *)
Lemma DeleteMigDevice_body id (w : W) res w' t :
  nvml.DeleteMigDevice asError nProfiles nEngineProfiles id w = (res, w', t) →
  (res = Some (nvml.ErrInit (nvml.Init w).2) ∧ t = [nvml.EvInit (nvml.Init w).2])
  ∨ ∃ w1 tb r',
      nvml.deleteMigDeviceBody asError nProfiles nEngineProfiles id
        (nvml.Init w).1 = (res, w1, tb)
      ∧ t = nvml.EvInit nvml.SUCCESS :: tb ++ nvml.shutdownEvents r'
      ∧ nvml.destroys t = nvml.destroys tb.
Proof.
  intros Hrun. unfold nvml.DeleteMigDevice in Hrun.
  apply (deferred_shutdown
           (nvml.deleteMigDeviceBody asError nProfiles nEngineProfiles id) Some)
    in Hrun; [|apply deleteMigDeviceBody_emits].
  cbn zeta in Hrun. destruct (decide ((nvml.Init w).2 = nvml.SUCCESS)).
  - destruct Hrun as (a & w1 & tb & r' & Hb & -> & -> & _ & _).
    right. exists w1, tb, r'. split; [done|]. split; [done|].
    change (nvml.EvInit nvml.SUCCESS :: tb ++ nvml.shutdownEvents r')
      with ([nvml.EvInit nvml.SUCCESS] ++ tb ++ nvml.shutdownEvents r').
    rewrite !destroys_app.
    destruct (bodyEvent_shutdownEvents_queries r') as [_ ->].
    by rewrite app_nil_r.
  - destruct Hrun as (-> & -> & _). by left.
Qed.

(** [DeleteMigDevice] destroys nothing before it has found the device by
    its UUID, seen that it is a MIG device, read its GPU instance id, found
    the parent GPU and found the GPU instance, these five calls being the
    first after [Init]; and everything it destroys, in the visit of the
    compute instances too, is that GPU instance. *)
Theorem DeleteMigDevice_destroys_its_gpu_instance_only id (w : W) res w' t :
  nvml.DeleteMigDevice asError nProfiles nEngineProfiles id w = (res, w', t) →
  nvml.destroys t ≠ [] →
  ∃ d giId parent gi rest,
    t = nvml.EvInit nvml.SUCCESS
        :: [nvml.EvDeviceGetHandleByUUID id (d, nvml.SUCCESS);
            nvml.EvIsMigDeviceHandle d (true, nvml.SUCCESS);
            nvml.EvGetGpuInstanceId d (giId, nvml.SUCCESS);
            nvml.EvGetDeviceHandleFromMigDeviceHandle d (parent, nvml.SUCCESS);
            nvml.EvGetGpuInstanceById parent giId (gi, nvml.SUCCESS)]
        ++ rest
    ∧ Forall (λ x, x.1 = gi) (nvml.destroys t).
Proof.
  intros Hrun Hsome.
  apply DeleteMigDevice_body in Hrun as [[-> ->]|(w1 & tb & r' & Hb & -> & Hd)];
    [done|].
  rewrite Hd in Hsome |- *.
  apply deleteMigDeviceBody_cases in Hb
    as [[Hnone _]|[(? & ? & ? & ? & _ & _ & ->)|Hreach]]; [done..|].
  destruct Hreach
    as (d & giId & parent & gi & w5 & n & err & w6 & tv & rest & -> & Hv & Hres).
  exists d, giId, parent, gi, ((tv ++ rest) ++ nvml.shutdownEvents r').
  split; [by rewrite <-!app_assoc|].
  rewrite !destroys_app. apply Forall_app. split; [by constructor|].
  apply Forall_app. split.
  - apply targets_destroys. by eapply visitComputeInstances_targets.
  - destruct err as [e|]; [by destruct Hres as [_ ->]|].
    destruct (decide (n = 0)); [by destruct Hres as [_ ->]|].
    destruct Hres as (r & -> & _). by repeat constructor.
Qed.

(** When a [Return] handed back as an [error] is never [nil],
    [DeleteMigDevice] never returns [nil]: it fails before destroying
    anything, or it destroys the GPU instance once, at the first compute
    instance it visits, and reports what that call returned as the error of
    destroying the compute instances. *)
Theorem DeleteMigDevice_fails_when_Return_is_never_nil id (w : W) res w' t :
  (∀ r, is_Some (asError r)) →
  nvml.DeleteMigDevice asError nProfiles nEngineProfiles id w = (res, w', t) →
  is_Some res
  ∧ (nvml.destroys t = []
     ∨ ∃ x e, nvml.destroys t = [x] ∧ asError x.2 = Some e
              ∧ res = Some (nvml.ErrDestroyingComputeInstances e)).
Proof.
  intros Hgo Hrun.
  apply DeleteMigDevice_body in Hrun as [[-> ->]|(w1 & tb & r' & Hb & -> & Hd)].
  { split; [by eexists|]. by left. }
  rewrite Hd.
  apply deleteMigDeviceBody_cases in Hb
    as [[Hnone Hres]|[(? & ? & ? & r & _ & -> & ->)|Hreach]].
  { split; [done|by left]. }
  { split; [apply Hgo|by left]. }
  destruct Hreach
    as (d & giId & parent & gi & w5 & n & err & w6 & tv & rest & -> & Hv & Hres).
  apply visitProfiles_outcome in Hv as [Hn Hds].
  apply (destroyOutcome_never_nil _ _ Hgo) in Hds.
  rewrite !destroys_app. cbn [nvml.destroys omap app].
  destruct Hds as [Hnil|(x & e & Hx & He & ->)].
  - rewrite Hnil. specialize (Hn Hnil). subst n.
    destruct err as [e|]; destruct Hres as [-> ->]; (split; [by eexists|by left]).
  - destruct Hres as [-> ->]. split; [by eexists|]. right.
    exists x, e. by rewrite Hx.
Qed.

(** When [DeleteMigDevice] returns [nil], either its run is [Init], the
    three first lookups, the lookup of the parent GPU that failed with a
    [Return] that reads as [nil], and the shutdown, and nothing was
    destroyed; or the GPU instance was destroyed twice at least, once for a
    compute instance and once at the end, each time with a [Return] that
    reads as [nil]. *)
Theorem DeleteMigDevice_nil_after_two_destroys id (w : W) w' t :
  nvml.DeleteMigDevice asError nProfiles nEngineProfiles id w = (None, w', t) →
  (nvml.destroys t = []
   ∧ ∃ d giId parent r r',
       r ≠ nvml.SUCCESS ∧ asError r = None
       ∧ t = nvml.EvInit nvml.SUCCESS
             :: [nvml.EvDeviceGetHandleByUUID id (d, nvml.SUCCESS);
                 nvml.EvIsMigDeviceHandle d (true, nvml.SUCCESS);
                 nvml.EvGetGpuInstanceId d (giId, nvml.SUCCESS);
                 nvml.EvGetDeviceHandleFromMigDeviceHandle d (parent, r)]
             ++ nvml.shutdownEvents r')
  ∨ ((2 ≤ length (nvml.destroys t))%nat
     ∧ Forall (nvml.destroyedOk asError) (nvml.destroys t)).
Proof.
  intros Hrun.
  apply DeleteMigDevice_body in Hrun as [[[=] _]|(w1 & tb & r' & Hb & -> & Hd)].
  rewrite Hd.
  apply deleteMigDeviceBody_cases in Hb
    as [[Hnone [? [=]]]|[(d & giId & parent & r & Hr & Hres & ->)|Hreach]].
  { left. split; [done|]. by exists d, giId, parent, r, r'. }
  right. destruct Hreach
    as (d & giId & parent & gi & w5 & n & err & w6 & tv & rest & -> & Hv & Hres).
  apply visitProfiles_outcome in Hv as [Hn [Hok _]].
  destruct err as [e|]; [by destruct Hres as [[=] _]|].
  destruct (decide (n = 0)) as [|Hn0]; [by destruct Hres as [[=] _]|].
  destruct Hres as (r & -> & Hr). symmetry in Hr. specialize (Hok eq_refl).
  rewrite !destroys_app. cbn [nvml.destroys omap app].
  destruct (nvml.destroys tv) as [|x ds]; [by specialize (Hn eq_refl)|].
  split.
  - cbn. rewrite length_app. cbn. lia.
  - apply Forall_app_2; [by cbn|]. apply Forall_app_2; [exact Hok|].
    cbn. constructor; [exact Hr|constructor].
Qed.

End DeleteMigDeviceFacts.

Lemma DeleteMigDevice_destroys_its_gpu_instance_only_witness :
  ∃ res w' t,
    nvml.DeleteMigDevice nvml.script.returnAsError 2 2 "MIG-bbb"
      nvml.script.twoGpus = (res, w', t)
    ∧ nvml.destroys t ≠ []
    ∧ ∃ d giId parent gi rest,
        t = nvml.EvInit nvml.SUCCESS
            :: [nvml.EvDeviceGetHandleByUUID "MIG-bbb" (d, nvml.SUCCESS);
                nvml.EvIsMigDeviceHandle d (true, nvml.SUCCESS);
                nvml.EvGetGpuInstanceId d (giId, nvml.SUCCESS);
                nvml.EvGetDeviceHandleFromMigDeviceHandle d
                  (parent, nvml.SUCCESS);
                nvml.EvGetGpuInstanceById parent giId (gi, nvml.SUCCESS)]
            ++ rest
        ∧ Forall (λ x, x.1 = gi) (nvml.destroys t).
Proof.
  eexists _, _, _. split; [vm_compute; reflexivity|].
  split; [vm_compute; discriminate|].
  eapply (DeleteMigDevice_destroys_its_gpu_instance_only
            nvml.script.returnAsError 2 2 "MIG-bbb" nvml.script.twoGpus).
  - vm_compute. reflexivity.
  - vm_compute. discriminate.
Defined.

Lemma DeleteMigDevice_fails_when_Return_is_never_nil_witness :
  (∀ r, is_Some (nvml.script.returnAsError r))
  ∧ ∃ res w' t,
      nvml.DeleteMigDevice nvml.script.returnAsError 2 2 "MIG-bbb"
        nvml.script.twoGpus = (res, w', t)
      ∧ is_Some res
      ∧ (nvml.destroys t = []
         ∨ ∃ x e, nvml.destroys t = [x]
                  ∧ nvml.script.returnAsError x.2 = Some e
                  ∧ res = Some (nvml.ErrDestroyingComputeInstances e)).
Proof.
  split; [by eexists|].
  eexists _, _, _. split; [vm_compute; reflexivity|].
  eapply (DeleteMigDevice_fails_when_Return_is_never_nil
            nvml.script.returnAsError 2 2 "MIG-bbb" nvml.script.twoGpus).
  - by eexists.
  - vm_compute. reflexivity.
Defined.

Lemma DeleteMigDevice_nil_after_two_destroys_witness :
  ∃ w' t,
    nvml.DeleteMigDevice nvml.script.successIsNil 2 2 "MIG-bbb"
      nvml.script.twoGpus = (None, w', t)
    ∧ ((nvml.destroys t = []
        ∧ ∃ d giId parent r r',
            r ≠ nvml.SUCCESS ∧ nvml.script.successIsNil r = None
            ∧ t = nvml.EvInit nvml.SUCCESS
                  :: [nvml.EvDeviceGetHandleByUUID "MIG-bbb" (d, nvml.SUCCESS);
                      nvml.EvIsMigDeviceHandle d (true, nvml.SUCCESS);
                      nvml.EvGetGpuInstanceId d (giId, nvml.SUCCESS);
                      nvml.EvGetDeviceHandleFromMigDeviceHandle d (parent, r)]
                  ++ nvml.shutdownEvents r')
       ∨ ((2 ≤ length (nvml.destroys t))%nat
          ∧ Forall (nvml.destroyedOk nvml.script.successIsNil)
              (nvml.destroys t))).
Proof.
  eexists _, _. split; [vm_compute; reflexivity|].
  eapply (DeleteMigDevice_nil_after_two_destroys
            nvml.script.successIsNil 2 2 "MIG-bbb" nvml.script.twoGpus).
  vm_compute. reflexivity.
Defined.

(** ** The path of a model deployment in the model library *)

Section ModelLibraryPath.

Lemma string_app_assoc' (a b c : string) : (a +:+ b) +:+ c = a +:+ b +:+ c.
Proof.
  induction a as [|x a IH]; [reflexivity|].
  by rewrite !string_app_cons, IH.
Qed.

Lemma slashFree_no_slash a b :
  v1alpha1.slashFree (a +:+ String "/" b) = false.
Proof.
  induction a as [|x a IH]; [reflexivity|].
  rewrite string_app_cons. cbn [v1alpha1.slashFree]. rewrite IH.
  apply andb_false_r.
Qed.

(** A string splits in one way only at its last slash. *)
Lemma split_at_last_slash a1 a2 b1 b2 :
  v1alpha1.slashFree b1 = true → v1alpha1.slashFree b2 = true →
  a1 +:+ String "/" b1 = a2 +:+ String "/" b2 →
  a1 = a2 ∧ b1 = b2.
Proof.
  intros Hb1 Hb2. revert a2. induction a1 as [|x a1 IH]; intros [|y a2] Heq;
    rewrite ?string_app_nil, ?string_app_cons in Heq.
  - by injection Heq as ->.
  - injection Heq as <- ->. by rewrite slashFree_no_slash in Hb1.
  - injection Heq as -> <-. by rewrite slashFree_no_slash in Hb2.
  - injection Heq as -> Heq. by destruct (IH _ Heq) as [-> ->].
Qed.

Lemma GetModelLibraryPath_last_slash (m : v1alpha1.ModelDeployment) :
  v1alpha1.GetModelLibraryPath m
  = (v1alpha1.Uri (v1alpha1.SpecModelLibrary m)
       +:+ String "/" (v1alpha1.Namespace m))
    +:+ String "/" (v1alpha1.Name m).
Proof. by rewrite string_app_assoc'. Qed.

(** The path tells the model deployment: two deployments whose namespaces
    and names hold no slash and that get the same path have the same
    library URI, the same namespace and the same name. *)
Theorem GetModelLibraryPath_injective (m1 m2 : v1alpha1.ModelDeployment) :
  v1alpha1.slashFree (v1alpha1.Namespace m1) = true →
  v1alpha1.slashFree (v1alpha1.Name m1) = true →
  v1alpha1.slashFree (v1alpha1.Namespace m2) = true →
  v1alpha1.slashFree (v1alpha1.Name m2) = true →
  v1alpha1.GetModelLibraryPath m1 = v1alpha1.GetModelLibraryPath m2 →
  v1alpha1.Uri (v1alpha1.SpecModelLibrary m1)
    = v1alpha1.Uri (v1alpha1.SpecModelLibrary m2)
  ∧ v1alpha1.Namespace m1 = v1alpha1.Namespace m2
  ∧ v1alpha1.Name m1 = v1alpha1.Name m2.
Proof.
  intros Hns1 Hn1 Hns2 Hn2 Heq. rewrite !GetModelLibraryPath_last_slash in Heq.
  apply split_at_last_slash in Heq as [Heq ->]; [|done..].
  by apply split_at_last_slash in Heq as [-> ->].
Qed.

End ModelLibraryPath.

Lemma GetModelLibraryPath_injective_witness :
  let m1 := v1alpha1.mkModelDeployment "team-a" "bert"
              (v1alpha1.mkModelLibrary "s3://models/lib" "s3" "creds") in
  let m2 := v1alpha1.mkModelDeployment "team-a" "bert"
              (v1alpha1.mkModelLibrary "s3://models/lib" "azure" "other") in
  v1alpha1.GetModelLibraryPath m1 = "s3://models/lib/team-a/bert"
  ∧ v1alpha1.Uri (v1alpha1.SpecModelLibrary m1)
      = v1alpha1.Uri (v1alpha1.SpecModelLibrary m2)
  ∧ v1alpha1.Namespace m1 = v1alpha1.Namespace m2
  ∧ v1alpha1.Name m1 = v1alpha1.Name m2.
Proof.
  intros m1 m2. split; [reflexivity|].
  apply (GetModelLibraryPath_injective m1 m2); reflexivity.
Defined.

(** ** The order of the visit of the compute instances *)

Section VisitOrder.

Context {W S : Type} `{!nvml.Interface W}.
Variable f : nvml.ComputeInstance → Z → Z → nvml.ComputeInstanceProfileInfo
             → S → nvml.C W (S * option nvml.Error).
Hypothesis f_asks_nothing :
  ∀ ci j k info s, nvml.emits nvml.notProfileQuery (f ci j k info s).

Lemma profileQueries_app t1 t2 :
  nvml.profileQueries (t1 ++ t2)
  = nvml.profileQueries t1 ++ nvml.profileQueries t2.
Proof. apply omap_app. Qed.

Lemma notProfileQuery_none t :
  Forall nvml.notProfileQuery t → nvml.profileQueries t = [].
Proof.
  induction 1 as [|e t He _ IH]; [done|]. by destruct e.
Qed.

Lemma visitEngineProfiles_queries gi j ks s (w : W) res w' t :
  nvml.visitEngineProfiles f gi j ks s w = (res, w', t) →
  nvml.profileQueries t `prefix_of` ((λ k, (j, k)) <$> ks)
  ∧ (res.2 = None → nvml.profileQueries t = (λ k, (j, k)) <$> ks).
Proof.
  revert s w t. induction ks as [|k ks IH]; intros s w t Hrun.
  { cbn in Hrun. by injection Hrun as <- <- <-. }
  cbn [nvml.visitEngineProfiles] in Hrun.
  apply nvml_bind_inv in Hrun as ([info r] & w1 & t1 & t2 & Hc & Hrest & ->).
  apply nvml_call_inv in Hc as [Hc ->]. rewrite fmap_cons.
  change (nvml.profileQueries
            ([nvml.EvGetComputeInstanceProfileInfo gi j k (info, r)] ++ t2))
    with ((j, k) :: nvml.profileQueries t2).
  assert (∀ t2,
            nvml.profileQueries t2 `prefix_of` ((λ k, (j, k)) <$> ks)
            ∧ (res.2 = None → nvml.profileQueries t2 = (λ k, (j, k)) <$> ks) →
            (j, k) :: nvml.profileQueries t2
              `prefix_of` (j, k) :: ((λ k, (j, k)) <$> ks)
            ∧ (res.2 = None →
               (j, k) :: nvml.profileQueries t2
               = (j, k) :: ((λ k, (j, k)) <$> ks))) as Hnext.
  { intros t' [Hpre Hall]. split; [by apply prefix_cons|].
    intros Hnone. by rewrite Hall. }
  assert ((j, k) :: nvml.profileQueries []
            `prefix_of` (j, k) :: ((λ k, (j, k)) <$> ks)) as Hstop.
  { apply prefix_cons, prefix_nil. }
  destruct (decide (r = nvml.ERROR_NOT_SUPPORTED)); [by apply IH, Hnext in Hrest|].
  destruct (decide (r = nvml.ERROR_INVALID_ARGUMENT));
    [by apply IH, Hnext in Hrest|].
  destruct (decide (r ≠ nvml.SUCCESS)); [by injection Hrest as <- <- <-|].
  apply nvml_bind_inv in Hrest as ([cis r2] & w2 & t3 & t4 & Hc2 & Hrest & ->).
  apply nvml_call_inv in Hc2 as [Hc2 ->].
  change (nvml.profileQueries ([nvml.EvGetComputeInstances gi info (cis, r2)] ++ t4))
    with (nvml.profileQueries t4).
  destruct (decide (r2 ≠ nvml.SUCCESS)); [by injection Hrest as <- <- <-|].
  apply nvml_bind_inv in Hrest as ([s1 e1] & w3 & t5 & t6 & Hv & Hrest & ->).
  apply (visitInstances_emits f _ _ _ _ _ _ f_asks_nothing),
    notProfileQuery_none in Hv.
  rewrite profileQueries_app, Hv. cbn [app].
  destruct e1 as [e1|]; [by injection Hrest as <- <- <-|].
  by apply IH, Hnext in Hrest.
Qed.

Lemma visitProfiles_queries gi js ks s (w : W) res w' t :
  nvml.visitProfiles f gi js ks s w = (res, w', t) →
  let all := flat_map (λ j, (λ k, (j, k)) <$> ks) js in
  nvml.profileQueries t `prefix_of` all
  ∧ (res.2 = None → nvml.profileQueries t = all).
Proof.
  cbn zeta. revert s w t. induction js as [|j js IH]; intros s w t Hrun.
  { cbn in Hrun. by injection Hrun as <- <- <-. }
  cbn [nvml.visitProfiles flat_map] in Hrun |- *.
  apply nvml_bind_inv in Hrun as ([s1 e1] & w1 & t1 & t2 & Hv & Hrest & ->).
  apply visitEngineProfiles_queries in Hv as [Hpre Hall]. cbn [snd] in Hall.
  rewrite profileQueries_app.
  destruct e1 as [e1|].
  - injection Hrest as <- <- <-. cbn [snd nvml.profileQueries omap].
    rewrite app_nil_r. split; [by apply prefix_app_r|done].
  - apply IH in Hrest as [Hpre2 Hall2]. rewrite (Hall eq_refl).
    split; [by apply prefix_app|]. intros Hnone. by rewrite Hall2.
Qed.

(** [visitComputeInstances] asks for the profile infos in the order of its
    two loops, the engine profile [k] moving first, once each; when it
    returns an error it has stopped on the way, and when it returns [nil] it
    has asked for every pair [(j, k)] below the two profile counts. *)
Theorem visitComputeInstances_row_major nProfiles nEngineProfiles gi s
    (w : W) s' err w' t :
  nvml.visitComputeInstances nProfiles nEngineProfiles gi f s w
    = ((s', err), w', t) →
  nvml.profileQueries t `prefix_of` nvml.allProfiles nProfiles nEngineProfiles
  ∧ (err = None →
     nvml.profileQueries t = nvml.allProfiles nProfiles nEngineProfiles).
Proof.
  intros Hrun. by apply visitProfiles_queries in Hrun.
Qed.

End VisitOrder.

Lemma visitComputeInstances_row_major_witness :
  let gi := nvml.gpuInstance 12 in
  let visitor := nvml.destroyVisitor nvml.script.successIsNil gi in
  (∀ ci j k info n,
     nvml.emits (W := nvml.script.World) nvml.notProfileQuery
       (visitor ci j k info n))
  ∧ ∃ n w' t,
      nvml.visitComputeInstances 2 2 gi visitor 0 nvml.script.twoGpus
        = ((n, None), w', t)
      ∧ nvml.profileQueries t `prefix_of` nvml.allProfiles 2 2
      ∧ (@None nvml.Error = None →
         nvml.profileQueries t = [(0, 0); (0, 1); (1, 0); (1, 1)]).
Proof.
  intros gi visitor.
  assert (∀ ci j k info n,
            nvml.emits (W := nvml.script.World) nvml.notProfileQuery
              (visitor ci j k info n)) as Hf.
  { intros. by apply destroyVisitor_emits. }
  split; [exact Hf|]. eexists _, _, _. split; [vm_compute; reflexivity|].
  eapply (visitComputeInstances_row_major visitor Hf 2 2 gi 0
            nvml.script.twoGpus).
  vm_compute. reflexivity.
Defined.
